(** * Goldium wallet dashboard: balance store, price cache and refresh triggers

    A shallow embedding of
      - [stores/useTokenBalanceStore.tsx]  (the zustand store with
        [getTokenBalance] and [getAllTokenBalances]), and
      - [components/BalanceTracker.tsx]    ([fetchPriceData],
        [refreshBalances], [handleRefresh] and the two effects,
        [getSolscanAccountUrl], [getTotalPortfolioValue]), and
      - the wallet context provider        ([onError]).

    The component imports the store as [../stores/useTokenBalanceStore];
    the store embedded here is the one copy of that module at hand.

    Asynchronous functions are embedded as programs of a free monad whose
    suspension points are the [await]s of the source.  Such a program is
    run either sequentially against a scripted environment ([run]) or as
    one of several tasks interleaved by an event loop ([step]).

    JavaScript numbers are embedded as exact rationals ([Q]): the quotient
    [solBalance / LAMPORTS_PER_SOL] is the exact quotient.  The rounding of
    IEEE-754 doubles is not modelled, neither that of a quotient nor that
    of [Number(amount)] for a raw amount above 2^53, and there is no
    [Infinity] and no [NaN] among the amounts and prices.  What is proved
    of amounts is their sign and where they are stored, not their digits.
    Console output is left out. *)

From Stdlib Require Import ZArith QArith Qpower List String Bool Lia.
From stdpp Require Import gmap strings.

Local Open Scope string_scope.
Local Open Scope list_scope.
Local Open Scope Z_scope.

(** ** Data of the external collaborators *)

(** A public key is identified with its base58 text. *)
Definition PublicKey : Type := string.

Record Connection : Type := { rpcEndpoint : string }.

Definition Error : Type := string.

(** What [connection.getAccountInfo] resolves to when the account exists. *)
Record AccountInfo : Type := { data : list Byte.byte; owner : PublicKey }.

(** What [getAccount] resolves to; the store reads [amount] only. *)
Record TokenAccount : Type := { amount : Z }.

Record HttpResponse : Type := { body : string }.

(** [{ success, data: { prices: [{symbol, price}] } }] of /api/market/prices;
    [resp_data] is the [data] member, absent members are [None]. *)
Record PriceEntry : Type := { symbol : string; price : Q }.
Record PricesBody : Type := { prices : option (list PriceEntry) }.
Record PriceApiData : Type := { success : bool; resp_data : option PricesBody }.

(** [config/tokens] is not part of the sources at hand: [TOKENS.GOLD] is a
    parameter of the store, with the two members the store reads; [mint]
    is taken to be a well-formed address, so that [new PublicKey(mint)]
    returns. *)
Record TokenConfig : Type := { mint : PublicKey; decimals : Z }.

Definition LAMPORTS_PER_SOL : Z := 1000000000.

Definition TOKEN_PROGRAM_ID : PublicKey :=
  "TokenkegQfeZyiNwAJbNbGKPFXCWuBvf9Ss623VQ5DA".

(** ** The store's state *)

(** [keyof TokenBalance] *)
Module Sym.
Inductive t : Type := SOL | GOLD.
End Sym.

Record TokenBalance : Type := { SOL : Q; GOLD : Q }.

Record State : Type := { balances : TokenBalance; isLoading : bool }.

Definition initial_state : State :=
  {| balances := {| SOL := 0; GOLD := 0 |}; isLoading := false |}.

(** [{ ...state.balances, [tokenSymbol]: balance }] *)
Definition with_balance (b : TokenBalance) (tokenSymbol : Sym.t) (balance : Q)
  : TokenBalance :=
  match tokenSymbol with
  | Sym.SOL => {| SOL := balance; GOLD := GOLD b |}
  | Sym.GOLD => {| SOL := SOL b; GOLD := balance |}
  end.

(** [set({ isLoading: v })] merges into the current state. *)
Definition set_isLoading (v : bool) (st : State) : State :=
  {| balances := balances st; isLoading := v |}.

(** ** Asynchronous programs *)

(** The operations a program awaits.  The commitment argument of the RPC
    reads is the constant ['confirmed'] and is left out. *)
Inductive Call : Type :=
| getBalance (connection : Connection) (publicKey : PublicKey)
| getAssociatedTokenAddress (tokenMint owner : PublicKey)
| getAccountInfo (connection : Connection) (address : PublicKey)
| getAccount (connection : Connection) (address : PublicKey)
| timeout (ms : Z)            (* new Promise(resolve => setTimeout(resolve, ms)) *)
| fetch (url : string)
| json (response : HttpResponse).

Definition Payload (c : Call) : Type :=
  match c with
  | getBalance _ _ => Z
  | getAssociatedTokenAddress _ _ => PublicKey
  | getAccountInfo _ _ => option AccountInfo
  | getAccount _ _ => TokenAccount
  | timeout _ => unit
  | fetch _ => HttpResponse
  | json _ => PriceApiData
  end.

Inductive Result (T : Type) : Type :=
| Resolved (v : T)
| Rejected (e : Error).
Arguments Resolved {T} v.
Arguments Rejected {T} e.

(** Callbacks handed to [setTimeout] / [setInterval] by the component. *)
Inductive Callback : Type :=
| cb_getAllTokenBalances (publicKey : PublicKey) (connection : Connection)
| cb_refreshBalances (publicKey : option PublicKey)
                     (connection : option Connection).

(** Which handle a timer is kept under: the [timeouts] array of the
    initial-load effect, the [interval] of the auto-refresh effect, or no
    handle at all (the secondary refresh of [handleRefresh]). *)
Inductive TimerKind : Type := StartupTimeout | RefreshInterval | SecondaryTimeout.

Record Timer : Type :=
  { timer_kind : TimerKind; timer_ms : Z; timer_callback : Callback }.

(** Synchronous effects. *)
Inductive Action : Type :=
| set (f : State -> State)
| dispatch_balanceUpdated (detail : TokenBalance)
| setPriceData (priceMap : gmap string Q)
| setLastUpdated
| setTimer (t : Timer).

Inductive Prog (A : Type) : Type :=
| Ret (a : A)
| Throw (e : Error)
| Await (c : Call) (k : Result (Payload c) -> Prog A)
| Do (a : Action) (k : Prog A).
Arguments Ret {A} a.
Arguments Throw {A} e.
Arguments Await {A} c k.
Arguments Do {A} a k.

Fixpoint bind {A B : Type} (p : Prog A) (f : A -> Prog B) : Prog B :=
  match p with
  | Ret a => f a
  | Throw e => Throw e
  | Await c k => Await c (fun r => bind (k r) f)
  | Do a k => Do a (bind k f)
  end.

#[export] Instance Prog_ret : MRet Prog := @Ret.
#[export] Instance Prog_bind : MBind Prog := fun A B f p => bind p f.

(** [try { p } catch (error) { h error }] *)
Fixpoint try_catch {A : Type} (p : Prog A) (h : Error -> Prog A) : Prog A :=
  match p with
  | Ret a => Ret a
  | Throw e => h e
  | Await c k => Await c (fun r => try_catch (k r) h)
  | Do a k => Do a (try_catch k h)
  end.

(** [await c]: a rejection is thrown at the await. *)
Definition await (c : Call) : Prog (Payload c) :=
  Await c (fun r => match r with
                    | Resolved v => Ret v
                    | Rejected e => Throw e
                    end).

(** [await new Promise(resolve => setTimeout(resolve, ms))]: this promise
    has no reject path, the program goes on whatever the timer delivers. *)
Definition sleep (ms : Z) : Prog unit := Await (timeout ms) (fun _ => Ret tt).

Definition do_ (a : Action) : Prog unit := Do a (Ret tt).

(** How one pass through a loop body ends: falling through to the next
    iteration or [break]; [s] is the value of the loop's local variable. *)
Inductive Ctl (S : Type) : Type :=
| Continue (s : S)
| Break (s : S).
Arguments Continue {S} s.
Arguments Break {S} s.

(** [for (let i = i0; i < i0 + n; i++) body]: [n] iterations are left. *)
Fixpoint for_loop {S : Type} (n : nat) (i : Z)
    (body : Z -> S -> Prog (Ctl S)) (s : S) : Prog S :=
  match n with
  | O => Ret s
  | Datatypes.S n' =>
      bind (body i s) (fun c =>
        match c with
        | Break s' => Ret s'
        | Continue s' => for_loop n' (i + 1) body s'
        end)
  end.

(** ** useTokenBalanceStore *)

Section Store.

Variable TOKENS_GOLD : TokenConfig.

(** [Number(tokenAccountInfo.amount) / Math.pow(10, TOKENS.GOLD.decimals)],
    as the exact quotient; the double the code computes is this value
    rounded, twice when the amount exceeds 2^53. *)
Definition gold_units (tokenAccountInfo : TokenAccount) : Q :=
  inject_Z (amount tokenAccountInfo) / Qpower 10 (decimals TOKENS_GOLD).

(** [solBalance / LAMPORTS_PER_SOL], as the exact quotient; the double the
    code computes is this value rounded. *)
Definition sol_units (solBalance : Z) : Q :=
  inject_Z solBalance / inject_Z LAMPORTS_PER_SOL.

(** The [try] block of the SOL retry loop. *)
Definition sol_try (connection : Connection) (publicKey : PublicKey)
  : Prog (Ctl Q) :=
  solBalance ← await (getBalance connection publicKey);
  Ret (Break (sol_units solBalance)).

(** The SOL retry loop's body; the same text stands in [getTokenBalance]
    (lines 38-49) and in [getAllTokenBalances] (lines 120-131).  The loop
    variable is not assigned before a failing await, so the [catch] block
    sees the value it had on entry. *)
Definition sol_body (connection : Connection) (publicKey : PublicKey)
    (i : Z) (balance : Q) : Prog (Ctl Q) :=
  try_catch (sol_try connection publicKey)
    (fun error =>
       if (i =? 2)%Z then Throw error
       else sleep 1000;; Ret (Continue balance)).

(** The [try] block of the GOLD retry loop in [getTokenBalance]. *)
Definition gold_try_one (connection : Connection) (publicKey tokenMint : PublicKey)
  : Prog (Ctl Q) :=
  tokenAccount ← await (getAssociatedTokenAddress tokenMint publicKey);
  accountInfo ← await (getAccountInfo connection tokenAccount);
  match accountInfo with
  | Some _ =>
      tokenAccountInfo ← await (getAccount connection tokenAccount);
      Ret (Break (gold_units tokenAccountInfo))
  | None => Ret (Break 0%Q)
  end.

(** The GOLD retry loop's body in [getTokenBalance] (lines 55-80). *)
Definition gold_body_one (connection : Connection) (publicKey tokenMint : PublicKey)
    (i : Z) (balance : Q) : Prog (Ctl Q) :=
  try_catch (gold_try_one connection publicKey tokenMint)
    (fun error =>
       if (i =? 2)%Z then Ret (Continue 0%Q)
       else sleep 1000;; Ret (Continue balance)).

(** The [try] block of the GOLD retry loop in [getAllTokenBalances]:
    [accountInfo.data] is a Buffer, truthy whatever its length. *)
Definition gold_try_all (connection : Connection) (publicKey tokenMint : PublicKey)
  : Prog (Ctl Q) :=
  tokenAccount ← await (getAssociatedTokenAddress tokenMint publicKey);
  accountInfo ← await (getAccountInfo connection tokenAccount);
  match accountInfo with
  | Some info =>
      if (0 <? Z.of_nat (length (data info)))%Z then
        if String.eqb (owner info) TOKEN_PROGRAM_ID then
          tokenAccountInfo ← await (getAccount connection tokenAccount);
          Ret (Break (gold_units tokenAccountInfo))
        else Ret (Break 0%Q)
      else Ret (Break 0%Q)
  | None => Ret (Break 0%Q)
  end.

(** The GOLD retry loop's body in [getAllTokenBalances] (lines 138-170). *)
Definition gold_body_all (connection : Connection) (publicKey tokenMint : PublicKey)
    (i : Z) (goldAmount : Q) : Prog (Ctl Q) :=
  try_catch (gold_try_all connection publicKey tokenMint)
    (fun error =>
       if (i =? 2)%Z then Ret (Continue 0%Q)
       else sleep 1000;; Ret (Continue goldAmount)).

Definition getTokenBalance (publicKey : PublicKey) (connection : Connection)
    (tokenSymbol : Sym.t) : Prog unit :=
  do_ (set (set_isLoading true));;
  try_catch
    (balance ←
       match tokenSymbol with
       | Sym.SOL => for_loop 3 0 (sol_body connection publicKey) 0%Q
       | Sym.GOLD =>
           let tokenMint := mint TOKENS_GOLD in
           for_loop 3 0 (gold_body_one connection publicKey tokenMint) 0%Q
       end;
     do_ (set (fun state =>
                 {| balances := with_balance (balances state) tokenSymbol balance;
                    isLoading := false |})))
    (fun error => do_ (set (set_isLoading false))).

Definition getAllTokenBalances (publicKey : option PublicKey)
    (connection : option Connection) : Prog unit :=
  match publicKey with
  | None => do_ (set (set_isLoading false))
  | Some pk =>
      match connection with
      | None => do_ (set (set_isLoading false))
      | Some conn =>
          do_ (set (set_isLoading true));;
          try_catch
            (solAmount ← for_loop 3 0 (sol_body conn pk) 0%Q;
             let tokenMint := mint TOKENS_GOLD in
             goldAmount ← for_loop 3 0 (gold_body_all conn pk tokenMint) 0%Q;
             do_ (set (fun _ =>
                         {| balances := {| SOL := solAmount; GOLD := goldAmount |};
                            isLoading := false |}));;
             do_ (dispatch_balanceUpdated {| SOL := solAmount; GOLD := goldAmount |}))
            (fun error => do_ (set (set_isLoading false)))
      end
  end.

End Store.

(** ** Running a program *)

(** Everything a program can change, and the record of what it asked of the
    outside: [history] lists the awaited calls, newest first;
    [dispatched] the ['balanceUpdated'] events put on [window], newest
    first.  [lastUpdated] counts the [setLastUpdated(new Date())] calls of
    the component (0: still [null]); the date itself is not modelled.
    [listening] says whether the component's ['balanceUpdated'] listener is
    registered. *)
Record World : Type :=
  { store : State;
    priceData : gmap string Q;
    lastUpdated : nat;
    window_defined : bool;
    listening : bool;
    dispatched : list TokenBalance;
    timers : list Timer;
    history : list Call }.

Definition with_store (st : State) (w : World) : World :=
  {| store := st; priceData := priceData w; lastUpdated := lastUpdated w;
     window_defined := window_defined w; listening := listening w;
     dispatched := dispatched w; timers := timers w; history := history w |}.

Definition with_priceData (m : gmap string Q) (w : World) : World :=
  {| store := store w; priceData := m; lastUpdated := lastUpdated w;
     window_defined := window_defined w; listening := listening w;
     dispatched := dispatched w; timers := timers w; history := history w |}.

Definition with_lastUpdated (n : nat) (w : World) : World :=
  {| store := store w; priceData := priceData w; lastUpdated := n;
     window_defined := window_defined w; listening := listening w;
     dispatched := dispatched w; timers := timers w; history := history w |}.

Definition with_listening (b : bool) (w : World) : World :=
  {| store := store w; priceData := priceData w; lastUpdated := lastUpdated w;
     window_defined := window_defined w; listening := b;
     dispatched := dispatched w; timers := timers w; history := history w |}.

Definition with_dispatched (l : list TokenBalance) (w : World) : World :=
  {| store := store w; priceData := priceData w; lastUpdated := lastUpdated w;
     window_defined := window_defined w; listening := listening w;
     dispatched := l; timers := timers w; history := history w |}.

Definition with_timers (l : list Timer) (w : World) : World :=
  {| store := store w; priceData := priceData w; lastUpdated := lastUpdated w;
     window_defined := window_defined w; listening := listening w;
     dispatched := dispatched w; timers := l; history := history w |}.

Definition with_history (h : list Call) (w : World) : World :=
  {| store := store w; priceData := priceData w; lastUpdated := lastUpdated w;
     window_defined := window_defined w; listening := listening w;
     dispatched := dispatched w; timers := timers w; history := h |}.

(** [handleBalanceUpdate], the component's listener. *)
Definition handleBalanceUpdate (w : World) : World :=
  with_lastUpdated (Datatypes.S (lastUpdated w)) w.

Definition apply_action (a : Action) (w : World) : World :=
  match a with
  | set f => with_store (f (store w)) w
  | dispatch_balanceUpdated detail =>
      (* if (typeof window !== 'undefined') window.dispatchEvent(...) *)
      if window_defined w then
        let w' := with_dispatched (detail :: dispatched w) w in
        if listening w then handleBalanceUpdate w' else w'
      else w
  | setPriceData priceMap => with_priceData priceMap w
  | setLastUpdated => with_lastUpdated (Datatypes.S (lastUpdated w)) w
  | setTimer t => with_timers (timers w ++ [t]) w
  end.

(** The outside world: what the next call resolves or rejects with, given
    the calls made so far. *)
Definition Oracle : Type := list Call -> forall c : Call, Result (Payload c).

Inductive Outcome (A : Type) : Type :=
| Normal (a : A)
| Thrown (e : Error).
Arguments Normal {A} a.
Arguments Thrown {A} e.

(** One asynchronous function run to its end with nothing interleaved. *)
Fixpoint run {A : Type} (o : Oracle) (p : Prog A) (w : World) : Outcome A * World :=
  match p with
  | Ret a => (Normal a, w)
  | Throw e => (Thrown e, w)
  | Await c k => run o (k (o (history w) c)) (with_history (c :: history w) w)
  | Do a k => run o k (apply_action a w)
  end.

Definition initial_world (window : bool) : World :=
  {| store := initial_state; priceData := {[ "SOL" := 0%Q; "GOLD" := 0%Q ]};
     lastUpdated := 0; window_defined := window; listening := false;
     dispatched := []; timers := []; history := [] |}.

(** ** BalanceTracker *)

(** [priceMap[price.symbol] = price.price] for each entry, in order, on an
    object that starts as [{}].  The map holds the object's own
    properties.  An assignment to ['__proto__'] goes to the setter the
    object inherits, which ignores a number: it adds no property.  Every
    other key becomes an own property.  The component reads the members
    [SOL] and [GOLD] only, which [Object.prototype] does not have: for
    these two a lookup in the map is the value read from the object. *)
Definition build_priceMap (l : list PriceEntry) : gmap string Q :=
  foldl (fun priceMap p =>
           if String.eqb (symbol p) "__proto__" then priceMap
           else <[symbol p := price p]> priceMap) ∅ l.

Definition fetchPriceData : Prog unit :=
  try_catch
    (response ← await (fetch "/api/market/prices");
     data ← await (json response);
     match success data, resp_data data with
     | true, Some {| prices := Some l |} => do_ (setPriceData (build_priceMap l))
     | _, _ => Ret tt
     end)
    (fun error => Ret tt).

Section Component.

Variable TOKENS_GOLD : TokenConfig.

Definition refreshBalances (publicKey : option PublicKey)
    (connection : option Connection) : Prog unit :=
  match publicKey with
  | Some pk =>
      getAllTokenBalances TOKENS_GOLD (Some pk) connection;;
      do_ setLastUpdated;;
      fetchPriceData
  | None => Ret tt
  end.

Definition handleRefresh (publicKey : option PublicKey)
    (connection : option Connection) : Prog unit :=
  match publicKey, connection with
  | Some pk, Some conn =>
      getAllTokenBalances TOKENS_GOLD (Some pk) (Some conn);;
      do_ (setTimer {| timer_kind := SecondaryTimeout; timer_ms := 2000;
                       timer_callback := cb_getAllTokenBalances pk conn |})
  | _, _ => Ret tt
  end.

Definition callback_prog (cb : Callback) : Prog unit :=
  match cb with
  | cb_getAllTokenBalances pk conn =>
      getAllTokenBalances TOKENS_GOLD (Some pk) (Some conn)
  | cb_refreshBalances pk conn => refreshBalances pk conn
  end.

(** An asynchronous function suspended at an [await]. *)
Record Task : Type :=
  { task_call : Call; task_k : Result (Payload task_call) -> Prog unit }.

(** The mounted component with the store: the values of the [useWallet]
    and [useConnection] hooks, the two props and the tasks in flight. *)
Record Sys : Type :=
  { world : World;
    useWallet_publicKey : option PublicKey;
    useConnection_connection : option Connection;
    autoRefresh : bool;
    refreshInterval : Z;
    tasks : list Task }.

Definition with_world (w : World) (s : Sys) : Sys :=
  {| world := w; useWallet_publicKey := useWallet_publicKey s;
     useConnection_connection := useConnection_connection s;
     autoRefresh := autoRefresh s; refreshInterval := refreshInterval s;
     tasks := tasks s |}.

Definition with_tasks (l : list Task) (s : Sys) : Sys :=
  {| world := world s; useWallet_publicKey := useWallet_publicKey s;
     useConnection_connection := useConnection_connection s;
     autoRefresh := autoRefresh s; refreshInterval := refreshInterval s;
     tasks := l |}.

Definition with_publicKey (pk : option PublicKey) (s : Sys) : Sys :=
  {| world := world s; useWallet_publicKey := pk;
     useConnection_connection := useConnection_connection s;
     autoRefresh := autoRefresh s; refreshInterval := refreshInterval s;
     tasks := tasks s |}.

(** Runs a program up to its next [await] (or to its end; an error that
    nothing catches ends the task). *)
Fixpoint advance (p : Prog unit) (w : World) : option Task * World :=
  match p with
  | Ret _ => (None, w)
  | Throw _ => (None, w)
  | Await c k => (Some {| task_call := c; task_k := k |}, w)
  | Do a k => advance k (apply_action a w)
  end.

(** Calling an asynchronous function without awaiting it. *)
Definition spawn (p : Prog unit) (s : Sys) : Sys :=
  match advance p (world s) with
  | (Some t, w) => with_tasks (tasks s ++ [t]) (with_world w s)
  | (None, w) => with_world w s
  end.

Definition is_kept_on_cleanup (t : Timer) : bool :=
  match timer_kind t with
  | SecondaryTimeout => true
  | StartupTimeout | RefreshInterval => false
  end.

(** The cleanup functions of the two effects: [clearInterval(interval)],
    [timeouts.forEach(clearTimeout)] and [removeEventListener]. *)
Definition cleanup (s : Sys) : Sys :=
  with_world
    (with_listening false
       (with_timers (List.filter is_kept_on_cleanup (timers (world s))) (world s)))
    s.

Definition add_timer (t : Timer) (s : Sys) : Sys :=
  with_world (apply_action (setTimer t) (world s)) s.

(** The auto-refresh effect (lines 65-70). *)
Definition auto_refresh_effect (s : Sys) : Sys :=
  match autoRefresh s, useWallet_publicKey s with
  | true, Some pk =>
      add_timer {| timer_kind := RefreshInterval; timer_ms := refreshInterval s;
                   timer_callback :=
                     cb_refreshBalances (Some pk) (useConnection_connection s) |} s
  | _, _ => s
  end.

(** The initial-load effect (lines 73-104). *)
Definition initial_load_effect (s : Sys) : Sys :=
  match useWallet_publicKey s, useConnection_connection s with
  | Some pk, Some conn =>
      let s1 := spawn (getAllTokenBalances TOKENS_GOLD (Some pk) (Some conn)) s in
      let s2 := spawn fetchPriceData s1 in
      let s3 := add_timer {| timer_kind := StartupTimeout; timer_ms := 3000;
                             timer_callback := cb_getAllTokenBalances pk conn |} s2 in
      let s4 := add_timer {| timer_kind := StartupTimeout; timer_ms := 10000;
                             timer_callback := cb_getAllTokenBalances pk conn |} s3 in
      with_world (with_listening true (world s4)) s4
  | _, _ => s
  end.

Inductive Event : Type :=
| WalletChanged (publicKey : option PublicKey)   (* attach, detach, switch *)
| ClickRefresh                                  (* the refresh button *)
| TimerFires (n : nat)                          (* the n-th pending timer *)
| Resume (n : nat).                             (* the n-th task's await settles *)

Definition remove_nth {A : Type} (n : nat) (l : list A) : list A :=
  firstn n l ++ skipn (Datatypes.S n) l.

Definition step (o : Oracle) (ev : Event) (s : Sys) : Sys :=
  match ev with
  | WalletChanged pk =>
      if decide (pk = useWallet_publicKey s) then s
      else initial_load_effect (auto_refresh_effect (with_publicKey pk (cleanup s)))
  | ClickRefresh =>
      (* the button is rendered when publicKey is set, disabled={isLoading} *)
      match useWallet_publicKey s with
      | Some _ =>
          if isLoading (store (world s)) then s
          else spawn (handleRefresh (useWallet_publicKey s)
                                    (useConnection_connection s)) s
      | None => s
      end
  | TimerFires n =>
      match nth_error (timers (world s)) n with
      | Some t =>
          let s' :=
            match timer_kind t with
            | RefreshInterval => s
            | _ => with_world (with_timers (remove_nth n (timers (world s))) (world s)) s
            end in
          spawn (callback_prog (timer_callback t)) s'
      | None => s
      end
  | Resume n =>
      match nth_error (tasks s) n with
      | Some t =>
          let w := world s in
          let p := task_k t (o (history w) (task_call t)) in
          match advance p (with_history (task_call t :: history w) w) with
          | (Some t', w') =>
              with_tasks (firstn n (tasks s) ++ t' :: skipn (Datatypes.S n) (tasks s))
                         (with_world w' s)
          | (None, w') => with_tasks (remove_nth n (tasks s)) (with_world w' s)
          end
      | None => s
      end
  end.

Definition steps (o : Oracle) (evs : list Event) (s : Sys) : Sys :=
  foldl (fun s ev => step o ev s) s evs.

(** A task is inside a balance refresh while it waits for the ledger or
    for the back-off between two attempts. *)
Definition in_refresh_cycle (t : Task) : bool :=
  match task_call t with
  | fetch _ | json _ => false
  | _ => true
  end.

Definition cycles_in_flight (s : Sys) : nat :=
  length (List.filter in_refresh_cycle (tasks s)).

Definition mounted (window : bool) (connection : option Connection)
    (autoRefresh : bool) (refreshInterval : Z) : Sys :=
  {| world := initial_world window; useWallet_publicKey := None;
     useConnection_connection := connection; autoRefresh := autoRefresh;
     refreshInterval := refreshInterval; tasks := [] |}.

End Component.

(** ** Counting attempts *)

Definition is_getBalance (c : Call) : bool :=
  match c with getBalance _ _ => true | _ => false end.

Definition is_getAssociatedTokenAddress (c : Call) : bool :=
  match c with getAssociatedTokenAddress _ _ => true | _ => false end.

(** The calls the SOL loop makes, and those a GOLD loop makes. *)
Definition sol_calls (c : Call) : bool :=
  match c with getBalance _ _ | timeout _ => true | _ => false end.

Definition gold_calls (c : Call) : bool :=
  match c with
  | getAssociatedTokenAddress _ _ | getAccountInfo _ _ | getAccount _ _
  | timeout _ => true
  | _ => false
  end.

(** The number of calls in the history that [mark] selects.  An attempt of
    the SOL loop begins with [getBalance], an attempt of a GOLD loop with
    [getAssociatedTokenAddress], and neither call occurs anywhere else in
    an attempt: the count is the number of attempts begun. *)
Definition started (mark : Call -> bool) (w : World) : nat :=
  length (List.filter mark (history w)).

(** [w'] differs from [w] only by calls put in front of the history, all
    of them calls that [allowed] selects. *)
Definition adds_calls (allowed : Call -> bool) (w w' : World) : Prop :=
  exists l, w' = with_history (l ++ history w) w /\ forallb allowed l = true.

(** ** Retry loops, failures and refresh sequences *)

(** The shape the three loop bodies share: a [try] block, and a [catch]
    block that does [last] when [i === 2] and otherwise waits a second and
    lets the loop go round again. *)
Definition retry_body (attempt : Prog (Ctl Q)) (last : Error -> Prog (Ctl Q))
    (i : Z) (s : Q) : Prog (Ctl Q) :=
  try_catch attempt
    (fun error => if (i =? 2)%Z then last error else sleep 1000;; Ret (Continue s)).

(** What the GOLD loops' [catch] block does when [i === 2]: the loop
    variable is set to 0 and the loop runs out. *)
Definition gold_last : Error -> Prog (Ctl Q) := fun _ => Ret (Continue 0%Q).

(** The three retry loops of the store. *)
Inductive RetryLoop : Type := SOL_loop | GOLD_loop_one | GOLD_loop_all.

Definition loop_try (cfg : TokenConfig) (conn : Connection) (pk : PublicKey)
    (l : RetryLoop) : Prog (Ctl Q) :=
  match l with
  | SOL_loop => sol_try conn pk
  | GOLD_loop_one => gold_try_one cfg conn pk (mint cfg)
  | GOLD_loop_all => gold_try_all cfg conn pk (mint cfg)
  end.

Definition loop_body (cfg : TokenConfig) (conn : Connection) (pk : PublicKey)
    (l : RetryLoop) : Z -> Q -> Prog (Ctl Q) :=
  match l with
  | SOL_loop => sol_body conn pk
  | GOLD_loop_one => gold_body_one cfg conn pk (mint cfg)
  | GOLD_loop_all => gold_body_all cfg conn pk (mint cfg)
  end.

Definition loop_mark (l : RetryLoop) : Call -> bool :=
  match l with
  | SOL_loop => is_getBalance
  | GOLD_loop_one | GOLD_loop_all => is_getAssociatedTokenAddress
  end.

Definition loop_calls (l : RetryLoop) : Call -> bool :=
  match l with
  | SOL_loop => sol_calls
  | GOLD_loop_one | GOLD_loop_all => gold_calls
  end.

(** The operation fails whenever it is tried. *)
Definition always_fails {A : Type} (o : Oracle) (attempt : Prog A) : Prop :=
  forall w, exists e w', run o attempt w = (Thrown e, w').

(** Counting from [w], the operation fails the first [k] times it is tried
    and yields [v] the next time. *)
Definition fails_k_then_yields (o : Oracle) (attempt : Prog (Ctl Q))
    (mark : Call -> bool) (w : World) (k : nat) (v : Q) : Prop :=
  (forall w1, (started mark w1 < started mark w + k)%nat ->
              exists e w2, run o attempt w1 = (Thrown e, w2)) /\
  (forall w1, started mark w1 = (started mark w + k)%nat ->
              exists w2, run o attempt w1 = (Normal (Break v), w2)).

Definition loop_of_symbol (tokenSymbol : Sym.t) : RetryLoop :=
  match tokenSymbol with
  | Sym.SOL => SOL_loop
  | Sym.GOLD => GOLD_loop_one
  end.

(** The ledger reports non-negative raw amounts. *)
Definition ledger_nonneg (o : Oracle) : Prop :=
  (forall h conn pk v, o h (getBalance conn pk) = Resolved v -> (0 <= v)%Z) /\
  (forall h conn a acc, o h (getAccount conn a) = Resolved acc -> (0 <= amount acc)%Z).

Definition balances_nonneg (st : State) : Prop :=
  (0 <= SOL (balances st))%Q /\ (0 <= GOLD (balances st))%Q.

(** The two refresh operations of the store. *)
Inductive Refresh : Type :=
| refreshOne (publicKey : PublicKey) (connection : Connection) (tokenSymbol : Sym.t)
| refreshAll (publicKey : option PublicKey) (connection : option Connection).

Definition refresh_prog (cfg : TokenConfig) (r : Refresh) : Prog unit :=
  match r with
  | refreshOne pk conn tokenSymbol => getTokenBalance cfg pk conn tokenSymbol
  | refreshAll pk conn => getAllTokenBalances cfg pk conn
  end.

(** Refresh operations run one after the other. *)
Definition run_refreshes (cfg : TokenConfig) (o : Oracle) (rs : list Refresh)
    (w : World) : World :=
  foldl (fun w r => snd (run o (refresh_prog cfg r) w)) w rs.

(** What [getAllTokenBalances] checks before it reads the token account. *)
Definition passes_validation (accountInfo : option AccountInfo) : bool :=
  match accountInfo with
  | Some info =>
      (0 <? Z.of_nat (length (data info)))%Z && String.eqb (owner info) TOKEN_PROGRAM_ID
  | None => false
  end.

(** The HTTP request or the parsing of its body fails. *)
Definition transport_fails (o : Oracle) (w : World) : Prop :=
  (exists e, o (history w) (fetch "/api/market/prices") = Rejected e) \/
  (exists response e,
      o (history w) (fetch "/api/market/prices") = Resolved response /\
      o (fetch "/api/market/prices" :: history w) (json response) = Rejected e).

(** Two worlds that show the same to an observer of the store, of the
    price map and of [window]; timers, the listener and [lastUpdated]
    may differ. *)
Definition same_published (w1 w2 : World) : Prop :=
  store w1 = store w2 /\ priceData w1 = priceData w2 /\
  window_defined w1 = window_defined w2 /\ dispatched w1 = dispatched w2 /\
  history w1 = history w2.

(** ** Concrete inputs *)

Definition cfg0 : TokenConfig :=
  {| mint := "APkM2bqzpwQaiv5BY2eA7vR7DEB1EX5MMf6JNcBCHYrC"; decimals := 6 |}.

Definition conn0 : Connection :=
  {| rpcEndpoint := "https://api.devnet.solana.com" |}.

Definition wallet1 : PublicKey := "7xKXtg2CW87d97TXJSDpbD5jBkheTqA83TZRuJosgAsU".

Definition ata1 : PublicKey := "4Nd1mBQtrMJVYVfKf2PJy9NZUZdTAsp7D4xWLs4gDB4T".

Definition token_account_info : AccountInfo :=
  {| data := [Byte.x01; Byte.x00]; owner := TOKEN_PROGRAM_ID |}.

Definition prices_body : PriceApiData :=
  {| success := true;
     resp_data := Some {| prices := Some [ {| symbol := "SOL"; price := 150 |};
                                           {| symbol := "GOLD"; price := 2 |} ] |} |}.

(** A ledger on which every read succeeds: 2.5 SOL and 7 GOLD. *)
Definition o_ok : Oracle := fun h c =>
  match c as c0 return Result (Payload c0) with
  | getBalance _ _ => Resolved 2500000000%Z
  | getAssociatedTokenAddress _ _ => Resolved ata1
  | getAccountInfo _ _ => Resolved (Some token_account_info)
  | getAccount _ _ => Resolved {| amount := 7000000 |}
  | timeout _ => Resolved tt
  | fetch _ => Resolved {| body := "" |}
  | json _ => Resolved prices_body
  end.

(** The same ledger, with [getBalance] rejected every time. *)
Definition o_sol_down : Oracle := fun h c =>
  match c as c0 return Result (Payload c0) with
  | getBalance _ _ => Rejected "failed to get balance of account"
  | c0 => o_ok h c0
  end.

(** [getBalance] is rejected twice and then succeeds; the token account's
    address cannot be derived at all. *)
Definition o_sol_flaky_gold_down : Oracle := fun h c =>
  match c as c0 return Result (Payload c0) with
  | getBalance _ _ =>
      if (length (List.filter is_getBalance h) <? 2)%nat
      then Rejected "429 Too Many Requests"
      else Resolved 2500000000%Z
  | getAssociatedTokenAddress _ _ => Rejected "TokenOwnerOffCurveError"
  | c0 => o_ok h c0
  end.

(** The account at the token address has no data and belongs to the
    system program; a read of it as a token account that comes later
    finds 5 GOLD. *)
Definition system_account_info : AccountInfo :=
  {| data := []; owner := "11111111111111111111111111111111" |}.

Definition o_unvalidated : Oracle := fun h c =>
  match c as c0 return Result (Payload c0) with
  | getAccountInfo _ _ => Resolved (Some system_account_info)
  | getAccount _ _ => Resolved {| amount := 5000000 |}
  | c0 => o_ok h c0
  end.



(** The price request fails. *)
Definition o_price_down : Oracle := fun h c =>
  match c as c0 return Result (Payload c0) with
  | fetch _ => Rejected "TypeError: Failed to fetch"
  | c0 => o_ok h c0
  end.

(** The price request succeeds, but its body cannot be parsed. *)
Definition o_json_down : Oracle := fun h c =>
  match c as c0 return Result (Payload c0) with
  | json _ => Rejected "SyntaxError: Unexpected token < in JSON"
  | c0 => o_ok h c0
  end.

(** A store that holds 5 SOL and 1 GOLD from an earlier refresh. *)
Definition w_stale : World :=
  with_store {| balances := {| SOL := 5; GOLD := 1 |}; isLoading := false |}
             (initial_world true).

(** The same, with prices cached by an earlier response: SOL at 150 and
    GOLD at 2. *)
Definition w_priced : World :=
  with_priceData {[ "SOL" := 150%Q; "GOLD" := 2%Q ]} w_stale.

(** The component, mounted in a browser with the default props. *)
Definition s_mounted : Sys := mounted true (Some conn0) true 10000.

Definition s_connected : Sys :=
  step cfg0 o_ok (WalletChanged (Some wallet1)) s_mounted.

(** ** Further vocabulary *)

Definition is_getAccount (c : Call) : bool :=
  match c with getAccount _ _ => true | _ => false end.

Definition is_timeout (c : Call) : bool :=
  match c with timeout _ => true | _ => false end.

(** The stored balance of one symbol. *)
Definition balance_of (tokenSymbol : Sym.t) (b : TokenBalance) : Q :=
  match tokenSymbol with
  | Sym.SOL => SOL b
  | Sym.GOLD => GOLD b
  end.

Definition other_symbol (tokenSymbol : Sym.t) : Sym.t :=
  match tokenSymbol with
  | Sym.SOL => Sym.GOLD
  | Sym.GOLD => Sym.SOL
  end.

(** [(balances.SOL * priceData.SOL) + (balances.GOLD * priceData.GOLD)].
    A price the map lacks reads as [undefined] and makes the sum [NaN];
    [None] stands for [NaN].  The prices of a [PriceEntry] are finite
    numbers: with a price that is [Infinity] the product with a zero
    balance is [NaN] as well, which [Some] does not cover. *)
Definition getTotalPortfolioValue (balances : TokenBalance)
    (priceData : gmap string Q) : option Q :=
  match priceData !! "SOL", priceData !! "GOLD" with
  | Some priceSOL, Some priceGOLD =>
      Some (SOL balances * priceSOL + GOLD balances * priceGOLD)%Q
  | _, _ => None
  end.

(** The body of a successful price response that lists [l]. *)
Definition prices_response (l : list PriceEntry) : PriceApiData :=
  {| success := true; resp_data := Some {| prices := Some l |} |}.

(** The last entry of [l] for the symbol [k], if there is one. *)
Definition last_entry (k : string) (l : list PriceEntry) : option PriceEntry :=
  List.find (fun p => String.eqb (symbol p) k) (rev l).

(** The price service answers with a well-formed list of prices. *)
Definition prices_arrive (o : Oracle) (w : World) (l : list PriceEntry) : Prop :=
  exists response,
    o (history w) (fetch "/api/market/prices") = Resolved response /\
    o (fetch "/api/market/prices" :: history w) (json response)
    = Resolved (prices_response l).

(** A price service that knows SOL only, and lists it twice. *)
Definition o_price_sol_only : Oracle := fun h c =>
  match c as c0 return Result (Payload c0) with
  | json _ => Resolved (prices_response [ {| symbol := "SOL"; price := 150 |};
                                           {| symbol := "SOL"; price := 151 |} ])
  | c0 => o_ok h c0
  end.

Definition is_fetch (c : Call) : bool :=
  match c with fetch _ => true | _ => false end.

(** Every synchronous effect the program can come to perform, whatever it
    is told at its awaits, satisfies [P]. *)
Fixpoint effects_in {A : Type} (P : Action -> Prop) (p : Prog A) : Prop :=
  match p with
  | Ret _ => True
  | Throw _ => True
  | Await c k => forall r, effects_in P (k r)
  | Do a k => P a /\ effects_in P k
  end.

Definition sets_no_timer (a : Action) : Prop :=
  match a with setTimer _ => False | _ => True end.

Definition sets_secondary_only (a : Action) : Prop :=
  match a with
  | setTimer t => timer_kind t = SecondaryTimeout
  | _ => True
  end.

(** The timers the two effects create for the current wallet, connection
    and props, in the order of their creation. *)
Definition effect_timers (s : Sys) : list Timer :=
  match autoRefresh s, useWallet_publicKey s with
  | true, Some pk =>
      [ {| timer_kind := RefreshInterval; timer_ms := refreshInterval s;
           timer_callback :=
             cb_refreshBalances (Some pk) (useConnection_connection s) |} ]
  | _, _ => []
  end ++
  match useWallet_publicKey s, useConnection_connection s with
  | Some pk, Some conn =>
      [ {| timer_kind := StartupTimeout; timer_ms := 3000;
           timer_callback := cb_getAllTokenBalances pk conn |};
        {| timer_kind := StartupTimeout; timer_ms := 10000;
           timer_callback := cb_getAllTokenBalances pk conn |} ]
  | _, _ => []
  end.

(** The pending timers that are kept under a handle: the startup timeouts
    and the refresh interval. *)
Definition handle_timers (s : Sys) : list Timer :=
  List.filter (fun t => negb (is_kept_on_cleanup t)) (timers (world s)).

(** A suspended task whose remaining program can set secondary timers
    only. *)
Definition task_ok (t : Task) : Prop :=
  forall r, effects_in sets_secondary_only (task_k t r).

(** What holds of the component after every event. *)
Definition component_inv (s : Sys) : Prop :=
  handle_timers s `sublist_of` effect_timers s /\
  (listening (world s) = true ->
   useWallet_publicKey s <> None /\ useConnection_connection s <> None) /\
  Forall task_ok (tasks s).

(** The two halves of [effect_timers], and what they depend on. *)
Definition interval_timers (s : Sys) : list Timer :=
  match autoRefresh s, useWallet_publicKey s with
  | true, Some pk =>
      [ {| timer_kind := RefreshInterval; timer_ms := refreshInterval s;
           timer_callback :=
             cb_refreshBalances (Some pk) (useConnection_connection s) |} ]
  | _, _ => []
  end.

Definition startup_timers (s : Sys) : list Timer :=
  match useWallet_publicKey s, useConnection_connection s with
  | Some pk, Some conn =>
      [ {| timer_kind := StartupTimeout; timer_ms := 3000;
           timer_callback := cb_getAllTokenBalances pk conn |};
        {| timer_kind := StartupTimeout; timer_ms := 10000;
           timer_callback := cb_getAllTokenBalances pk conn |} ]
  | _, _ => []
  end.

Definition same_props (s s' : Sys) : Prop :=
  useWallet_publicKey s' = useWallet_publicKey s /\
  useConnection_connection s' = useConnection_connection s /\
  autoRefresh s' = autoRefresh s /\
  refreshInterval s' = refreshInterval s.

(** ** The wallet context provider and the explorer link *)

(** [WalletError], of which [onError] reads [name] and [message]. *)
Module WalletError.
Record t : Type := { name : string; message : string }.
End WalletError.

(** The argument [onError] hands to [notify]. *)
Module Notification.
Record t : Type := { type : string; message : string }.
End Notification.

(** [onError] of the wallet context provider: the one [notify] call it
    makes, given by its argument.  A string is truthy when it is not
    empty. *)
Definition onError (error : WalletError.t) : Notification.t :=
  if String.eqb (WalletError.name error) "WalletNotReadyError" then
    {| Notification.type := "error";
       Notification.message :=
         "Wallet is not ready. Please make sure the wallet extension is installed and active." |}
  else if String.eqb (WalletError.name error) "WalletConnectionError" then
    {| Notification.type := "error";
       Notification.message := "Failed to connect to wallet. Please try again." |}
  else if String.eqb (WalletError.name error) "WalletNotFoundError" then
    {| Notification.type := "error";
       Notification.message :=
         "Wallet not found. Please install the wallet extension first." |}
  else if String.eqb (WalletError.name error) "WalletDisconnectedError" then
    {| Notification.type := "info";
       Notification.message := "Wallet disconnected successfully." |}
  else
    {| Notification.type := "error";
       Notification.message :=
         if String.eqb (WalletError.message error) ""
         then WalletError.name error
         else (WalletError.name error ++ ": " ++ WalletError.message error)%string |}.

(** [getSolscanAccountUrl]; [SOLSCAN_CONFIG.baseUrl] belongs to
    [config/tokens] and is a parameter. *)
Definition getSolscanAccountUrl (baseUrl : string) (publicKey : option PublicKey)
    (networkConfiguration : string) : string :=
  match publicKey with
  | None => "#"
  | Some pk =>
      let network :=
        if String.eqb networkConfiguration "mainnet-beta" then ""
        else ("?cluster=" ++ networkConfiguration)%string in
      (baseUrl ++ "/account/" ++ pk ++ network)%string
  end.

(** [getBalance] is rejected once; the first read of the token account's
    info is rejected as well. *)
Definition o_both_flaky : Oracle := fun h c =>
  match c as c0 return Result (Payload c0) with
  | getBalance _ _ =>
      if (length (List.filter is_getBalance h) <? 1)%nat
      then Rejected "429 Too Many Requests"
      else Resolved 2500000000%Z
  | getAccountInfo _ _ =>
      if (length (List.filter is_getAssociatedTokenAddress h) <=? 1)%nat
      then Rejected "503 Service Unavailable"
      else Resolved (Some token_account_info)
  | c0 => o_ok h c0
  end.

(** ** The loading flag along a task *)

Definition in_cycle_call (c : Call) : bool :=
  match c with
  | fetch _ | json _ => false
  | _ => true
  end.

(** What a task has done to the store since it was last resumed (or
    started): nothing, something that left [isLoading] false, or
    something else. *)
Inductive SegState : Type := Untouched | Cleared | Dirty.

(** A task may stop waiting for the ledger, or end, only with [isLoading]
    cleared, unless it was not inside a refresh and left the store alone. *)
Definition end_ok (start_in : bool) (st : SegState) : Prop :=
  st = Cleared \/ (st = Untouched /\ start_in = false).

Definition clears (f : State -> State) : Prop :=
  forall st, isLoading (f st) = false.

(** On every path of [p], every await outside a refresh and the end of
    the program are reached in a state that [end_ok] accepts or, for the
    end, that [post] accepts. *)
Fixpoint lp {A : Type} (p : Prog A) (start_in : bool) (st : SegState)
    (post : Outcome A -> bool -> SegState -> Prop) : Prop :=
  match p with
  | Ret a => post (Normal a) start_in st
  | Throw e => post (Thrown e) start_in st
  | Await c k =>
      (in_cycle_call c = true \/ end_ok start_in st) /\
      forall r, lp (k r) (in_cycle_call c) Untouched post
  | Do a k =>
      match a with
      | set f => (clears f /\ lp k start_in Cleared post) \/ lp k start_in Dirty post
      | _ => lp k start_in st post
      end
  end.

(** A program that only waits for the ledger or the back-off and performs
    no synchronous effect. *)
Fixpoint ledger_only {A : Type} (p : Prog A) : Prop :=
  match p with
  | Ret _ => True
  | Throw _ => True
  | Await c k => in_cycle_call c = true /\ forall r, ledger_only (k r)
  | Do _ _ => False
  end.

Definition end_post : Outcome unit -> bool -> SegState -> Prop :=
  fun _ start_in st => end_ok start_in st.

Definition task_lp (t : Task) : Prop :=
  forall r, lp (task_k t r) (in_refresh_cycle t) Untouched end_post.

Definition loading_inv (s : Sys) : Prop :=
  (isLoading (store (world s)) = true -> (0 < cycles_in_flight s)%nat) /\
  Forall task_lp (tasks s).

Definition under_handle (t : Timer) : bool := negb (is_kept_on_cleanup t).

(** What the store looks like, relative to the start of the segment. *)
Definition seg_rel (st : SegState) (w0 w : World) : Prop :=
  match st with
  | Untouched => store w = store w0
  | Cleared => isLoading (store w) = false
  | Dirty => True
  end.

Definition flag_ok (si : bool) (w0 w : World) : Prop :=
  isLoading (store w) = false \/ (si = false /\ store w = store w0).

Definition cyc_count (l : list Task) : nat :=
  length (List.filter in_refresh_cycle l).

(** * Properties *)

(** ** The interpreter *)

Ltac unfold_bind := unfold mbind, Prog_bind in *.

Lemma run_bind {A B : Type} (o : Oracle) (p : Prog A) (f : A -> Prog B) :
  forall w,
    run o (bind p f) w =
    match run o p w with
    | (Normal a, w') => run o (f a) w'
    | (Thrown e, w') => (Thrown e, w')
    end.
Proof.
  induction p as [a | e | c k IH | a k IH]; intros w; simpl; auto.
Qed.

Lemma run_try_catch {A : Type} (o : Oracle) (p : Prog A) (h : Error -> Prog A) :
  forall w,
    run o (try_catch p h) w =
    match run o p w with
    | (Normal a, w') => (Normal a, w')
    | (Thrown e, w') => run o (h e) w'
    end.
Proof.
  induction p as [a | e | c k IH | a k IH]; intros w; simpl; auto.
Qed.

Lemma run_for_loop_S {S : Type} (o : Oracle) (n : nat) (i : Z)
    (body : Z -> S -> Prog (Ctl S)) (s : S) (w : World) :
  run o (for_loop (Datatypes.S n) i body s) w =
  match run o (body i s) w with
  | (Normal (Break s'), w') => (Normal s', w')
  | (Normal (Continue s'), w') => run o (for_loop n (i + 1) body s') w'
  | (Thrown e, w') => (Thrown e, w')
  end.
Proof.
  simpl. rewrite run_bind. destruct (run o (body i s) w) as [[[s' | s'] | e] w']; reflexivity.
Qed.

Lemma adds_calls_refl (allowed : Call -> bool) (w : World) : adds_calls allowed w w.
Proof. exists []. split; [destruct w |]; reflexivity. Qed.

Lemma adds_calls_trans (allowed : Call -> bool) (w1 w2 w3 : World) :
  adds_calls allowed w1 w2 -> adds_calls allowed w2 w3 -> adds_calls allowed w1 w3.
Proof.
  intros (l1 & -> & H1) (l2 & -> & H2). exists (l2 ++ l1). split.
  - simpl. rewrite <- app_assoc. reflexivity.
  - rewrite forallb_app, H1, H2. reflexivity.
Qed.

Lemma adds_calls_cons (allowed : Call -> bool) (c : Call) (w : World) :
  allowed c = true -> adds_calls allowed w (with_history (c :: history w) w).
Proof. intros H. exists [c]. split; [reflexivity | simpl; rewrite H; reflexivity]. Qed.

Lemma adds_calls_store (allowed : Call -> bool) (w w' : World) :
  adds_calls allowed w w' -> store w' = store w.
Proof. intros (l & -> & _). reflexivity. Qed.

Lemma adds_calls_dispatched (allowed : Call -> bool) (w w' : World) :
  adds_calls allowed w w' -> dispatched w' = dispatched w.
Proof. intros (l & -> & _). reflexivity. Qed.

Lemma adds_calls_window (allowed : Call -> bool) (w w' : World) :
  adds_calls allowed w w' -> window_defined w' = window_defined w.
Proof. intros (l & -> & _). reflexivity. Qed.

Lemma adds_calls_priceData (allowed : Call -> bool) (w w' : World) :
  adds_calls allowed w w' -> priceData w' = priceData w.
Proof. intros (l & -> & _). reflexivity. Qed.

(** Calls that [mark] does not select leave the count as it is. *)
Lemma adds_calls_started (allowed mark : Call -> bool) (w w' : World) :
  (forall c, allowed c = true -> mark c = false) ->
  adds_calls allowed w w' -> started mark w' = started mark w.
Proof.
  intros Hd (l & -> & Hl). unfold started. simpl.
  rewrite List.filter_app, length_app.
  replace (List.filter mark l) with (@nil Call); [reflexivity|].
  induction l as [| c l IH]; [reflexivity|].
  simpl in Hl. apply andb_prop in Hl as [Hc Hl].
  simpl. rewrite (Hd c Hc). apply IH, Hl.
Qed.

Lemma started_sleep (mark : Call -> bool) (ms : Z) (w : World) :
  mark (timeout ms) = false ->
  started mark (with_history (timeout ms :: history w) w) = started mark w.
Proof. unfold started. simpl. intros ->. reflexivity. Qed.

(** ** Retry loops

    The three loop bodies of the store have one shape: a [try] block, and a
    [catch] block that does something of its own when [i === 2] and
    otherwise waits a second and goes round again. *)

Section Retry.

Variable o : Oracle.
Variable attempt : Prog (Ctl Q).
Variable last : Error -> Prog (Ctl Q).
Variable mark : Call -> bool.
Variable allowed : Call -> bool.

Hypothesis mark_timeout : forall ms, mark (timeout ms) = false.
Hypothesis allowed_timeout : forall ms, allowed (timeout ms) = true.

Hypothesis attempt_frame : forall w r w',
  run o attempt w = (r, w') ->
  adds_calls allowed w w' /\ started mark w' = Datatypes.S (started mark w).

Lemma run_retry_body (i : Z) (s : Q) (w : World) :
  run o (retry_body attempt last i s) w =
  match run o attempt w with
  | (Normal c, w') => (Normal c, w')
  | (Thrown e, w') =>
      if (i =? 2)%Z then run o (last e) w'
      else (Normal (Continue s), with_history (timeout 1000 :: history w') w')
  end.
Proof.
  unfold retry_body. rewrite run_try_catch.
  destruct (run o attempt w) as [[c | e] w']; [reflexivity|].
  destruct (i =? 2)%Z; reflexivity.
Qed.

Lemma retry_fails_then_succeeds (v : Q) :
  forall (k n : nat) (w : World) (s : Q),
    (k < n)%nat -> (n <= 3)%nat ->
    (forall w1, (started mark w1 < started mark w + k)%nat ->
                exists e w2, run o attempt w1 = (Thrown e, w2)) ->
    (forall w1, started mark w1 = (started mark w + k)%nat ->
                exists w2, run o attempt w1 = (Normal (Break v), w2)) ->
    exists w',
      run o (for_loop n (3 - Z.of_nat n) (retry_body attempt last) s) w = (Normal v, w') /\
      adds_calls allowed w w' /\
      started mark w' = (started mark w + k + 1)%nat.
Proof.
  induction k as [| k IH]; intros n w s Hk Hn Hfail Hok.
  - destruct n as [| n]; [lia|].
    destruct (Hok w) as [w2 E]; [lia|].
    exists w2. rewrite run_for_loop_S, run_retry_body, E.
    destruct (attempt_frame _ _ _ E) as [Hc Hs].
    repeat split; [assumption | lia].
  - destruct n as [| n]; [lia|].
    destruct (Hfail w) as (e & w2 & E); [lia|].
    destruct (attempt_frame _ _ _ E) as [Hc Hs].
    rewrite run_for_loop_S, run_retry_body, E.
    replace (3 - Z.of_nat (Datatypes.S n) =? 2)%Z with false
      by (symmetry; apply Z.eqb_neq; lia).
    set (w3 := with_history (timeout 1000 :: history w2) w2).
    assert (Hs3 : started mark w3 = Datatypes.S (started mark w)).
    { unfold w3. rewrite started_sleep by apply mark_timeout. exact Hs. }
    destruct (IH n w3 s) as (w' & E' & Hc' & Hs'); [lia | lia | | |].
    + intros w1 H1. apply Hfail. lia.
    + intros w1 H1. apply Hok. lia.
    + exists w'.
      replace (3 - Z.of_nat (Datatypes.S n) + 1)%Z with (3 - Z.of_nat n)%Z by lia.
      repeat split; [exact E' | | lia].
      eapply adds_calls_trans; [exact Hc|].
      eapply adds_calls_trans; [apply adds_calls_cons, allowed_timeout | exact Hc'].
Qed.

(** When every attempt fails, three attempts are made and the loop ends
    with what the [catch] block does for [i === 2]. *)
Lemma retry_always_fails (s : Q) (w : World) :
  (forall w1, exists e w2, run o attempt w1 = (Thrown e, w2)) ->
  exists e w',
    adds_calls allowed w w' /\
    started mark w' = (started mark w + 3)%nat /\
    run o (for_loop 3 0 (retry_body attempt last) s) w =
    match run o (last e) w' with
    | (Normal (Break s'), w'') => (Normal s', w'')
    | (Normal (Continue s'), w'') => (Normal s', w'')
    | (Thrown e', w'') => (Thrown e', w'')
    end.
Proof.
  intros Hfail.
  destruct (Hfail w) as (e1 & w1 & E1).
  destruct (attempt_frame _ _ _ E1) as [Hc1 Hs1].
  set (w1' := with_history (timeout 1000 :: history w1) w1).
  destruct (Hfail w1') as (e2 & w2 & E2).
  destruct (attempt_frame _ _ _ E2) as [Hc2 Hs2].
  set (w2' := with_history (timeout 1000 :: history w2) w2).
  destruct (Hfail w2') as (e3 & w3 & E3).
  destruct (attempt_frame _ _ _ E3) as [Hc3 Hs3].
  exists e3, w3. split; [| split].
  - eapply adds_calls_trans; [exact Hc1|].
    eapply adds_calls_trans; [apply adds_calls_cons, allowed_timeout|].
    eapply adds_calls_trans; [exact Hc2|].
    eapply adds_calls_trans; [apply adds_calls_cons, allowed_timeout | exact Hc3].
  - rewrite Hs3. unfold w2'. rewrite started_sleep by apply mark_timeout.
    rewrite Hs2. unfold w1'. rewrite started_sleep by apply mark_timeout. lia.
  - rewrite run_for_loop_S, run_retry_body, E1. simpl (0 =? 2)%Z. cbv iota.
    fold w1'. rewrite run_for_loop_S, run_retry_body, E2. simpl (0 + 1 =? 2)%Z. cbv iota.
    fold w2'. rewrite run_for_loop_S, run_retry_body, E3. simpl (0 + 1 + 1 =? 2)%Z. cbv iota.
    destruct (run o (last e3) w3) as [[[s' | s'] | e'] w'']; reflexivity.
Qed.

(** Whatever the replies, a loop result satisfies what every successful
    attempt, the initial value and the [i === 2] branch satisfy. *)
Lemma retry_invariant (P : Q -> Prop) :
  (forall w c w', run o attempt w = (Normal c, w') ->
                  exists v, c = Break v /\ P v) ->
  (forall e w c w', run o (last e) w = (Normal c, w') ->
                    exists v, c = Continue v /\ P v) ->
  (forall e w r w', run o (last e) w = (r, w') -> adds_calls allowed w w') ->
  forall (n : nat) (i : Z) (s : Q) (w : World) r w',
    P s ->
    run o (for_loop n i (retry_body attempt last) s) w = (r, w') ->
    adds_calls allowed w w' /\ match r with Normal v => P v | Thrown _ => True end.
Proof.
  intros Hatt Hlast Hlastc.
  induction n as [| n IH]; intros i s w r w' Hs E.
  - simpl in E. inversion E; subst. split; [apply adds_calls_refl | assumption].
  - rewrite run_for_loop_S, run_retry_body in E.
    destruct (run o attempt w) as [[c | e] w1] eqn:E1.
    + destruct (attempt_frame _ _ _ E1) as [Hc1 _].
      destruct (Hatt _ _ _ E1) as (v & -> & Hv).
      inversion E; subst. split; assumption.
    + destruct (attempt_frame _ _ _ E1) as [Hc1 _].
      destruct (i =? 2)%Z.
      * destruct (run o (last e) w1) as [[c | e'] w2] eqn:E2.
        -- pose proof (Hlastc _ _ _ _ E2) as Hc2.
           destruct (Hlast _ _ _ _ E2) as (v & -> & Hv).
           destruct (IH _ _ _ _ _ Hv E) as [Hc3 Hr].
           split; [| exact Hr].
           eapply adds_calls_trans; [exact Hc1|].
           eapply adds_calls_trans; [exact Hc2 | exact Hc3].
        -- pose proof (Hlastc _ _ _ _ E2) as Hc2.
           inversion E; subst. split; [| exact I].
           eapply adds_calls_trans; [exact Hc1 | exact Hc2].
      * destruct (IH _ _ _ _ _ Hs E) as [Hc3 Hr].
        split; [| exact Hr].
        eapply adds_calls_trans; [exact Hc1|].
        eapply adds_calls_trans; [apply adds_calls_cons, allowed_timeout | exact Hc3].
Qed.

End Retry.

(** ** The store's loops and functions *)

Section StoreFacts.

Variable TOKENS_GOLD : TokenConfig.
Variable o : Oracle.

Ltac frame_step :=
  match goal with
  | |- context [o ?h ?c] => destruct (o h c) as [? | ?]; simpl
  | |- context [match ?x with Some _ => _ | None => _ end] => destruct x; simpl
  | |- context [if ?b then _ else _] => destruct b; simpl
  end.

Ltac frame_done :=
  intros E; inversion E; subst; clear E; split;
  [ eexists (_ :: _); split;
    [ unfold with_history; simpl; f_equal;
      first [ instantiate (1 := []); reflexivity
            | instantiate (1 := [_]); reflexivity
            | instantiate (1 := [_; _]); reflexivity ]
    | reflexivity ]
  | reflexivity ].

Lemma sol_try_frame (connection : Connection) (publicKey : PublicKey) :
  forall w r w',
    run o (sol_try connection publicKey) w = (r, w') ->
    adds_calls sol_calls w w' /\
    started is_getBalance w' = Datatypes.S (started is_getBalance w).
Proof.
  intros w r w'. unfold sol_try. unfold_bind. simpl.
  repeat frame_step; frame_done.
Qed.

Lemma gold_try_one_frame (connection : Connection) (publicKey tokenMint : PublicKey) :
  forall w r w',
    run o (gold_try_one TOKENS_GOLD connection publicKey tokenMint) w = (r, w') ->
    adds_calls gold_calls w w' /\
    started is_getAssociatedTokenAddress w' =
    Datatypes.S (started is_getAssociatedTokenAddress w).
Proof.
  intros w r w'. unfold gold_try_one. unfold_bind. simpl.
  repeat frame_step; frame_done.
Qed.

Lemma gold_try_all_frame (connection : Connection) (publicKey tokenMint : PublicKey) :
  forall w r w',
    run o (gold_try_all TOKENS_GOLD connection publicKey tokenMint) w = (r, w') ->
    adds_calls gold_calls w w' /\
    started is_getAssociatedTokenAddress w' =
    Datatypes.S (started is_getAssociatedTokenAddress w).
Proof.
  intros w r w'. unfold gold_try_all. unfold_bind. simpl.
  repeat frame_step; frame_done.
Qed.

Lemma run_do_ (a : Action) (w : World) :
  run o (do_ a) w = (Normal tt, apply_action a w).
Proof. reflexivity. Qed.

Lemma run_getAllTokenBalances (pk : PublicKey) (conn : Connection) (w : World) :
  run o (getAllTokenBalances TOKENS_GOLD (Some pk) (Some conn)) w =
  match run o (for_loop 3 0 (sol_body conn pk) 0%Q)
            (with_store (set_isLoading true (store w)) w) with
  | (Thrown _, w1) => (Normal tt, with_store (set_isLoading false (store w1)) w1)
  | (Normal solAmount, w1) =>
      match run o (for_loop 3 0 (gold_body_all TOKENS_GOLD conn pk (mint TOKENS_GOLD)) 0%Q) w1 with
      | (Thrown _, w2) => (Normal tt, with_store (set_isLoading false (store w2)) w2)
      | (Normal goldAmount, w2) =>
          (Normal tt,
           apply_action
             (dispatch_balanceUpdated {| SOL := solAmount; GOLD := goldAmount |})
             (with_store {| balances := {| SOL := solAmount; GOLD := goldAmount |};
                            isLoading := false |} w2))
      end
  end.
Proof.
  unfold getAllTokenBalances. unfold_bind.
  rewrite run_bind, run_do_. rewrite run_try_catch, run_bind.
  destruct (run o (for_loop 3 0 (sol_body conn pk) 0%Q) _) as [[solAmount | e] w1];
    [| reflexivity].
  rewrite run_bind.
  destruct (run o (for_loop 3 0 (gold_body_all _ _ _ _) 0%Q) _) as [[goldAmount | e] w2];
    reflexivity.
Qed.

Lemma run_getTokenBalance (pk : PublicKey) (conn : Connection)
    (tokenSymbol : Sym.t) (w : World) :
  run o (getTokenBalance TOKENS_GOLD pk conn tokenSymbol) w =
  match run o (match tokenSymbol with
               | Sym.SOL => for_loop 3 0 (sol_body conn pk) 0%Q
               | Sym.GOLD =>
                   for_loop 3 0 (gold_body_one TOKENS_GOLD conn pk (mint TOKENS_GOLD)) 0%Q
               end)
            (with_store (set_isLoading true (store w)) w) with
  | (Thrown _, w1) => (Normal tt, with_store (set_isLoading false (store w1)) w1)
  | (Normal balance, w1) =>
      (Normal tt,
       with_store {| balances := with_balance (balances (store w1)) tokenSymbol balance;
                     isLoading := false |} w1)
  end.
Proof.
  unfold getTokenBalance. unfold_bind.
  rewrite run_bind, run_do_. rewrite run_try_catch, run_bind.
  simpl apply_action.
  destruct tokenSymbol;
    destruct (run o (for_loop 3 0 _ 0%Q) _) as [[balance | e] w1]; reflexivity.
Qed.

End StoreFacts.

Lemma loop_body_retry (cfg : TokenConfig) (conn : Connection) (pk : PublicKey)
    (l : RetryLoop) :
  loop_body cfg conn pk l =
  retry_body (loop_try cfg conn pk l)
             (match l with SOL_loop => Throw | _ => gold_last end).
Proof. destruct l; reflexivity. Qed.

Lemma loop_mark_timeout (l : RetryLoop) (ms : Z) : loop_mark l (timeout ms) = false.
Proof. destruct l; reflexivity. Qed.

Lemma loop_calls_timeout (l : RetryLoop) (ms : Z) : loop_calls l (timeout ms) = true.
Proof. destruct l; reflexivity. Qed.

Lemma loop_try_frame (cfg : TokenConfig) (o : Oracle) (conn : Connection)
    (pk : PublicKey) (l : RetryLoop) :
  forall w r w',
    run o (loop_try cfg conn pk l) w = (r, w') ->
    adds_calls (loop_calls l) w w' /\
    started (loop_mark l) w' = Datatypes.S (started (loop_mark l) w).
Proof.
  destruct l; simpl.
  - apply sol_try_frame.
  - apply gold_try_one_frame.
  - apply gold_try_all_frame.
Qed.

Lemma loop_first_success (cfg : TokenConfig) (o : Oracle)
    (conn : Connection) (pk : PublicKey) (l : RetryLoop)
    (w : World) (k : nat) (v s : Q) :
  (k < 3)%nat ->
  fails_k_then_yields o (loop_try cfg conn pk l) (loop_mark l) w k v ->
  exists w',
    run o (for_loop 3 0 (loop_body cfg conn pk l) s) w = (Normal v, w') /\
    adds_calls (loop_calls l) w w' /\
    started (loop_mark l) w' = (started (loop_mark l) w + k + 1)%nat.
Proof.
  intros Hk [Hfail Hok].
  rewrite loop_body_retry.
  change 0%Z with (3 - Z.of_nat 3)%Z.
  apply retry_fails_then_succeeds with (k := k); auto.
  - apply loop_mark_timeout.
  - apply loop_calls_timeout.
  - apply loop_try_frame.
Qed.

Lemma loop_exhausted (cfg : TokenConfig) (o : Oracle)
    (conn : Connection) (pk : PublicKey) (l : RetryLoop) (w : World) (s : Q) :
  always_fails o (loop_try cfg conn pk l) ->
  exists w',
    adds_calls (loop_calls l) w w' /\
    started (loop_mark l) w' = (started (loop_mark l) w + 3)%nat /\
    match l with
    | SOL_loop =>
        exists e, run o (for_loop 3 0 (loop_body cfg conn pk l) s) w = (Thrown e, w')
    | GOLD_loop_one | GOLD_loop_all =>
        run o (for_loop 3 0 (loop_body cfg conn pk l) s) w = (Normal 0%Q, w')
    end.
Proof.
  intros Hfail.
  destruct (retry_always_fails o (loop_try cfg conn pk l)
              (match l with SOL_loop => Throw | _ => gold_last end)
              (loop_mark l) (loop_calls l) (loop_mark_timeout l)
              (loop_calls_timeout l) (loop_try_frame cfg o conn pk l)
              s w Hfail) as (e & w' & Hc & Hs & E).
  exists w'. split; [exact Hc | split; [exact Hs |]].
  rewrite loop_body_retry.
  destruct l; simpl in E |- *; [exists e |..]; exact E.
Qed.

Lemma started_with_store (mark : Call -> bool) (st : State) (w : World) :
  started mark (with_store st w) = started mark w.
Proof. reflexivity. Qed.

(** ** Amounts *)

Lemma sol_units_nonneg (solBalance : Z) :
  (0 <= solBalance)%Z -> (0 <= sol_units solBalance)%Q.
Proof.
  intros H. unfold sol_units, Qdiv.
  apply Qmult_le_0_compat.
  - unfold Qle. simpl. lia.
  - apply Qinv_le_0_compat. unfold Qle, LAMPORTS_PER_SOL. simpl. lia.
Qed.

Lemma gold_units_nonneg (cfg : TokenConfig) (tokenAccountInfo : TokenAccount) :
  (0 <= amount tokenAccountInfo)%Z -> (0 <= gold_units cfg tokenAccountInfo)%Q.
Proof.
  intros H. unfold gold_units, Qdiv.
  apply Qmult_le_0_compat.
  - unfold Qle. simpl. lia.
  - apply Qinv_le_0_compat, Qpower_0_le. unfold Qle. simpl. lia.
Qed.

(** ** Dispatching the event *)

Lemma dispatch_store (d : TokenBalance) (w : World) :
  store (apply_action (dispatch_balanceUpdated d) w) = store w.
Proof. simpl. destruct (window_defined w), (listening w); reflexivity. Qed.

Lemma dispatch_history (d : TokenBalance) (w : World) :
  history (apply_action (dispatch_balanceUpdated d) w) = history w.
Proof. simpl. destruct (window_defined w), (listening w); reflexivity. Qed.

Lemma dispatch_dispatched (d : TokenBalance) (w : World) :
  dispatched (apply_action (dispatch_balanceUpdated d) w) =
  if window_defined w then d :: dispatched w else dispatched w.
Proof. simpl. destruct (window_defined w), (listening w); reflexivity. Qed.

Lemma sol_calls_not_gold_attempt (c : Call) :
  sol_calls c = true -> is_getAssociatedTokenAddress c = false.
Proof. destruct c; simpl; congruence. Qed.

Lemma gold_calls_not_sol_attempt (c : Call) :
  gold_calls c = true -> is_getBalance c = false.
Proof. destruct c; simpl; congruence. Qed.

Lemma loop_try_breaks (cfg : TokenConfig) (o : Oracle) (conn : Connection)
    (pk : PublicKey) (l : RetryLoop) :
  forall w c w',
    run o (loop_try cfg conn pk l) w = (Normal c, w') ->
    exists v, c = Break v /\ True.
Proof.
  intros w c w'.
  destruct l; simpl; unfold sol_try, gold_try_one, gold_try_all; unfold_bind; simpl;
    repeat match goal with
      | |- context [o ?h ?c] => destruct (o h c) as [? | ?]; simpl
      | |- context [match ?x with Some _ => _ | None => _ end] => destruct x; simpl
      | |- context [if ?b then _ else _] => destruct b; simpl
      end;
    intros H; inversion H; subst; clear H; eexists; split; reflexivity || exact I.
Qed.

(** Whatever the replies, a retry loop changes nothing but the call
    history, and adds only calls of its own kind. *)
Lemma loop_adds_calls (cfg : TokenConfig) (o : Oracle) (conn : Connection)
    (pk : PublicKey) (l : RetryLoop) :
  forall (n : nat) (i : Z) (s : Q) (w : World) r w',
    run o (for_loop n i (loop_body cfg conn pk l) s) w = (r, w') ->
    adds_calls (loop_calls l) w w'.
Proof.
  intros n i s w r w' E. rewrite loop_body_retry in E.
  refine (proj1 (retry_invariant o _ _ (loop_mark l) (loop_calls l)
                   (loop_calls_timeout l) (loop_try_frame cfg o conn pk l)
                   (fun _ => True) _ _ _ n i s w r w' I E)).
  - apply loop_try_breaks.
  - intros e w0 c w0' E0. destruct l; simpl in E0; inversion E0; subst;
      eexists; split; reflexivity || exact I.
  - intros e w0 r0 w0' E0. destruct l; simpl in E0; inversion E0; subst;
      apply adds_calls_refl.
Qed.

Lemma fails_k_then_yields_same_count (o : Oracle) (attempt : Prog (Ctl Q))
    (mark : Call -> bool) (w w1 : World) (k : nat) (v : Q) :
  started mark w1 = started mark w ->
  fails_k_then_yields o attempt mark w k v ->
  fails_k_then_yields o attempt mark w1 k v.
Proof. unfold fails_k_then_yields. intros ->. auto. Qed.

Lemma sol_calls_not_getAccount (c : Call) :
  sol_calls c = true -> is_getAccount c = false.
Proof. destruct c; simpl; congruence. Qed.

(** What one SOL attempt does, by the reply to [getBalance]. *)
Lemma run_sol_try (o : Oracle) (conn : Connection) (pk : PublicKey) (w : World) :
  run o (sol_try conn pk) w =
  match o (history w) (getBalance conn pk) with
  | Resolved solBalance =>
      (Normal (Break (sol_units solBalance)),
       with_history (getBalance conn pk :: history w) w)
  | Rejected e => (Thrown e, with_history (getBalance conn pk :: history w) w)
  end.
Proof.
  unfold sol_try. unfold_bind. simpl.
  destruct (o (history w) (getBalance conn pk)); reflexivity.
Qed.

Lemma always_fails_sol_rejected (o : Oracle) (conn : Connection) (pk : PublicKey) :
  always_fails o (sol_try conn pk) ->
  forall w, exists e,
    run o (sol_try conn pk) w =
    (Thrown e, with_history ([getBalance conn pk] ++ history w) w) /\
    o (history w) (getBalance conn pk) = Rejected e.
Proof.
  intros H w. destruct (H w) as (e & w' & E).
  rewrite run_sol_try in E |- *.
  destruct (o (history w) (getBalance conn pk)) as [v | e'];
    [discriminate | exists e'; split; reflexivity].
Qed.

(** When every attempt fails after the same calls, the loop's history is
    known call by call, and the loop ends with what the [catch] block does
    for [i === 2] with the error of the third attempt. *)
Lemma retry_exhausted_explicit (o : Oracle) (attempt : Prog (Ctl Q))
    (last : Error -> Prog (Ctl Q)) (R : list Call -> Error -> Prop)
    (calls : list Call) (s : Q) (w : World) :
  (forall w1, exists e,
      run o attempt w1 = (Thrown e, with_history (calls ++ history w1) w1) /\
      R (history w1) e) ->
  exists e,
    R (timeout 1000 :: calls ++ timeout 1000 :: calls ++ history w) e /\
    run o (for_loop 3 0 (retry_body attempt last) s) w =
    match run o (last e)
            (with_history (calls ++ timeout 1000 :: calls ++ timeout 1000
                                 :: calls ++ history w) w) with
    | (Normal (Break s'), w'') => (Normal s', w'')
    | (Normal (Continue s'), w'') => (Normal s', w'')
    | (Thrown e', w'') => (Thrown e', w'')
    end.
Proof.
  intros H.
  destruct (H w) as (e1 & E1 & _).
  set (w1 := with_history (timeout 1000 :: calls ++ history w) w).
  destruct (H w1) as (e2 & E2 & _).
  set (w2 := with_history (timeout 1000 :: calls ++ timeout 1000 :: calls ++ history w) w).
  destruct (H w2) as (e3 & E3 & R3).
  exists e3. split; [exact R3 |].
  rewrite run_for_loop_S, run_retry_body, E1. simpl (0 =? 2)%Z. cbv iota.
  change (with_history (timeout 1000 :: history (with_history (calls ++ history w) w))
            (with_history (calls ++ history w) w)) with w1.
  rewrite run_for_loop_S, run_retry_body, E2. simpl (0 + 1 =? 2)%Z. cbv iota.
  change (with_history (timeout 1000 :: history (with_history (calls ++ history w1) w1))
            (with_history (calls ++ history w1) w1)) with w2.
  rewrite run_for_loop_S, run_retry_body, E3. simpl (0 + 1 + 1 =? 2)%Z. cbv iota.
  change (with_history (calls ++ history w2) w2)
    with (with_history (calls ++ timeout 1000 :: calls ++ timeout 1000
                              :: calls ++ history w) w).
  destruct (run o (last e3) _) as [[[s' | s'] | e'] w'']; reflexivity.
Qed.

(** The exhausted SOL loop: three [getBalance] calls with a wait after the
    first and after the second, and the rejection of the third call is
    what the loop throws. *)
Lemma sol_loop_exhausted_explicit (o : Oracle) (conn : Connection) (pk : PublicKey)
    (s : Q) (w : World) :
  always_fails o (sol_try conn pk) ->
  exists e,
    o (timeout 1000 :: getBalance conn pk :: timeout 1000 :: getBalance conn pk
         :: history w) (getBalance conn pk) = Rejected e /\
    run o (for_loop 3 0 (sol_body conn pk) s) w =
    (Thrown e,
     with_history (getBalance conn pk :: timeout 1000 :: getBalance conn pk
                     :: timeout 1000 :: getBalance conn pk :: history w) w).
Proof.
  intros H.
  destruct (retry_exhausted_explicit o (sol_try conn pk) Throw
              (fun h e => o h (getBalance conn pk) = Rejected e)
              [getBalance conn pk] s w (always_fails_sol_rejected o conn pk H))
    as (e & He & E).
  exists e. split; [exact He |].
  change (sol_body conn pk) with (retry_body (sol_try conn pk) Throw).
  rewrite E. reflexivity.
Qed.

(** A loop whose [catch] block does not throw for [i === 2] yields a
    value, whatever the replies. *)
Lemma retry_yields (o : Oracle) (attempt : Prog (Ctl Q)) (last : Error -> Prog (Ctl Q)) :
  (forall e w, exists c, run o (last e) w = (Normal c, w)) ->
  forall (n : nat) (i : Z) (s : Q) (w : World),
    exists v w', run o (for_loop n i (retry_body attempt last) s) w = (Normal v, w').
Proof.
  intros Hlast. induction n as [| n IH]; intros i s w.
  - exists s, w. reflexivity.
  - rewrite run_for_loop_S, run_retry_body.
    destruct (run o attempt w) as [[[s' | s'] | e] w1].
    + apply IH.
    + exists s', w1. reflexivity.
    + destruct (i =? 2)%Z; [| apply IH].
      destruct (Hlast e w1) as [[s' | s'] E]; rewrite E;
        [apply IH | exists s', w1; reflexivity].
Qed.

Lemma gold_loop_yields (cfg : TokenConfig) (o : Oracle) (conn : Connection)
    (pk : PublicKey) (l : RetryLoop) (s : Q) (w : World) :
  l <> SOL_loop ->
  exists v w', run o (for_loop 3 0 (loop_body cfg conn pk l) s) w = (Normal v, w').
Proof.
  intros Hl. rewrite loop_body_retry.
  destruct l; [contradiction | |]; apply retry_yields;
    intros e w0; eexists; reflexivity.
Qed.

(** ** Results on the retry loops inside the two store functions *)

(** C8. In each retry loop of the store, as it runs inside its function:
    if the fetch fails exactly [k] times ([k] < 3) and then succeeds with
    [v], the function stores [v] for the asset and exactly [k + 1]
    attempts were begun, so none after the success.  This holds for
    either symbol in [getTokenBalance], for the SOL loop of
    [getAllTokenBalances] whatever the GOLD loop then does, and for the
    GOLD loop of [getAllTokenBalances] once the SOL loop has yielded. *)
Theorem first_success_is_stored (cfg : TokenConfig) (o : Oracle)
    (pk : PublicKey) (conn : Connection) (w : World) (k : nat) (v : Q) :
  (k < 3)%nat ->
  (forall tokenSymbol : Sym.t,
      fails_k_then_yields o (loop_try cfg conn pk (loop_of_symbol tokenSymbol))
        (loop_mark (loop_of_symbol tokenSymbol)) w k v ->
      exists w',
        run o (getTokenBalance cfg pk conn tokenSymbol) w = (Normal tt, w') /\
        store w' = {| balances := with_balance (balances (store w)) tokenSymbol v;
                      isLoading := false |} /\
        started (loop_mark (loop_of_symbol tokenSymbol)) w' =
          (started (loop_mark (loop_of_symbol tokenSymbol)) w + k + 1)%nat) /\
  (fails_k_then_yields o (sol_try conn pk) is_getBalance w k v ->
   exists w' g,
     run o (getAllTokenBalances cfg (Some pk) (Some conn)) w = (Normal tt, w') /\
     store w' = {| balances := {| SOL := v; GOLD := g |}; isLoading := false |} /\
     started is_getBalance w' = (started is_getBalance w + k + 1)%nat) /\
  (forall (k1 : nat) (solAmount : Q),
      (k1 < 3)%nat ->
      fails_k_then_yields o (sol_try conn pk) is_getBalance w k1 solAmount ->
      fails_k_then_yields o (gold_try_all cfg conn pk (mint cfg))
        is_getAssociatedTokenAddress w k v ->
      exists w',
        run o (getAllTokenBalances cfg (Some pk) (Some conn)) w = (Normal tt, w') /\
        store w' = {| balances := {| SOL := solAmount; GOLD := v |};
                      isLoading := false |} /\
        started is_getAssociatedTokenAddress w' =
          (started is_getAssociatedTokenAddress w + k + 1)%nat).
Proof.
  intros Hk. set (w0 := with_store (set_isLoading true (store w)) w).
  split; [| split].
  - intros tokenSymbol Hop. rewrite run_getTokenBalance. fold w0.
    destruct (loop_first_success cfg o conn pk (loop_of_symbol tokenSymbol) w0 k v 0%Q
                Hk Hop) as (w1 & E & Hc & Hs).
    destruct tokenSymbol; simpl in E, Hs, Hc |- *; rewrite E;
      eexists; (split; [reflexivity |]); simpl;
      rewrite (adds_calls_store _ _ _ Hc); split; (reflexivity || exact Hs).
  - intros Hsol. rewrite run_getAllTokenBalances. fold w0.
    destruct (loop_first_success cfg o conn pk SOL_loop w0 k v 0%Q Hk Hsol)
      as (w1 & E1 & Hc1 & Hs1).
    simpl loop_body in E1. rewrite E1.
    destruct (gold_loop_yields cfg o conn pk GOLD_loop_all 0%Q w1) as (g & w2 & E2);
      [discriminate |].
    pose proof (adds_calls_started _ _ _ _ gold_calls_not_sol_attempt
                  (loop_adds_calls cfg o conn pk GOLD_loop_all _ _ _ _ _ _ E2)) as Hg.
    simpl loop_body in E2. rewrite E2.
    eexists. exists g. split; [reflexivity |].
    split; [apply dispatch_store |].
    simpl loop_mark in *. unfold started in *. rewrite dispatch_history. simpl.
    change (history w0) with (history w) in Hs1. lia.
  - intros k1 solAmount Hk1 Hsol Hgold. rewrite run_getAllTokenBalances. fold w0.
    destruct (loop_first_success cfg o conn pk SOL_loop w0 k1 solAmount 0%Q Hk1 Hsol)
      as (w1 & E1 & Hc1 & Hs1).
    simpl loop_body in E1. rewrite E1.
    pose proof (adds_calls_started _ _ _ _ sol_calls_not_gold_attempt Hc1) as Hs.
    assert (Hgold1 : fails_k_then_yields o (loop_try cfg conn pk GOLD_loop_all)
                       (loop_mark GOLD_loop_all) w1 k v).
    { apply fails_k_then_yields_same_count with (w := w); [exact Hs | exact Hgold]. }
    destruct (loop_first_success cfg o conn pk GOLD_loop_all w1 k v 0%Q Hk Hgold1)
      as (w2 & E2 & Hc2 & Hs2).
    simpl loop_body in E2. rewrite E2.
    eexists. split; [reflexivity |].
    split; [apply dispatch_store |].
    simpl loop_mark in *. unfold started in *. rewrite dispatch_history. simpl.
    change (history w0) with (history w) in Hs. lia.
Qed.

(** C5, as the code has it. In each retry loop of the store, as it runs
    inside its function, if every attempt fails exactly three attempts are
    made.  The SOL loop then yields no value: it throws the error of the
    third [getBalance] call, and the handler of the enclosing function
    ([getTokenBalance] or [getAllTokenBalances]) does nothing but clear
    [isLoading], so that the function ends with the balances it found,
    nothing dispatched, and a history of three [getBalance] calls and two
    waits.  A GOLD loop yields 0, which the function stores. *)
Theorem exhausted_fetch_three_attempts (cfg : TokenConfig) (o : Oracle)
    (pk : PublicKey) (conn : Connection) (w : World) :
  (always_fails o (sol_try conn pk) ->
   let h3 := timeout 1000 :: getBalance conn pk :: timeout 1000
               :: getBalance conn pk :: history w in
   let w3 := with_history (getBalance conn pk :: h3) w in
   exists e,
     o h3 (getBalance conn pk) = Rejected e /\
     run o (for_loop 3 0 (sol_body conn pk) 0%Q)
         (with_store (set_isLoading true (store w)) w)
     = (Thrown e, with_store (set_isLoading true (store w)) w3) /\
     run o (getTokenBalance cfg pk conn Sym.SOL) w
     = (Normal tt, with_store (set_isLoading false (store w)) w3) /\
     run o (getAllTokenBalances cfg (Some pk) (Some conn)) w
     = (Normal tt, with_store (set_isLoading false (store w)) w3)) /\
  (always_fails o (gold_try_one cfg conn pk (mint cfg)) ->
   exists w',
     run o (getTokenBalance cfg pk conn Sym.GOLD) w = (Normal tt, w') /\
     store w' = {| balances := {| SOL := SOL (balances (store w)); GOLD := 0 |};
                   isLoading := false |} /\
     started is_getAssociatedTokenAddress w' =
       (started is_getAssociatedTokenAddress w + 3)%nat) /\
  (forall (k : nat) (solAmount : Q),
      (k < 3)%nat ->
      fails_k_then_yields o (sol_try conn pk) is_getBalance w k solAmount ->
      always_fails o (gold_try_all cfg conn pk (mint cfg)) ->
      exists w',
        run o (getAllTokenBalances cfg (Some pk) (Some conn)) w = (Normal tt, w') /\
        store w' = {| balances := {| SOL := solAmount; GOLD := 0 |};
                      isLoading := false |} /\
        started is_getAssociatedTokenAddress w' =
          (started is_getAssociatedTokenAddress w + 3)%nat).
Proof.
  set (w0 := with_store (set_isLoading true (store w)) w).
  split; [| split].
  - intros Hsol h3 w3.
    destruct (sol_loop_exhausted_explicit o conn pk 0%Q w0 Hsol) as (e & He & E).
    exists e. split; [exact He |]. split; [exact E |].
    split.
    + rewrite run_getTokenBalance. fold w0. rewrite E. reflexivity.
    + rewrite run_getAllTokenBalances. fold w0. rewrite E. reflexivity.
  - intros Hgold. rewrite run_getTokenBalance. fold w0.
    destruct (loop_exhausted cfg o conn pk GOLD_loop_one w0 0%Q Hgold)
      as (w1 & Hc1 & Hs1 & E1).
    simpl loop_body in E1. rewrite E1.
    eexists. split; [reflexivity |]. simpl.
    rewrite (adds_calls_store _ _ _ Hc1). split; [reflexivity | exact Hs1].
  - intros k solAmount Hk Hsol Hgold. rewrite run_getAllTokenBalances. fold w0.
    destruct (loop_first_success cfg o conn pk SOL_loop w0 k solAmount 0%Q Hk Hsol)
      as (w1 & E1 & Hc1 & Hs1).
    simpl loop_body in E1. rewrite E1.
    destruct (loop_exhausted cfg o conn pk GOLD_loop_all w1 0%Q Hgold)
      as (w2 & Hc2 & Hs2 & E2).
    simpl loop_body in E2. rewrite E2.
    eexists. split; [reflexivity |].
    pose proof (adds_calls_started _ _ _ _ sol_calls_not_gold_attempt Hc1) as Hs.
    split; [apply dispatch_store |].
    simpl loop_mark in *. unfold started in *. rewrite dispatch_history. simpl.
    change (history w0) with (history w) in Hs. lia.
Qed.

(** ** Results on the two store functions *)

(** C1, as the code has it. In one call of [getAllTokenBalances]:
    if every GOLD attempt fails while the SOL fetch succeeds at its
    [k+1]-th attempt with [v], the snapshot stored and dispatched is
    [{SOL: v, GOLD: 0}], after [k+1] SOL attempts and three GOLD attempts;
    if every SOL attempt fails, no GOLD attempt is made, the balances stay
    as they were, [isLoading] is cleared and no event is dispatched. *)
Theorem getAllTokenBalances_one_asset_exhausted (cfg : TokenConfig) (o : Oracle)
    (pk : PublicKey) (conn : Connection) (w : World) :
  (forall (k : nat) (v : Q),
      (k < 3)%nat ->
      fails_k_then_yields o (sol_try conn pk) is_getBalance w k v ->
      always_fails o (gold_try_all cfg conn pk (mint cfg)) ->
      exists w',
        run o (getAllTokenBalances cfg (Some pk) (Some conn)) w = (Normal tt, w') /\
        store w' = {| balances := {| SOL := v; GOLD := 0 |}; isLoading := false |} /\
        started is_getBalance w' = (started is_getBalance w + k + 1)%nat /\
        started is_getAssociatedTokenAddress w' =
          (started is_getAssociatedTokenAddress w + 3)%nat /\
        dispatched w' =
          if window_defined w then {| SOL := v; GOLD := 0 |} :: dispatched w
          else dispatched w) /\
  (always_fails o (sol_try conn pk) ->
   exists w',
     run o (getAllTokenBalances cfg (Some pk) (Some conn)) w = (Normal tt, w') /\
     balances (store w') = balances (store w) /\
     isLoading (store w') = false /\
     started is_getBalance w' = (started is_getBalance w + 3)%nat /\
     started is_getAssociatedTokenAddress w' = started is_getAssociatedTokenAddress w /\
     dispatched w' = dispatched w).
Proof.
  split.
  - intros k v Hk Hsol Hgold.
    rewrite run_getAllTokenBalances.
    set (w0 := with_store (set_isLoading true (store w)) w).
    destruct (loop_first_success cfg o conn pk SOL_loop w0 k v 0%Q Hk Hsol)
      as (w1 & E1 & Hc1 & Hs1).
    simpl loop_body in E1. rewrite E1.
    destruct (loop_exhausted cfg o conn pk GOLD_loop_all w1 0%Q Hgold)
      as (w2 & Hc2 & Hs2 & E2).
    simpl loop_body in E2. rewrite E2.
    eexists. split; [reflexivity|].
    pose proof (adds_calls_started _ _ _ _ gold_calls_not_sol_attempt Hc2) as Hg.
    pose proof (adds_calls_started _ _ _ _ sol_calls_not_gold_attempt Hc1) as Hs.
    simpl loop_mark in *.
    split; [apply dispatch_store|].
    unfold started in *. rewrite dispatch_history, dispatch_dispatched. simpl.
    rewrite (adds_calls_window _ _ _ Hc2), (adds_calls_window _ _ _ Hc1).
    rewrite (adds_calls_dispatched _ _ _ Hc2), (adds_calls_dispatched _ _ _ Hc1).
    simpl. change (history w0) with (history w) in Hs1, Hs.
    repeat split; lia.
  - intros Hsol.
    rewrite run_getAllTokenBalances.
    set (w0 := with_store (set_isLoading true (store w)) w).
    destruct (loop_exhausted cfg o conn pk SOL_loop w0 0%Q Hsol)
      as (w1 & Hc1 & Hs1 & e & E1).
    simpl loop_body in E1. rewrite E1.
    eexists. split; [reflexivity|].
    pose proof (adds_calls_started _ _ _ _ sol_calls_not_gold_attempt Hc1) as Hs.
    simpl loop_mark in *. unfold started in *. simpl.
    rewrite (adds_calls_store _ _ _ Hc1), (adds_calls_dispatched _ _ _ Hc1).
    simpl. repeat split; assumption.
Qed.

(** C2, as the code has it. In [getTokenBalance], when all three attempts
    fail: for GOLD the stored GOLD balance is set to 0 (the SOL entry is
    kept); for SOL the stored balances are left as they were.  In both
    cases [isLoading] is cleared and nothing is thrown. *)
Theorem getTokenBalance_exhausted (cfg : TokenConfig) (o : Oracle)
    (pk : PublicKey) (conn : Connection) (tokenSymbol : Sym.t) (w : World) :
  always_fails o (loop_try cfg conn pk (loop_of_symbol tokenSymbol)) ->
  exists w',
    run o (getTokenBalance cfg pk conn tokenSymbol) w = (Normal tt, w') /\
    isLoading (store w') = false /\
    balances (store w') =
      match tokenSymbol with
      | Sym.GOLD => {| SOL := SOL (balances (store w)); GOLD := 0 |}
      | Sym.SOL => balances (store w)
      end /\
    started (loop_mark (loop_of_symbol tokenSymbol)) w' =
      (started (loop_mark (loop_of_symbol tokenSymbol)) w + 3)%nat.
Proof.
  intros Hfail.
  rewrite run_getTokenBalance.
  set (w0 := with_store (set_isLoading true (store w)) w).
  destruct (loop_exhausted cfg o conn pk (loop_of_symbol tokenSymbol) w0 0%Q Hfail)
    as (w1 & Hc1 & Hs1 & E1).
  destruct tokenSymbol; simpl in E1, Hs1, Hc1 |- *.
  - destruct E1 as [e E1]. rewrite E1.
    eexists. split; [reflexivity|]. simpl.
    rewrite (adds_calls_store _ _ _ Hc1). simpl. repeat split. exact Hs1.
  - rewrite E1.
    eexists. split; [reflexivity|]. simpl.
    rewrite (adds_calls_store _ _ _ Hc1). simpl. repeat split. exact Hs1.
Qed.

(** C10. Called without a [publicKey] or without a [connection],
    [getAllTokenBalances] ends without reaching an await: no call is made,
    the balances are as before, [isLoading] is false, no event is
    dispatched. *)
Theorem getAllTokenBalances_missing_argument (cfg : TokenConfig) (o : Oracle)
    (publicKey : option PublicKey) (connection : option Connection) (w : World) :
  publicKey = None \/ connection = None ->
  exists w',
    run o (getAllTokenBalances cfg publicKey connection) w = (Normal tt, w') /\
    advance (getAllTokenBalances cfg publicKey connection) w = (None, w') /\
    history w' = history w /\
    balances (store w') = balances (store w) /\
    isLoading (store w') = false /\
    dispatched w' = dispatched w.
Proof.
  intros H.
  exists (with_store (set_isLoading false (store w)) w).
  destruct publicKey as [pk |], connection as [conn |];
    try (destruct H; discriminate); repeat split.
Qed.

(** ** Non-negative balances *)

Lemma loop_try_nonneg (cfg : TokenConfig) (o : Oracle) (conn : Connection)
    (pk : PublicKey) (l : RetryLoop) :
  ledger_nonneg o ->
  forall w c w',
    run o (loop_try cfg conn pk l) w = (Normal c, w') ->
    exists v, c = Break v /\ (0 <= v)%Q.
Proof.
  intros [Hsol Hgold] w c w'.
  destruct l; simpl; unfold sol_try, gold_try_one, gold_try_all; unfold_bind; simpl;
    repeat match goal with
      | |- context [o ?h ?c] =>
          let E := fresh "E" in destruct (o h c) as [? | ?] eqn:E; simpl
      | |- context [match ?x with Some _ => _ | None => _ end] => destruct x; simpl
      | |- context [if ?b then _ else _] => destruct b; simpl
      end;
    intros H; inversion H; subst; clear H;
    eexists; (split; [reflexivity|]);
    first [ apply Qle_refl
          | apply sol_units_nonneg; eapply Hsol; eassumption
          | apply gold_units_nonneg; eapply Hgold; eassumption ].
Qed.

Lemma loop_nonneg (cfg : TokenConfig) (o : Oracle) (conn : Connection)
    (pk : PublicKey) (l : RetryLoop) :
  ledger_nonneg o ->
  forall (n : nat) (i : Z) (s : Q) (w : World) r w',
    (0 <= s)%Q ->
    run o (for_loop n i (loop_body cfg conn pk l) s) w = (r, w') ->
    adds_calls (loop_calls l) w w' /\
    match r with Normal v => (0 <= v)%Q | Thrown _ => True end.
Proof.
  intros Hledger. rewrite loop_body_retry.
  apply retry_invariant with (mark := loop_mark l).
  - apply loop_calls_timeout.
  - apply loop_try_frame.
  - apply loop_try_nonneg, Hledger.
  - intros e w c w' E. destruct l; simpl in E; inversion E; subst;
      eexists; (split; [reflexivity | apply Qle_refl]).
  - intros e w r w' E. destruct l; simpl in E; inversion E; subst;
      apply adds_calls_refl.
Qed.

Lemma refresh_nonneg (cfg : TokenConfig) (o : Oracle) (r : Refresh) (w : World) :
  ledger_nonneg o ->
  balances_nonneg (store w) ->
  balances_nonneg (store (snd (run o (refresh_prog cfg r) w))).
Proof.
  intros Hledger [HS HG].
  assert (H0 : (0 <= 0)%Q) by apply Qle_refl.
  destruct r as [pk conn tokenSymbol | [pk |] [conn |]]; unfold refresh_prog;
    try (split; assumption).
  - rewrite run_getTokenBalance.
    set (w0 := with_store (set_isLoading true (store w)) w).
    destruct tokenSymbol.
    + destruct (run o (for_loop 3 0 (sol_body conn pk) 0%Q) w0) as [[v | e] w1] eqn:E;
        destruct (loop_nonneg cfg o conn pk SOL_loop Hledger _ _ _ _ _ _ H0 E) as [Hc Hv];
        simpl; rewrite (adds_calls_store _ _ _ Hc); split; assumption.
    + destruct (run o (for_loop 3 0 (gold_body_one cfg conn pk (mint cfg)) 0%Q) w0)
        as [[v | e] w1] eqn:E;
        destruct (loop_nonneg cfg o conn pk GOLD_loop_one Hledger _ _ _ _ _ _ H0 E)
          as [Hc Hv];
        simpl; rewrite (adds_calls_store _ _ _ Hc); split; assumption.
  - rewrite run_getAllTokenBalances.
    set (w0 := with_store (set_isLoading true (store w)) w).
    destruct (run o (for_loop 3 0 (sol_body conn pk) 0%Q) w0) as [[v | e] w1] eqn:E;
      destruct (loop_nonneg cfg o conn pk SOL_loop Hledger _ _ _ _ _ _ H0 E) as [Hc Hv].
    + destruct (run o (for_loop 3 0 (gold_body_all cfg conn pk (mint cfg)) 0%Q) w1)
        as [[g | e] w2] eqn:E2;
        destruct (loop_nonneg cfg o conn pk GOLD_loop_all Hledger _ _ _ _ _ _ H0 E2)
          as [Hc2 Hg].
      * unfold snd. unfold balances_nonneg. rewrite dispatch_store. split; assumption.
      * simpl. rewrite (adds_calls_store _ _ _ Hc2), (adds_calls_store _ _ _ Hc).
        split; assumption.
    + simpl. rewrite (adds_calls_store _ _ _ Hc). split; assumption.
Qed.

(** C9. When the ledger reports non-negative raw amounts, every stored
    balance is non-negative after any sequence of [getTokenBalance] and
    [getAllTokenBalances] calls started from non-negative balances (the
    store's initial balances are 0). *)
Theorem balances_stay_nonneg (cfg : TokenConfig) (o : Oracle) (rs : list Refresh)
    (w : World) :
  ledger_nonneg o ->
  balances_nonneg (store w) ->
  balances_nonneg (store (run_refreshes cfg o rs w)).
Proof.
  intros Hledger. revert w.
  induction rs as [| r rs IH]; intros w Hw; simpl.
  - exact Hw.
  - apply IH. apply refresh_nonneg; assumption.
Qed.

(** ** The validation of the GOLD token account *)

(** In [getAllTokenBalances] an account that is absent, has no data or is
    not owned by the token program makes the attempt end with 0, without
    the account being read. *)
Lemma gold_try_all_validates (cfg : TokenConfig) (o : Oracle) (conn : Connection)
    (pk tokenAccount : PublicKey) (accountInfo : option AccountInfo) (w : World) :
  o (history w) (getAssociatedTokenAddress (mint cfg) pk) = Resolved tokenAccount ->
  o (getAssociatedTokenAddress (mint cfg) pk :: history w)
    (getAccountInfo conn tokenAccount) = Resolved accountInfo ->
  passes_validation accountInfo = false ->
  run o (gold_try_all cfg conn pk (mint cfg)) w =
  (Normal (Break 0%Q),
   with_history (getAccountInfo conn tokenAccount
                 :: getAssociatedTokenAddress (mint cfg) pk :: history w) w).
Proof.
  intros E1 E2 Hv. unfold gold_try_all. unfold_bind. simpl.
  rewrite E1. simpl. rewrite E2. simpl.
  destruct accountInfo as [info |]; simpl in Hv |- *; [| reflexivity].
  destruct (0 <? Z.of_nat (length (data info)))%Z; simpl in Hv |- *; [| reflexivity].
  rewrite Hv. reflexivity.
Qed.




(** ** The price cache *)

(** C6. When the request or the parsing fails, [fetchPriceData] ends
    normally and the price map is exactly the one held before; the store
    is untouched as well. *)
Theorem fetchPriceData_transport_failure (o : Oracle) (w : World) :
  transport_fails o w ->
  exists w',
    run o fetchPriceData w = (Normal tt, w') /\
    priceData w' = priceData w /\
    store w' = store w.
Proof.
  unfold fetchPriceData. unfold_bind. simpl.
  intros [[e E] | (response & e & E1 & E2)].
  - rewrite E. simpl. eexists. repeat split.
  - rewrite E1. simpl. rewrite E2. simpl. eexists. repeat split.
Qed.

(** ** The component's triggers *)

Lemma same_published_refl (w : World) : same_published w w.
Proof. repeat split. Qed.

Lemma apply_action_same (a : Action) (w1 w2 : World) :
  same_published w1 w2 -> same_published (apply_action a w1) (apply_action a w2).
Proof.
  intros (Hs & Hp & Hw & Hd & Hh).
  destruct a; simpl; try (repeat split; simpl; congruence).
  rewrite Hw. destruct (window_defined w2) eqn:E;
    [| repeat split; simpl; congruence].
  destruct (listening w1), (listening w2); repeat split; simpl; congruence.
Qed.

Lemma advance_same (p : Prog unit) :
  forall w1 w2,
    same_published w1 w2 ->
    fst (advance p w1) = fst (advance p w2) /\
    same_published (snd (advance p w1)) (snd (advance p w2)).
Proof.
  induction p as [a | e | c k IH | a k IH]; intros w1 w2 H; simpl;
    try (split; [reflexivity | assumption]).
  apply IH, apply_action_same, H.
Qed.

Lemma with_history_same (h : list Call) (w1 w2 : World) :
  same_published w1 w2 ->
  same_published (with_history h w1) (with_history h w2).
Proof. intros (Hs & Hp & Hw & Hd & Hh). repeat split; simpl; auto. Qed.

Section ComponentFacts.

Variable TOKENS_GOLD : TokenConfig.
Variable o : Oracle.

Lemma advance_getAllTokenBalances (pk : PublicKey) (conn : Connection) (w : World) :
  exists k,
    advance (getAllTokenBalances TOKENS_GOLD (Some pk) (Some conn)) w =
    (Some {| task_call := getBalance conn pk; task_k := k |},
     with_store (set_isLoading true (store w)) w).
Proof. eexists. reflexivity. Qed.

Lemma advance_callback (cb : Callback) (pk : PublicKey) (conn : Connection) (w : World) :
  cb = cb_getAllTokenBalances pk conn \/
  cb = cb_refreshBalances (Some pk) (Some conn) ->
  exists k,
    advance (callback_prog TOKENS_GOLD cb) w =
    (Some {| task_call := getBalance conn pk; task_k := k |},
     with_store (set_isLoading true (store w)) w).
Proof. intros [-> | ->]; eexists; reflexivity. Qed.

Lemma advance_handleRefresh (pk : PublicKey) (conn : Connection) (w : World) :
  exists k,
    advance (handleRefresh TOKENS_GOLD (Some pk) (Some conn)) w =
    (Some {| task_call := getBalance conn pk; task_k := k |},
     with_store (set_isLoading true (store w)) w).
Proof. eexists. reflexivity. Qed.

Lemma cycles_in_flight_snoc (s : Sys) (w : World) (t : Task) :
  in_refresh_cycle t = true ->
  cycles_in_flight (with_tasks (tasks s ++ [t]) (with_world w s)) =
  Datatypes.S (cycles_in_flight s).
Proof.
  intros H. unfold cycles_in_flight. simpl.
  rewrite List.filter_app, length_app. simpl. rewrite H. simpl. lia.
Qed.

Lemma step_resume_same (n : nat) (s1 s2 : Sys) :
  tasks s1 = tasks s2 ->
  same_published (world s1) (world s2) ->
  tasks (step TOKENS_GOLD o (Resume n) s1) = tasks (step TOKENS_GOLD o (Resume n) s2) /\
  same_published (world (step TOKENS_GOLD o (Resume n) s1))
                 (world (step TOKENS_GOLD o (Resume n) s2)).
Proof.
  intros Ht Hw. simpl. rewrite <- Ht.
  destruct (nth_error (tasks s1) n) as [t |]; [| split; assumption].
  assert (Hh : history (world s1) = history (world s2)) by apply Hw.
  rewrite <- Hh.
  set (p := task_k t (o (history (world s1)) (task_call t))).
  destruct (advance_same p
              (with_history (task_call t :: history (world s1)) (world s1))
              (with_history (task_call t :: history (world s1)) (world s2))
              (with_history_same _ _ _ Hw)) as [Hf Hs].
  destruct (advance p (with_history (task_call t :: history (world s1)) (world s1)))
    as [[t1 |] w1];
  destruct (advance p (with_history (task_call t :: history (world s1)) (world s2)))
    as [[t2 |] w2]; simpl in Hf, Hs; try discriminate.
  - inversion Hf; subst. simpl. split; [reflexivity | exact Hs].
  - simpl. split; [reflexivity | exact Hs].
Qed.

Lemma steps_resume_same (ns : list nat) :
  forall s1 s2,
    tasks s1 = tasks s2 ->
    same_published (world s1) (world s2) ->
    same_published (world (steps TOKENS_GOLD o (List.map Resume ns) s1))
                   (world (steps TOKENS_GOLD o (List.map Resume ns) s2)).
Proof.
  induction ns as [| n ns IH]; intros s1 s2 Ht Hw; [exact Hw|].
  destruct (step_resume_same n s1 s2 Ht Hw) as [Ht' Hw'].
  exact (IH _ _ Ht' Hw').
Qed.

End ComponentFacts.

(** C3, as the code has it. The refresh button is disabled while the
    store's [isLoading] flag is set, so a click then starts nothing.  No
    other trigger is held back: a timer that fires (startup, periodic or
    secondary) starts a new refresh cycle whatever is in flight, and so
    does a click once [isLoading] is false, even if cycles are still in
    flight; each adds one to the cycles in flight. *)
Theorem triggers_start_cycles_unconditionally (cfg : TokenConfig) (o : Oracle)
    (s : Sys) :
  (isLoading (store (world s)) = true -> step cfg o ClickRefresh s = s) /\
  (forall n t pk conn,
      nth_error (timers (world s)) n = Some t ->
      timer_callback t = cb_getAllTokenBalances pk conn \/
      timer_callback t = cb_refreshBalances (Some pk) (Some conn) ->
      cycles_in_flight (step cfg o (TimerFires n) s) =
      Datatypes.S (cycles_in_flight s)) /\
  (forall pk conn,
      useWallet_publicKey s = Some pk ->
      useConnection_connection s = Some conn ->
      isLoading (store (world s)) = false ->
      cycles_in_flight (step cfg o ClickRefresh s) =
      Datatypes.S (cycles_in_flight s)).
Proof.
  split; [| split].
  - intros H. simpl. rewrite H. destruct (useWallet_publicKey s); reflexivity.
  - intros n t pk conn Hn Hcb. unfold step. rewrite Hn.
    set (s' := match timer_kind t with
               | RefreshInterval => s
               | _ => with_world (with_timers (remove_nth n (timers (world s))) (world s)) s
               end).
    assert (Ht : tasks s' = tasks s) by (unfold s'; destruct (timer_kind t); reflexivity).
    destruct (advance_callback cfg (timer_callback t) pk conn (world s') Hcb) as [k E].
    unfold spawn. rewrite E.
    rewrite cycles_in_flight_snoc by reflexivity.
    unfold cycles_in_flight. rewrite Ht. reflexivity.
  - intros pk conn Hpk Hconn Hl. unfold step. rewrite Hpk, Hl, Hconn.
    destruct (advance_handleRefresh cfg pk conn (world s)) as [k E].
    unfold spawn. rewrite E.
    apply cycles_in_flight_snoc. reflexivity.
Qed.

Lemma spawn_keeps (p : Prog unit) (s : Sys) :
  useWallet_publicKey (spawn p s) = useWallet_publicKey s /\
  useConnection_connection (spawn p s) = useConnection_connection s /\
  exists spawned, tasks (spawn p s) = tasks s ++ spawned.
Proof.
  unfold spawn. destruct (advance p (world s)) as [[t |] w]; simpl.
  - repeat split. exists [t]. reflexivity.
  - repeat split. exists []. rewrite app_nil_r. reflexivity.
Qed.

Lemma initial_load_effect_keeps (cfg : TokenConfig) (s : Sys) :
  useWallet_publicKey (initial_load_effect cfg s) = useWallet_publicKey s /\
  exists spawned, tasks (initial_load_effect cfg s) = tasks s ++ spawned.
Proof.
  unfold initial_load_effect.
  destruct (useWallet_publicKey s) as [pk |] eqn:Hpk;
    [| split; [assumption | exists []; rewrite app_nil_r; reflexivity]].
  destruct (useConnection_connection s) as [conn |] eqn:Hconn;
    [| split; [assumption | exists []; rewrite app_nil_r; reflexivity]].
  set (s1 := spawn (getAllTokenBalances cfg (Some pk) (Some conn)) s).
  destruct (spawn_keeps (getAllTokenBalances cfg (Some pk) (Some conn)) s)
    as (Hw1 & _ & l1 & Ht1).
  destruct (spawn_keeps fetchPriceData s1) as (Hw2 & _ & l2 & Ht2).
  cbn [useWallet_publicKey tasks with_world add_timer]. split.
  - rewrite Hw2. fold s1 in Hw1. rewrite Hw1. exact Hpk.
  - exists (l1 ++ l2). rewrite Ht2. fold s1 in Ht1. rewrite Ht1.
    rewrite app_assoc. reflexivity.
Qed.

(** C7, as the code has it. When the wallet identity changes, the tasks in
    flight are kept.  When it detaches, the startup timeouts and the
    refresh interval are cleared and the component's listener is removed,
    while timers of manual refreshes stay pending; and whatever the tasks
    in flight go on to do, the store contents and the events dispatched on
    [window] are the same as if the wallet had stayed attached: nothing is
    discarded. *)
Theorem identity_change_does_not_discard (cfg : TokenConfig) (o : Oracle)
    (s : Sys) (new : option PublicKey) (ns : list nat) :
  new <> useWallet_publicKey s ->
  let s' := step cfg o (WalletChanged new) s in
  useWallet_publicKey s' = new /\
  (exists spawned, tasks s' = tasks s ++ spawned) /\
  (new = None ->
   tasks s' = tasks s /\
   timers (world s') = List.filter is_kept_on_cleanup (timers (world s)) /\
   listening (world s') = false /\
   store (world (steps cfg o (List.map Resume ns) s')) =
     store (world (steps cfg o (List.map Resume ns) s)) /\
   dispatched (world (steps cfg o (List.map Resume ns) s')) =
     dispatched (world (steps cfg o (List.map Resume ns) s))).
Proof.
  intros Hnew s'.
  assert (E : s' = initial_load_effect cfg
                     (auto_refresh_effect (with_publicKey new (cleanup s)))).
  { unfold s', step. destruct (decide (new = useWallet_publicKey s)) as [H | H];
      [contradiction | reflexivity]. }
  rewrite E. clear E s'.
  set (s0 := auto_refresh_effect (with_publicKey new (cleanup s))).
  assert (H0 : useWallet_publicKey s0 = new /\ tasks s0 = tasks s).
  { unfold s0, auto_refresh_effect. simpl.
    destruct (autoRefresh s); [destruct new |]; split; reflexivity. }
  destruct H0 as [Hw0 Ht0].
  destruct (initial_load_effect_keeps cfg s0) as (Hw & l & Ht).
  split; [rewrite Hw; exact Hw0 |].
  split; [exists l; rewrite Ht, Ht0; reflexivity |].
  intros ->.
  assert (E : initial_load_effect cfg s0 = with_publicKey None (cleanup s)).
  { unfold s0, initial_load_effect, auto_refresh_effect. simpl.
    destruct (autoRefresh s); reflexivity. }
  rewrite E. repeat split.
  - apply (steps_resume_same cfg o ns); [reflexivity | repeat split].
  - apply (steps_resume_same cfg o ns); [reflexivity | repeat split].
Qed.

(** ** Facts about the concrete ledgers *)

Lemma o_sol_down_always_fails :
  always_fails o_sol_down (sol_try conn0 wallet1).
Proof. intros w. eexists. eexists. reflexivity. Qed.

Lemma o_gold_down_always_fails :
  always_fails o_sol_flaky_gold_down (gold_try_all cfg0 conn0 wallet1 (mint cfg0)).
Proof. intros w. eexists. eexists. reflexivity. Qed.

Lemma o_gold_down_always_fails_one :
  always_fails o_sol_flaky_gold_down (gold_try_one cfg0 conn0 wallet1 (mint cfg0)).
Proof. intros w. eexists. eexists. reflexivity. Qed.

Lemma o_sol_flaky_fails_twice (w : World) :
  started is_getBalance w = 0%nat ->
  fails_k_then_yields o_sol_flaky_gold_down (sol_try conn0 wallet1)
    is_getBalance w 2 (sol_units 2500000000).
Proof.
  intros H0. unfold fails_k_then_yields. rewrite H0.
  split; intros w1 H; unfold started in H; unfold sol_try; unfold_bind; simpl;
    destruct (Nat.ltb_spec (length (List.filter is_getBalance (history w1))) 2);
    try lia; eexists; try eexists; reflexivity.
Qed.

Lemma o_both_flaky_sol (w : World) :
  started is_getBalance w = 0%nat ->
  fails_k_then_yields o_both_flaky (sol_try conn0 wallet1)
    is_getBalance w 1 (sol_units 2500000000).
Proof.
  intros H0. unfold fails_k_then_yields. rewrite H0.
  split; intros w1 H; unfold started in H; unfold sol_try; unfold_bind; simpl;
    destruct (Nat.ltb_spec (length (List.filter is_getBalance (history w1))) 1);
    try lia; eexists; try eexists; reflexivity.
Qed.

Lemma o_both_flaky_gold (w : World) :
  started is_getAssociatedTokenAddress w = 0%nat ->
  fails_k_then_yields o_both_flaky (gold_try_all cfg0 conn0 wallet1 (mint cfg0))
    is_getAssociatedTokenAddress w 1 (gold_units cfg0 {| amount := 7000000 |}).
Proof.
  intros H0. unfold fails_k_then_yields. rewrite H0.
  split; intros w1 H; unfold started in H; unfold gold_try_all; unfold_bind; simpl;
    destruct (length (List.filter is_getAssociatedTokenAddress (history w1)))
      as [| [| m]]; try lia; simpl; eexists; try eexists; reflexivity.
Qed.

Lemma o_both_flaky_gold_one (w : World) :
  started is_getAssociatedTokenAddress w = 0%nat ->
  fails_k_then_yields o_both_flaky (gold_try_one cfg0 conn0 wallet1 (mint cfg0))
    is_getAssociatedTokenAddress w 1 (gold_units cfg0 {| amount := 7000000 |}).
Proof.
  intros H0. unfold fails_k_then_yields. rewrite H0.
  split; intros w1 H; unfold started in H; unfold gold_try_one; unfold_bind; simpl;
    destruct (length (List.filter is_getAssociatedTokenAddress (history w1)))
      as [| [| m]]; try lia; simpl; eexists; try eexists; reflexivity.
Qed.

Lemma o_ok_ledger_nonneg : ledger_nonneg o_ok.
Proof.
  split; intros h conn x v H; simpl in H; inversion H; subst; simpl; lia.
Qed.

(** ** Instances and counterexamples *)

Lemma first_success_is_stored_witness :
  (1 < 3)%nat /\
  (exists w',
      run o_both_flaky (getTokenBalance cfg0 wallet1 conn0 Sym.GOLD) w_stale
      = (Normal tt, w') /\
      store w' = {| balances := {| SOL := 5;
                                   GOLD := gold_units cfg0 {| amount := 7000000 |} |};
                    isLoading := false |} /\
      started is_getAssociatedTokenAddress w' = 2%nat) /\
  (exists w' g,
      run o_sol_flaky_gold_down
          (getAllTokenBalances cfg0 (Some wallet1) (Some conn0)) w_stale
      = (Normal tt, w') /\
      store w' = {| balances := {| SOL := sol_units 2500000000; GOLD := g |};
                    isLoading := false |} /\
      started is_getBalance w' = 3%nat) /\
  (exists w',
      run o_both_flaky (getAllTokenBalances cfg0 (Some wallet1) (Some conn0)) w_stale
      = (Normal tt, w') /\
      store w' = {| balances := {| SOL := sol_units 2500000000;
                                   GOLD := gold_units cfg0 {| amount := 7000000 |} |};
                    isLoading := false |} /\
      started is_getAssociatedTokenAddress w' = 2%nat).
Proof.
  split; [lia |]. split; [| split].
  - apply (proj1 (first_success_is_stored cfg0 o_both_flaky wallet1 conn0 w_stale 1
                    (gold_units cfg0 {| amount := 7000000 |}) ltac:(lia)) Sym.GOLD).
    apply o_both_flaky_gold_one. reflexivity.
  - apply (proj1 (proj2 (first_success_is_stored cfg0 o_sol_flaky_gold_down wallet1
                           conn0 w_stale 2 (sol_units 2500000000) ltac:(lia)))).
    apply o_sol_flaky_fails_twice. reflexivity.
  - apply (proj2 (proj2 (first_success_is_stored cfg0 o_both_flaky wallet1 conn0
                           w_stale 1 (gold_units cfg0 {| amount := 7000000 |})
                           ltac:(lia))) 1%nat (sol_units 2500000000)).
    + lia.
    + apply o_both_flaky_sol. reflexivity.
    + apply o_both_flaky_gold. reflexivity.
Defined.

Lemma exhausted_fetch_three_attempts_witness :
  always_fails o_sol_down (sol_try conn0 wallet1) /\
  (exists e,
      o_sol_down [ timeout 1000; getBalance conn0 wallet1; timeout 1000;
                   getBalance conn0 wallet1 ] (getBalance conn0 wallet1)
      = Rejected e /\
      run o_sol_down (for_loop 3 0 (sol_body conn0 wallet1) 0%Q)
          (with_store (set_isLoading true (store w_stale)) w_stale)
      = (Thrown e,
         with_store (set_isLoading true (store w_stale))
           (with_history [ getBalance conn0 wallet1; timeout 1000;
                           getBalance conn0 wallet1; timeout 1000;
                           getBalance conn0 wallet1 ] w_stale)) /\
      run o_sol_down (getTokenBalance cfg0 wallet1 conn0 Sym.SOL) w_stale
      = (Normal tt,
         with_store (set_isLoading false (store w_stale))
           (with_history [ getBalance conn0 wallet1; timeout 1000;
                           getBalance conn0 wallet1; timeout 1000;
                           getBalance conn0 wallet1 ] w_stale)) /\
      run o_sol_down (getAllTokenBalances cfg0 (Some wallet1) (Some conn0)) w_stale
      = (Normal tt,
         with_store (set_isLoading false (store w_stale))
           (with_history [ getBalance conn0 wallet1; timeout 1000;
                           getBalance conn0 wallet1; timeout 1000;
                           getBalance conn0 wallet1 ] w_stale))) /\
  (exists w',
      run o_sol_flaky_gold_down (getTokenBalance cfg0 wallet1 conn0 Sym.GOLD) w_stale
      = (Normal tt, w') /\
      store w' = {| balances := {| SOL := 5; GOLD := 0 |}; isLoading := false |} /\
      started is_getAssociatedTokenAddress w' = 3%nat) /\
  (exists w',
      run o_sol_flaky_gold_down
          (getAllTokenBalances cfg0 (Some wallet1) (Some conn0)) w_stale
      = (Normal tt, w') /\
      store w' = {| balances := {| SOL := sol_units 2500000000; GOLD := 0 |};
                    isLoading := false |} /\
      started is_getAssociatedTokenAddress w' = 3%nat).
Proof.
  split; [exact o_sol_down_always_fails |]. split; [| split].
  - exact (proj1 (exhausted_fetch_three_attempts cfg0 o_sol_down wallet1 conn0 w_stale)
             o_sol_down_always_fails).
  - exact (proj1 (proj2 (exhausted_fetch_three_attempts cfg0 o_sol_flaky_gold_down
                           wallet1 conn0 w_stale))
             o_gold_down_always_fails_one).
  - apply (proj2 (proj2 (exhausted_fetch_three_attempts cfg0 o_sol_flaky_gold_down
                           wallet1 conn0 w_stale)) 2%nat (sol_units 2500000000)).
    + lia.
    + apply o_sol_flaky_fails_twice. reflexivity.
    + exact o_gold_down_always_fails.
Defined.

(** C5 fails for the SOL fetch: on a ledger whose [getBalance] is rejected
    every time, the loop ends by throwing and yields no value at all, and
    [getAllTokenBalances], which found 5 SOL and 1 GOLD stored, ends after
    three attempts with these balances still stored: no fallback value
    has taken the place of the failure. *)
Lemma exhausted_sol_fetch_yields_no_value :
  let loop := for_loop 3 0 (sol_body conn0 wallet1) 0%Q in
  let w0 := with_store (set_isLoading true (store w_stale)) w_stale in
  let w' := snd (run o_sol_down
                     (getAllTokenBalances cfg0 (Some wallet1) (Some conn0)) w_stale) in
  always_fails o_sol_down (sol_try conn0 wallet1) /\
  fst (run o_sol_down loop w0) = Thrown "failed to get balance of account" /\
  ~ (exists fallback : Q, fst (run o_sol_down loop w0) = Normal fallback) /\
  history w' = [ getBalance conn0 wallet1; timeout 1000; getBalance conn0 wallet1;
                 timeout 1000; getBalance conn0 wallet1 ] /\
  balances (store w') = {| SOL := 5; GOLD := 1 |} /\
  dispatched w' = [].
Proof.
  split; [exact o_sol_down_always_fails |].
  split; [reflexivity |].
  split; [intros [fallback H]; discriminate H |].
  vm_compute. repeat split.
Qed.

Lemma getAllTokenBalances_one_asset_exhausted_witness :
  (exists w',
      run o_sol_flaky_gold_down
          (getAllTokenBalances cfg0 (Some wallet1) (Some conn0)) (initial_world true)
      = (Normal tt, w') /\
      store w' = {| balances := {| SOL := sol_units 2500000000; GOLD := 0 |};
                    isLoading := false |} /\
      started is_getBalance w' = 3%nat /\
      started is_getAssociatedTokenAddress w' = 3%nat /\
      dispatched w' = [ {| SOL := sol_units 2500000000; GOLD := 0 |} ]) /\
  (exists w',
      run o_sol_down
          (getAllTokenBalances cfg0 (Some wallet1) (Some conn0)) w_stale
      = (Normal tt, w') /\
      balances (store w') = {| SOL := 5; GOLD := 1 |} /\
      isLoading (store w') = false /\
      started is_getBalance w' = 3%nat /\
      started is_getAssociatedTokenAddress w' = 0%nat /\
      dispatched w' = []).
Proof.
  split.
  - apply (proj1 (getAllTokenBalances_one_asset_exhausted cfg0 o_sol_flaky_gold_down
                    wallet1 conn0 (initial_world true)) 2%nat (sol_units 2500000000)).
    + lia.
    + apply o_sol_flaky_fails_twice; reflexivity.
    + exact o_gold_down_always_fails.
  - apply (proj2 (getAllTokenBalances_one_asset_exhausted cfg0 o_sol_down
                    wallet1 conn0 w_stale)).
    exact o_sol_down_always_fails.
Defined.

(** C1 fails when it is the SOL fetch that is exhausted: on a ledger whose
    [getBalance] is rejected every time and whose GOLD reads all succeed
    (the GOLD loop alone yields 7 GOLD), [getAllTokenBalances] makes no
    GOLD attempt, stores no GOLD value and dispatches no snapshot. *)
Lemma getAllTokenBalances_sol_failure_skips_gold :
  let w' := snd (run o_sol_down
                     (getAllTokenBalances cfg0 (Some wallet1) (Some conn0))
                     (initial_world true)) in
  always_fails o_sol_down (sol_try conn0 wallet1) /\
  fst (run o_sol_down
           (for_loop 3 0 (gold_body_all cfg0 conn0 wallet1 (mint cfg0)) 0%Q)
           (initial_world true))
  = Normal (gold_units cfg0 {| amount := 7000000 |}) /\
  started is_getAssociatedTokenAddress w' = 0%nat /\
  history w' = [ getBalance conn0 wallet1; timeout 1000; getBalance conn0 wallet1;
                 timeout 1000; getBalance conn0 wallet1 ] /\
  GOLD (balances (store w')) = 0%Q /\
  dispatched w' = [].
Proof.
  split; [exact o_sol_down_always_fails |].
  vm_compute. repeat split.
Qed.

Lemma getTokenBalance_exhausted_witness :
  always_fails o_sol_flaky_gold_down
    (loop_try cfg0 conn0 wallet1 (loop_of_symbol Sym.GOLD)) /\
  exists w',
    run o_sol_flaky_gold_down (getTokenBalance cfg0 wallet1 conn0 Sym.GOLD) w_stale
    = (Normal tt, w') /\
    isLoading (store w') = false /\
    balances (store w') = {| SOL := 5; GOLD := 0 |} /\
    started is_getAssociatedTokenAddress w' = 3%nat.
Proof.
  split; [exact o_gold_down_always_fails_one |].
  exact (getTokenBalance_exhausted cfg0 o_sol_flaky_gold_down wallet1 conn0 Sym.GOLD
           w_stale o_gold_down_always_fails_one).
Defined.

(** C2 fails for SOL: with 5 SOL stored and [getBalance] rejected on all
    three attempts, [getTokenBalance] leaves the stored SOL balance at 5. *)
Lemma getTokenBalance_SOL_exhausted_keeps_stale :
  let w' := snd (run o_sol_down (getTokenBalance cfg0 wallet1 conn0 Sym.SOL) w_stale) in
  always_fails o_sol_down (loop_try cfg0 conn0 wallet1 (loop_of_symbol Sym.SOL)) /\
  started is_getBalance w' = 3%nat /\
  SOL (balances (store w_stale)) = 5%Q /\
  SOL (balances (store w')) = 5%Q /\
  ~ (SOL (balances (store w')) == 0)%Q.
Proof.
  split; [exact o_sol_down_always_fails |].
  vm_compute. repeat split. discriminate.
Qed.

Lemma getAllTokenBalances_missing_argument_witness :
  (@None PublicKey = None \/ Some conn0 = None) /\
  exists w',
    run o_ok (getAllTokenBalances cfg0 None (Some conn0)) w_stale = (Normal tt, w') /\
    advance (getAllTokenBalances cfg0 None (Some conn0)) w_stale = (None, w') /\
    history w' = history w_stale /\
    balances (store w') = balances (store w_stale) /\
    isLoading (store w') = false /\
    dispatched w' = dispatched w_stale.
Proof.
  split; [left; reflexivity |].
  apply (getAllTokenBalances_missing_argument cfg0 o_ok None (Some conn0) w_stale).
  left. reflexivity.
Defined.

Lemma balances_stay_nonneg_witness :
  ledger_nonneg o_ok /\
  balances_nonneg (store (initial_world true)) /\
  balances_nonneg
    (store (run_refreshes cfg0 o_ok
              [refreshAll (Some wallet1) (Some conn0);
               refreshOne wallet1 conn0 Sym.GOLD;
               refreshOne wallet1 conn0 Sym.SOL]
              (initial_world true))).
Proof.
  assert (H0 : balances_nonneg (store (initial_world true))).
  { split; simpl; apply Qle_refl. }
  split; [exact o_ok_ledger_nonneg |].
  split; [exact H0 |].
  apply (balances_stay_nonneg cfg0 o_ok); [exact o_ok_ledger_nonneg | exact H0].
Defined.



Lemma fetchPriceData_transport_failure_witness :
  (transport_fails o_price_down w_priced /\
   exists w',
     run o_price_down fetchPriceData w_priced = (Normal tt, w') /\
     priceData w' = {[ "SOL" := 150%Q; "GOLD" := 2%Q ]} /\
     store w' = store w_priced) /\
  (transport_fails o_json_down w_priced /\
   exists w',
     run o_json_down fetchPriceData w_priced = (Normal tt, w') /\
     priceData w' = {[ "SOL" := 150%Q; "GOLD" := 2%Q ]} /\
     store w' = store w_priced).
Proof.
  assert (H1 : transport_fails o_price_down w_priced).
  { left. eexists. reflexivity. }
  assert (H2 : transport_fails o_json_down w_priced).
  { right. eexists. eexists. split; reflexivity. }
  split.
  - split; [exact H1 |].
    exact (fetchPriceData_transport_failure o_price_down w_priced H1).
  - split; [exact H2 |].
    exact (fetchPriceData_transport_failure o_json_down w_priced H2).
Defined.

Lemma triggers_start_cycles_unconditionally_witness :
  (isLoading (store (world s_connected)) = true /\
   step cfg0 o_ok ClickRefresh s_connected = s_connected) /\
  (cycles_in_flight s_connected = 1%nat /\
   cycles_in_flight (step cfg0 o_ok (TimerFires 0) s_connected) = 2%nat).
Proof.
  split.
  - split; [reflexivity |].
    apply (proj1 (triggers_start_cycles_unconditionally cfg0 o_ok s_connected)).
    reflexivity.
  - split; [reflexivity |].
    apply (proj1 (proj2 (triggers_start_cycles_unconditionally cfg0 o_ok s_connected))
             0%nat
             {| timer_kind := RefreshInterval; timer_ms := 10000;
                timer_callback := cb_refreshBalances (Some wallet1) (Some conn0) |}
             wallet1 conn0).
    + reflexivity.
    + right. reflexivity.
Defined.

(** C3 fails for the timers: while the cycle started on connect still
    waits for [getBalance], the 3 s startup timeout fires and a second
    cycle waits for [getBalance] on the same wallet.  It fails for the
    button as well: when the first of the two cycles has ended,
    [isLoading] is false, and a click starts a third cycle next to the
    second. *)
Lemma startup_timer_starts_second_cycle :
  let s2 := step cfg0 o_ok (TimerFires 1) s_connected in
  let s3 := steps cfg0 o_ok [Resume 0; Resume 0; Resume 0; Resume 0]%nat s2 in
  cycles_in_flight s_connected = 1%nat /\
  List.map timer_ms (timers (world s_connected)) = [10000; 3000; 10000]%Z /\
  cycles_in_flight s2 = 2%nat /\
  List.map task_call (List.filter in_refresh_cycle (tasks s2)) =
    [getBalance conn0 wallet1; getBalance conn0 wallet1] /\
  cycles_in_flight s3 = 1%nat /\
  isLoading (store (world s3)) = false /\
  cycles_in_flight (step cfg0 o_ok ClickRefresh s3) = 2%nat.
Proof. vm_compute. repeat split. Qed.

Lemma identity_change_does_not_discard_witness :
  None <> useWallet_publicKey s_connected /\
  let s' := step cfg0 o_ok (WalletChanged None) s_connected in
  useWallet_publicKey s' = None /\
  (exists spawned, tasks s' = tasks s_connected ++ spawned) /\
  (@None PublicKey = None ->
   tasks s' = tasks s_connected /\
   timers (world s') = List.filter is_kept_on_cleanup (timers (world s_connected)) /\
   listening (world s') = false /\
   store (world (steps cfg0 o_ok (List.map Resume [0; 0; 0; 0]%nat) s')) =
     store (world (steps cfg0 o_ok (List.map Resume [0; 0; 0; 0]%nat) s_connected)) /\
   dispatched (world (steps cfg0 o_ok (List.map Resume [0; 0; 0; 0]%nat) s')) =
     dispatched (world (steps cfg0 o_ok (List.map Resume [0; 0; 0; 0]%nat) s_connected))).
Proof.
  assert (H : None <> useWallet_publicKey s_connected) by discriminate.
  split; [exact H |].
  exact (identity_change_does_not_discard cfg0 o_ok s_connected None
           [0; 0; 0; 0]%nat H).
Defined.

(** C7 fails: the wallet detaches while the cycle started on connect is
    in flight; the cycle runs on and, with no wallet attached, stores its
    snapshot and dispatches the event.  A manual refresh's secondary
    timer also outlives the detach and starts a cycle for the detached
    wallet. *)
Lemma detached_cycle_still_publishes :
  let s1 := step cfg0 o_ok (WalletChanged None) s_connected in
  let s2 := steps cfg0 o_ok [Resume 0; Resume 0; Resume 0; Resume 0]%nat s1 in
  let t1 := steps cfg0 o_ok
              [Resume 0; Resume 0; Resume 0; Resume 0; ClickRefresh;
               Resume 1; Resume 1; Resume 1; Resume 1; WalletChanged None]%nat
              s_connected in
  (cycles_in_flight s1 = 1%nat /\
   useWallet_publicKey s1 = None /\
   balances (store (world s1)) = {| SOL := 0; GOLD := 0 |} /\
   dispatched (world s1) = []) /\
  (useWallet_publicKey s2 = None /\
   balances (store (world s2)) =
     {| SOL := sol_units 2500000000; GOLD := gold_units cfg0 {| amount := 7000000 |} |} /\
   dispatched (world s2) =
     [ {| SOL := sol_units 2500000000;
          GOLD := gold_units cfg0 {| amount := 7000000 |} |} ]) /\
  (useWallet_publicKey t1 = None /\
   List.map timer_kind (timers (world t1)) = [SecondaryTimeout] /\
   cycles_in_flight t1 = 0%nat /\
   List.map task_call (List.filter in_refresh_cycle
                         (tasks (step cfg0 o_ok (TimerFires 0) t1))) =
     [getBalance conn0 wallet1]).
Proof. vm_compute. repeat split. Qed.

(** * Further properties of the store *)

(** X1. Neither refresh operation lets an error out, whatever the ledger
    replies and whatever its arguments: it ends normally and leaves
    [isLoading] false. *)
Theorem refresh_never_throws (cfg : TokenConfig) (o : Oracle) (r : Refresh)
    (w : World) :
  exists w',
    run o (refresh_prog cfg r) w = (Normal tt, w') /\
    isLoading (store w') = false.
Proof.
  destruct r as [pk conn tokenSymbol | [pk |] [conn |]]; unfold refresh_prog;
    try (eexists; split; reflexivity).
  - rewrite run_getTokenBalance.
    destruct tokenSymbol;
      destruct (run o (for_loop 3 0 _ 0%Q) _) as [[v | e] w1];
      eexists; split; reflexivity.
  - rewrite run_getAllTokenBalances.
    destruct (run o (for_loop 3 0 (sol_body conn pk) 0%Q) _) as [[v | e] w1];
      [| eexists; split; reflexivity].
    destruct (run o (for_loop 3 0 (gold_body_all cfg conn pk (mint cfg)) 0%Q) w1)
      as [[g | e] w2]; eexists; (split; [reflexivity |]).
    + rewrite dispatch_store. reflexivity.
    + reflexivity.
Qed.

(** X2. [getTokenBalance] leaves the other symbol's stored balance, the
    price map and the pending timers as they are and never dispatches the
    [balanceUpdated] event, whatever the ledger replies. *)
Theorem getTokenBalance_touches_one_entry (cfg : TokenConfig) (o : Oracle)
    (pk : PublicKey) (conn : Connection) (tokenSymbol : Sym.t) (w : World) :
  let w' := snd (run o (getTokenBalance cfg pk conn tokenSymbol) w) in
  balance_of (other_symbol tokenSymbol) (balances (store w')) =
    balance_of (other_symbol tokenSymbol) (balances (store w)) /\
  dispatched w' = dispatched w /\
  priceData w' = priceData w /\
  timers w' = timers w.
Proof.
  intros w'. unfold w'. clear w'. rewrite run_getTokenBalance.
  set (w0 := with_store (set_isLoading true (store w)) w).
  destruct tokenSymbol.
  - destruct (run o (for_loop 3 0 (sol_body conn pk) 0%Q) w0) as [[v | e] w1] eqn:E;
      destruct (loop_adds_calls cfg o conn pk SOL_loop _ _ _ _ _ _ E) as (l & -> & _);
      repeat split.
  - destruct (run o (for_loop 3 0 (gold_body_one cfg conn pk (mint cfg)) 0%Q) w0)
      as [[v | e] w1] eqn:E;
      destruct (loop_adds_calls cfg o conn pk GOLD_loop_one _ _ _ _ _ _ E)
        as (l & -> & _);
      repeat split.
Qed.

(** X3. In [getTokenBalance], if the fetch for the symbol fails [k] < 3
    times and then succeeds with [v], the store holds [v] for that symbol
    (the other entry is kept), [isLoading] is false, and [k + 1] attempts
    were made. *)
Theorem getTokenBalance_stores_first_success (cfg : TokenConfig) (o : Oracle)
    (pk : PublicKey) (conn : Connection) (tokenSymbol : Sym.t) (w : World)
    (k : nat) (v : Q) :
  (k < 3)%nat ->
  fails_k_then_yields o (loop_try cfg conn pk (loop_of_symbol tokenSymbol))
    (loop_mark (loop_of_symbol tokenSymbol)) w k v ->
  exists w',
    run o (getTokenBalance cfg pk conn tokenSymbol) w = (Normal tt, w') /\
    store w' = {| balances := with_balance (balances (store w)) tokenSymbol v;
                  isLoading := false |} /\
    started (loop_mark (loop_of_symbol tokenSymbol)) w' =
      (started (loop_mark (loop_of_symbol tokenSymbol)) w + k + 1)%nat.
Proof.
  intros Hk Hop. rewrite run_getTokenBalance.
  set (w0 := with_store (set_isLoading true (store w)) w).
  destruct (loop_first_success cfg o conn pk (loop_of_symbol tokenSymbol) w0 k v 0%Q
              Hk Hop) as (w1 & E & Hc & Hs).
  destruct tokenSymbol; simpl in E, Hs, Hc |- *; rewrite E;
    eexists; (split; [reflexivity |]); simpl;
    rewrite (adds_calls_store _ _ _ Hc); split; (reflexivity || exact Hs).
Qed.

(** X4. One call of [getAllTokenBalances] dispatches at most one
    [balanceUpdated] event, and its detail is exactly the balances the
    store holds afterwards; where [window] exists, the stored balances
    change only together with such an event. *)
Theorem getAllTokenBalances_event_matches_store (cfg : TokenConfig) (o : Oracle)
    (publicKey : option PublicKey) (connection : option Connection) (w : World) :
  let w' := snd (run o (getAllTokenBalances cfg publicKey connection) w) in
  (dispatched w' = dispatched w \/
   dispatched w' = balances (store w') :: dispatched w) /\
  (window_defined w = true ->
   balances (store w') <> balances (store w) ->
   dispatched w' = balances (store w') :: dispatched w).
Proof.
  intros w'. unfold w'. clear w'.
  destruct publicKey as [pk |], connection as [conn |];
    try (split; [left; reflexivity | intros _ H; exfalso; apply H; reflexivity]).
  rewrite run_getAllTokenBalances.
  set (w0 := with_store (set_isLoading true (store w)) w).
  destruct (run o (for_loop 3 0 (sol_body conn pk) 0%Q) w0) as [[v | e] w1] eqn:E1;
    destruct (loop_adds_calls cfg o conn pk SOL_loop _ _ _ _ _ _ E1) as (l1 & -> & _).
  - destruct (run o (for_loop 3 0 (gold_body_all cfg conn pk (mint cfg)) 0%Q) _)
      as [[g | e] w2] eqn:E2;
      destruct (loop_adds_calls cfg o conn pk GOLD_loop_all _ _ _ _ _ _ E2)
        as (l2 & -> & _).
    + unfold snd. rewrite dispatch_store, dispatch_dispatched. simpl.
      destruct (window_defined w).
      * split; [right; reflexivity | intros _ _; reflexivity].
      * split; [left; reflexivity | intros H; discriminate H].
    + simpl. split; [left; reflexivity | intros _ H; exfalso; apply H; reflexivity].
  - simpl. split; [left; reflexivity | intros _ H; exfalso; apply H; reflexivity].
Qed.

(** X5. In [getAllTokenBalances], if the SOL fetch succeeds with [v] after
    [k1] < 3 failures and the GOLD fetch with [g] after [k2] < 3 failures,
    the store holds [{SOL: v, GOLD: g}] with [isLoading] false, one event
    with that detail is dispatched where [window] exists, and [k1 + 1] SOL
    and [k2 + 1] GOLD attempts were made. *)
Theorem getAllTokenBalances_publishes_both (cfg : TokenConfig) (o : Oracle)
    (pk : PublicKey) (conn : Connection) (w : World) (k1 k2 : nat) (v g : Q) :
  (k1 < 3)%nat -> (k2 < 3)%nat ->
  fails_k_then_yields o (sol_try conn pk) is_getBalance w k1 v ->
  fails_k_then_yields o (gold_try_all cfg conn pk (mint cfg))
    is_getAssociatedTokenAddress w k2 g ->
  exists w',
    run o (getAllTokenBalances cfg (Some pk) (Some conn)) w = (Normal tt, w') /\
    store w' = {| balances := {| SOL := v; GOLD := g |}; isLoading := false |} /\
    dispatched w' =
      (if window_defined w then {| SOL := v; GOLD := g |} :: dispatched w
       else dispatched w) /\
    started is_getBalance w' = (started is_getBalance w + k1 + 1)%nat /\
    started is_getAssociatedTokenAddress w' =
      (started is_getAssociatedTokenAddress w + k2 + 1)%nat.
Proof.
  intros Hk1 Hk2 Hsol Hgold.
  rewrite run_getAllTokenBalances.
  set (w0 := with_store (set_isLoading true (store w)) w).
  destruct (loop_first_success cfg o conn pk SOL_loop w0 k1 v 0%Q Hk1 Hsol)
    as (w1 & E1 & Hc1 & Hs1).
  simpl loop_body in E1. rewrite E1.
  pose proof (adds_calls_started _ _ _ _ sol_calls_not_gold_attempt Hc1) as Hs.
  assert (Hgold1 : fails_k_then_yields o (loop_try cfg conn pk GOLD_loop_all)
                     (loop_mark GOLD_loop_all) w1 k2 g).
  { apply fails_k_then_yields_same_count with (w := w); [exact Hs | exact Hgold]. }
  destruct (loop_first_success cfg o conn pk GOLD_loop_all w1 k2 g 0%Q Hk2 Hgold1)
    as (w2 & E2 & Hc2 & Hs2).
  simpl loop_body in E2. rewrite E2.
  eexists. split; [reflexivity |].
  pose proof (adds_calls_started _ _ _ _ gold_calls_not_sol_attempt Hc2) as Hg.
  simpl loop_mark in *.
  split; [apply dispatch_store |].
  unfold started in *. rewrite dispatch_history, dispatch_dispatched. simpl.
  rewrite (adds_calls_window _ _ _ Hc2), (adds_calls_window _ _ _ Hc1).
  rewrite (adds_calls_dispatched _ _ _ Hc2), (adds_calls_dispatched _ _ _ Hc1).
  simpl. change (history w0) with (history w) in Hs1, Hs.
  repeat split; lia.
Qed.

(** ** Attempts and back-off *)

Section RetryBounds.

Variable o : Oracle.
Variable attempt : Prog (Ctl Q).
Variable last : Error -> Prog (Ctl Q).
Variable mark : Call -> bool.

Hypothesis mark_timeout : forall ms, mark (timeout ms) = false.

Hypothesis attempt_counts : forall w r w',
  run o attempt w = (r, w') ->
  started mark w' = Datatypes.S (started mark w) /\
  started is_timeout w' = started is_timeout w.

Hypothesis attempt_breaks : forall w c w',
  run o attempt w = (Normal c, w') -> exists v, c = Break v /\ True.

Hypothesis last_pure : forall e w r w', run o (last e) w = (r, w') -> w' = w.

Lemma retry_bounds :
  forall (n : nat) (w : World) (s : Q) r w',
    (1 <= n <= 3)%nat ->
    run o (for_loop n (3 - Z.of_nat n) (retry_body attempt last) s) w = (r, w') ->
    exists a : nat,
      (1 <= a <= n)%nat /\
      started mark w' = (started mark w + a)%nat /\
      started is_timeout w' = (started is_timeout w + (a - 1))%nat.
Proof.
  induction n as [| n IH]; intros w s r w' Hn E; [lia |].
  rewrite run_for_loop_S, run_retry_body in E.
  destruct (run o attempt w) as [[c | e] w1] eqn:E1;
    destruct (attempt_counts _ _ _ E1) as [Hm Ht].
  - destruct (attempt_breaks _ _ _ E1) as (v & -> & _).
    inversion E; subst. exists 1%nat. repeat split; lia.
  - destruct (3 - Z.of_nat (Datatypes.S n) =? 2)%Z eqn:Ei.
    + destruct (run o (last e) w1) as [[[s' | s'] | e'] w2] eqn:E2;
        pose proof (last_pure _ _ _ _ E2) as ->.
      * apply Z.eqb_eq in Ei. assert (n = 0%nat) by lia. subst n.
        simpl in E. inversion E; subst. exists 1%nat. repeat split; lia.
      * inversion E; subst. exists 1%nat. repeat split; lia.
      * inversion E; subst. exists 1%nat. repeat split; lia.
    + apply Z.eqb_neq in Ei.
      replace (3 - Z.of_nat (Datatypes.S n) + 1)%Z with (3 - Z.of_nat n)%Z in E by lia.
      set (w2 := with_history (timeout 1000 :: history w1) w1) in E.
      assert (Hm2 : started mark w2 = started mark w1).
      { unfold w2. apply started_sleep, mark_timeout. }
      assert (Ht2 : started is_timeout w2 = Datatypes.S (started is_timeout w1))
        by reflexivity.
      destruct (IH w2 s r w') as (a & Ha & Hma & Hta); [lia | exact E |].
      exists (Datatypes.S a). repeat split; lia.
Qed.

End RetryBounds.

Lemma loop_try_counts (cfg : TokenConfig) (o : Oracle) (conn : Connection)
    (pk : PublicKey) (l : RetryLoop) :
  forall w r w',
    run o (loop_try cfg conn pk l) w = (r, w') ->
    started (loop_mark l) w' = Datatypes.S (started (loop_mark l) w) /\
    started is_timeout w' = started is_timeout w.
Proof.
  intros w r w' E. split; [exact (proj2 (loop_try_frame cfg o conn pk l w r w' E)) |].
  revert E.
  destruct l; simpl; unfold sol_try, gold_try_one, gold_try_all; unfold_bind; simpl;
    repeat match goal with
      | |- context [o ?h ?c] => destruct (o h c) as [? | ?]; simpl
      | |- context [match ?x with Some _ => _ | None => _ end] => destruct x; simpl
      | |- context [if ?b then _ else _] => destruct b; simpl
      end;
    intros H; inversion H; subst; reflexivity.
Qed.

Lemma loop_bounds (cfg : TokenConfig) (o : Oracle)
    (conn : Connection) (pk : PublicKey) (l : RetryLoop) (w : World) (s : Q) r w' :
  run o (for_loop 3 0 (loop_body cfg conn pk l) s) w = (r, w') ->
  exists a : nat,
    (1 <= a <= 3)%nat /\
    started (loop_mark l) w' = (started (loop_mark l) w + a)%nat /\
    started is_timeout w' = (started is_timeout w + (a - 1))%nat.
Proof.
  intros E.
  rewrite loop_body_retry in E.
  change 0%Z with (3 - Z.of_nat 3)%Z in E.
  refine (retry_bounds o (loop_try cfg conn pk l)
            (match l with SOL_loop => Throw | _ => gold_last end)
            (loop_mark l) (loop_mark_timeout l)
            (loop_try_counts cfg o conn pk l) (loop_try_breaks cfg o conn pk l)
            _ 3%nat w s r w' _ E); [| lia].
  intros e w0 r0 w0' E0. destruct l; simpl in E0; inversion E0; reflexivity.
Qed.

(** X6. Whatever the ledger replies, one call of [getTokenBalance] makes
    between one and three attempts for its symbol and none for the other
    symbol, and waits exactly once between two consecutive attempts: the
    number of back-off waits is the number of attempts less one. *)
Theorem getTokenBalance_bounded (cfg : TokenConfig) (o : Oracle)
    (pk : PublicKey) (conn : Connection) (tokenSymbol : Sym.t) (w : World) :
  let w' := snd (run o (getTokenBalance cfg pk conn tokenSymbol) w) in
  exists a : nat,
    (1 <= a <= 3)%nat /\
    started (loop_mark (loop_of_symbol tokenSymbol)) w' =
      (started (loop_mark (loop_of_symbol tokenSymbol)) w + a)%nat /\
    started (loop_mark (loop_of_symbol (other_symbol tokenSymbol))) w' =
      started (loop_mark (loop_of_symbol (other_symbol tokenSymbol))) w /\
    started is_timeout w' = (started is_timeout w + (a - 1))%nat.
Proof.
  intros w'. unfold w'. clear w'. rewrite run_getTokenBalance.
  set (w0 := with_store (set_isLoading true (store w)) w).
  destruct tokenSymbol.
  - destruct (run o (for_loop 3 0 (sol_body conn pk) 0%Q) w0) as [[v | e] w1] eqn:E;
      destruct (loop_bounds cfg o conn pk SOL_loop _ _ _ _ E) as (a & Ha & Hm & Ht);
      pose proof (adds_calls_started _ _ _ _ sol_calls_not_gold_attempt
                    (loop_adds_calls cfg o conn pk SOL_loop _ _ _ _ _ _ E)) as Hg;
      exists a; simpl loop_mark in *; unfold snd, started in *; simpl;
      change (history w0) with (history w) in *; repeat split; lia.
  - destruct (run o (for_loop 3 0 (gold_body_one cfg conn pk (mint cfg)) 0%Q) w0)
      as [[v | e] w1] eqn:E;
      destruct (loop_bounds cfg o conn pk GOLD_loop_one _ _ _ _ E) as (a & Ha & Hm & Ht);
      pose proof (adds_calls_started _ _ _ _ gold_calls_not_sol_attempt
                    (loop_adds_calls cfg o conn pk GOLD_loop_one _ _ _ _ _ _ E)) as Hg;
      exists a; simpl loop_mark in *; unfold snd, started in *; simpl;
      change (history w0) with (history w) in *; repeat split; lia.
Qed.

(** X7. Whatever the ledger replies, one call of [getAllTokenBalances]
    with a wallet and a connection makes between one and three
    [getBalance] calls and at most three GOLD attempts, and waits once
    between consecutive attempts of a loop, so at most four times. *)
Theorem getAllTokenBalances_bounded (cfg : TokenConfig) (o : Oracle)
    (pk : PublicKey) (conn : Connection) (w : World) :
  let w' := snd (run o (getAllTokenBalances cfg (Some pk) (Some conn)) w) in
  exists a b : nat,
    (1 <= a <= 3)%nat /\ (b <= 3)%nat /\
    started is_getBalance w' = (started is_getBalance w + a)%nat /\
    started is_getAssociatedTokenAddress w' =
      (started is_getAssociatedTokenAddress w + b)%nat /\
    started is_timeout w' = (started is_timeout w + (a - 1) + (b - 1))%nat.
Proof.
  intros w'. unfold w'. clear w'. rewrite run_getAllTokenBalances.
  set (w0 := with_store (set_isLoading true (store w)) w).
  destruct (run o (for_loop 3 0 (sol_body conn pk) 0%Q) w0) as [[v | e] w1] eqn:E1;
    destruct (loop_bounds cfg o conn pk SOL_loop _ _ _ _ E1) as (a & Ha & Hma & Hta);
    pose proof (adds_calls_started _ _ _ _ sol_calls_not_gold_attempt
                  (loop_adds_calls cfg o conn pk SOL_loop _ _ _ _ _ _ E1)) as Hg1;
    simpl loop_mark in *;
    change (started is_getBalance w0) with (started is_getBalance w) in Hma;
    change (started is_timeout w0) with (started is_timeout w) in Hta;
    change (started is_getAssociatedTokenAddress w0)
      with (started is_getAssociatedTokenAddress w) in Hg1.
  - destruct (run o (for_loop 3 0 (gold_body_all cfg conn pk (mint cfg)) 0%Q) w1)
      as [[g | e] w2] eqn:E2;
      destruct (loop_bounds cfg o conn pk GOLD_loop_all _ _ _ _ E2)
        as (b & Hb & Hmb & Htb);
      pose proof (adds_calls_started _ _ _ _ gold_calls_not_sol_attempt
                    (loop_adds_calls cfg o conn pk GOLD_loop_all _ _ _ _ _ _ E2)) as Hs2;
      simpl loop_mark in *; exists a, b; unfold snd, started in *;
      try rewrite dispatch_history; simpl; repeat split; lia.
  - exists a, 0%nat. unfold snd, started in *. simpl. repeat split; lia.
Qed.

(** X8. In [getAllTokenBalances], once the SOL fetch has succeeded with
    [v]: if the token account is absent, has no data or is not owned by
    the token program, the GOLD balance stored is 0 after a single GOLD
    attempt, and [getAccount] is not called at all. *)
Theorem getAllTokenBalances_rejects_unvalidated_account (cfg : TokenConfig)
    (o : Oracle) (pk : PublicKey) (conn : Connection) (w : World) (k : nat) (v : Q)
    (tokenAccount : PublicKey) (accountInfo : option AccountInfo) :
  (k < 3)%nat ->
  fails_k_then_yields o (sol_try conn pk) is_getBalance w k v ->
  (forall h, o h (getAssociatedTokenAddress (mint cfg) pk) = Resolved tokenAccount) ->
  (forall h, o h (getAccountInfo conn tokenAccount) = Resolved accountInfo) ->
  passes_validation accountInfo = false ->
  exists w',
    run o (getAllTokenBalances cfg (Some pk) (Some conn)) w = (Normal tt, w') /\
    store w' = {| balances := {| SOL := v; GOLD := 0 |}; isLoading := false |} /\
    started is_getAccount w' = started is_getAccount w /\
    started is_getAssociatedTokenAddress w' =
      Datatypes.S (started is_getAssociatedTokenAddress w).
Proof.
  intros Hk Hsol Hata Hinfo Hval.
  rewrite run_getAllTokenBalances.
  set (w0 := with_store (set_isLoading true (store w)) w).
  destruct (loop_first_success cfg o conn pk SOL_loop w0 k v 0%Q Hk Hsol)
    as (w1 & E1 & Hc1 & Hs1).
  simpl loop_body in E1. rewrite E1.
  change (gold_body_all cfg conn pk (mint cfg))
    with (retry_body (gold_try_all cfg conn pk (mint cfg)) gold_last).
  rewrite run_for_loop_S, run_retry_body.
  rewrite (gold_try_all_validates cfg o conn pk tokenAccount accountInfo w1
             (Hata _) (Hinfo _) Hval).
  eexists. split; [reflexivity |].
  pose proof (adds_calls_started _ _ _ _ sol_calls_not_getAccount Hc1) as Ha.
  pose proof (adds_calls_started _ _ _ _ sol_calls_not_gold_attempt Hc1) as Hg.
  split; [apply dispatch_store |].
  unfold started in *. rewrite dispatch_history. simpl.
  change (history w0) with (history w) in Ha, Hg.
  split; [exact Ha | rewrite Hg; reflexivity].
Qed.

(** * Further properties of the price cache *)

Lemma foldl_priceMap_lookup (l : list PriceEntry) :
  forall (m : gmap string Q) (k : string),
    k <> "__proto__" ->
    foldl (fun priceMap p =>
             if String.eqb (symbol p) "__proto__" then priceMap
             else <[symbol p := price p]> priceMap) m l !! k =
    match last_entry k l with
    | Some p => Some (price p)
    | None => m !! k
    end.
Proof.
  unfold last_entry.
  induction l as [| p l IH] using rev_ind; intros m k Hk; [reflexivity |].
  rewrite foldl_app, rev_app_distr. simpl.
  destruct (String.eqb (symbol p) k) eqn:E.
  - apply String.eqb_eq in E. subst k.
    destruct (String.eqb (symbol p) "__proto__") eqn:Ep;
      [apply String.eqb_eq in Ep; contradiction |].
    apply lookup_insert_eq.
  - apply String.eqb_neq in E.
    destruct (String.eqb (symbol p) "__proto__"); [apply IH, Hk |].
    rewrite lookup_insert_ne by exact E. apply IH, Hk.
Qed.

Lemma build_priceMap_lookup (l : list PriceEntry) (k : string) :
  k <> "__proto__" ->
  build_priceMap l !! k = price <$> last_entry k l.
Proof.
  intros Hk. unfold build_priceMap. rewrite foldl_priceMap_lookup by exact Hk.
  destruct (last_entry k l); reflexivity.
Qed.

Lemma last_entry_is_Some (k : string) (l : list PriceEntry) :
  is_Some (last_entry k l) <-> In k (List.map symbol l).
Proof.
  unfold last_entry. split.
  - intros [p Hp]. apply List.find_some in Hp as [Hin Heq].
    apply String.eqb_eq in Heq. subst k.
    apply in_map, in_rev, Hin.
  - intros Hin. apply in_map_iff in Hin as (p & Hk & Hin).
    destruct (List.find (fun p => String.eqb (symbol p) k) (rev l)) as [q |] eqn:E;
      [eexists; reflexivity |].
    exfalso.
    pose proof (List.find_none _ _ E p (proj1 (in_rev l p) Hin)) as Hn.
    simpl in Hn. rewrite Hk, String.eqb_refl in Hn. discriminate.
Qed.

Lemma run_fetchPriceData_arrive (o : Oracle) (w : World) (l : list PriceEntry) :
  prices_arrive o w l ->
  exists w',
    run o fetchPriceData w = (Normal tt, w') /\
    priceData w' = build_priceMap l /\
    store w' = store w.
Proof.
  intros (response & E1 & E2).
  unfold fetchPriceData. unfold_bind. simpl.
  rewrite E1. simpl. rewrite E2. simpl. eexists. repeat split.
Qed.

(** X9. When the price service answers with a well-formed list, the
    prices of the two tracked symbols are replaced by the list's content,
    not merged with the old map: [priceData.SOL] is the price of the last
    SOL entry of the list, and is undefined when the list has no SOL
    entry, whatever was cached before; the same holds of
    [priceData.GOLD]. *)
Theorem fetchPriceData_replaces_prices (o : Oracle) (w : World)
    (l : list PriceEntry) :
  prices_arrive o w l ->
  exists w',
    run o fetchPriceData w = (Normal tt, w') /\
    forall tokenSymbol : string,
      tokenSymbol = "SOL" \/ tokenSymbol = "GOLD" ->
      priceData w' !! tokenSymbol = price <$> last_entry tokenSymbol l /\
      (~ In tokenSymbol (List.map symbol l) -> priceData w' !! tokenSymbol = None).
Proof.
  intros H. destruct (run_fetchPriceData_arrive o w l H) as (w' & E & Hp & _).
  exists w'. split; [exact E |]. rewrite Hp.
  intros tokenSymbol Hs.
  assert (Hk : tokenSymbol <> "__proto__") by (destruct Hs as [-> | ->]; discriminate).
  rewrite (build_priceMap_lookup l tokenSymbol Hk). split; [reflexivity |].
  intros Hn. destruct (last_entry tokenSymbol l) as [p |] eqn:Ep; [| reflexivity].
  exfalso. apply Hn, last_entry_is_Some. rewrite Ep. eexists. reflexivity.
Qed.

(** X10. Whatever the price service does, [fetchPriceData] ends normally
    after at most two calls and leaves the store, the events and the
    timers alone; the price map changes only when a well-formed list of
    prices has arrived, and then to that list's content. *)
Theorem fetchPriceData_absorbs_everything (o : Oracle) (w : World) :
  exists w',
    run o fetchPriceData w = (Normal tt, w') /\
    store w' = store w /\ dispatched w' = dispatched w /\ timers w' = timers w /\
    (length (history w') <= length (history w) + 2)%nat /\
    (priceData w' <> priceData w ->
     exists l, prices_arrive o w l /\ priceData w' = build_priceMap l).
Proof.
  unfold fetchPriceData. unfold_bind. simpl.
  destruct (o (history w) (fetch "/api/market/prices")) as [response | e] eqn:E1;
    simpl.
  - destruct (o (fetch "/api/market/prices" :: history w) (json response))
      as [[[] [[[l |]] |]] | e] eqn:E2; simpl;
      eexists; (split; [reflexivity |]); simpl; repeat split; try lia;
      try (intros H; exfalso; apply H; reflexivity).
    intros _. exists l. split; [| reflexivity].
    exists response. split; [exact E1 | exact E2].
  - eexists. split; [reflexivity |]. simpl. repeat split; try lia.
    intros H; exfalso; apply H; reflexivity.
Qed.

(** X11. After a well-formed price response that misses SOL or GOLD, the
    portfolio total is [NaN], whatever the balances and whatever was
    cached before. *)
Theorem portfolio_value_NaN_without_both_prices (o : Oracle) (w : World)
    (l : list PriceEntry) (b : TokenBalance) :
  prices_arrive o w l ->
  ~ (In "SOL" (List.map symbol l) /\ In "GOLD" (List.map symbol l)) ->
  getTotalPortfolioValue b (priceData (snd (run o fetchPriceData w))) = None.
Proof.
  intros H Hn.
  destruct (run_fetchPriceData_arrive o w l H) as (w' & E & Hp & _).
  rewrite E. unfold snd. rewrite Hp. unfold getTotalPortfolioValue.
  rewrite !build_priceMap_lookup by discriminate.
  destruct (last_entry "SOL" l) as [pS |] eqn:ES; [| reflexivity].
  destruct (last_entry "GOLD" l) as [pG |] eqn:EG; [| reflexivity].
  exfalso. apply Hn. rewrite <- !last_entry_is_Some, ES, EG.
  split; eexists; reflexivity.
Qed.

(** * Further properties of the component *)

(** ** The effects a program can perform *)

Lemma effects_in_mono {A : Type} (P P' : Action -> Prop) (p : Prog A) :
  (forall a, P a -> P' a) -> effects_in P p -> effects_in P' p.
Proof.
  intros HP. induction p as [a | e | c k IH | a k IH]; simpl; auto.
  intros [Ha Hk]. split; auto.
Qed.

Lemma effects_in_bind {A B : Type} (P : Action -> Prop) (p : Prog A)
    (f : A -> Prog B) :
  effects_in P p -> (forall a, effects_in P (f a)) -> effects_in P (bind p f).
Proof.
  intros Hp Hf. induction p as [a | e | c k IH | a k IH]; simpl in *; auto.
  destruct Hp as [Ha Hk]. split; auto.
Qed.

Lemma effects_in_try_catch {A : Type} (P : Action -> Prop) (p : Prog A)
    (h : Error -> Prog A) :
  effects_in P p -> (forall e, effects_in P (h e)) -> effects_in P (try_catch p h).
Proof.
  intros Hp Hh. induction p as [a | e | c k IH | a k IH]; simpl in *; auto.
  destruct Hp as [Ha Hk]. split; auto.
Qed.

Lemma effects_in_for_loop {S : Type} (P : Action -> Prop)
    (body : Z -> S -> Prog (Ctl S)) :
  (forall i s, effects_in P (body i s)) ->
  forall n i s, effects_in P (for_loop n i body s).
Proof.
  intros Hb. induction n as [| n IH]; intros i s; simpl; [exact I |].
  apply effects_in_bind; [apply Hb |].
  intros [s' | s']; simpl; auto.
Qed.

Ltac effects_step :=
  first
    [ exact I
    | apply effects_in_for_loop
    | apply effects_in_try_catch
    | apply effects_in_bind
    | match goal with
      | |- effects_in _ (match ?x with _ => _ end) => destruct x
      | |- effects_in _ (await _) => intros []; exact I
      | |- effects_in _ (sleep _) => intros ?; exact I
      | |- effects_in _ (do_ _) => split; [| exact I]
      | |- effects_in _ (Ret _) => exact I
      | |- effects_in _ (Throw _) => exact I
      | |- forall _, _ => intro
      | |- _ /\ _ => split
      end ].

Lemma getAllTokenBalances_effects (cfg : TokenConfig)
    (publicKey : option PublicKey) (connection : option Connection) :
  effects_in sets_no_timer (getAllTokenBalances cfg publicKey connection).
Proof.
  unfold getAllTokenBalances, sol_body, gold_body_all, sol_try, gold_try_all.
  unfold_bind. repeat effects_step.
Qed.

Lemma fetchPriceData_effects : effects_in sets_no_timer fetchPriceData.
Proof.
  unfold fetchPriceData. unfold_bind. repeat effects_step.
Qed.

Lemma refreshBalances_effects (cfg : TokenConfig)
    (publicKey : option PublicKey) (connection : option Connection) :
  effects_in sets_no_timer (refreshBalances cfg publicKey connection).
Proof.
  unfold refreshBalances. unfold_bind. destruct publicKey; [| exact I].
  apply effects_in_bind; [apply getAllTokenBalances_effects |]. intros _.
  apply effects_in_bind; [split; exact I |]. intros _.
  apply fetchPriceData_effects.
Qed.

Lemma callback_effects (cfg : TokenConfig) (cb : Callback) :
  effects_in sets_no_timer (callback_prog cfg cb).
Proof.
  destruct cb; unfold callback_prog.
  - apply getAllTokenBalances_effects.
  - apply refreshBalances_effects.
Qed.

Lemma handleRefresh_effects (cfg : TokenConfig)
    (publicKey : option PublicKey) (connection : option Connection) :
  effects_in sets_secondary_only (handleRefresh cfg publicKey connection).
Proof.
  unfold handleRefresh. unfold_bind.
  destruct publicKey as [pk |]; [| exact I].
  destruct connection as [conn |]; [| exact I].
  apply effects_in_bind.
  - apply effects_in_mono with (P := sets_no_timer);
      [intros []; simpl; tauto | apply getAllTokenBalances_effects].
  - intros _. split; [reflexivity | exact I].
Qed.

(** ** Timers under a handle *)

Lemma handle_timers_eq (s : Sys) :
  handle_timers s = List.filter under_handle (timers (world s)).
Proof. reflexivity. Qed.

Lemma apply_action_handle (a : Action) (w : World) :
  sets_secondary_only a ->
  List.filter under_handle (timers (apply_action a w)) =
    List.filter under_handle (timers w) /\
  listening (apply_action a w) = listening w.
Proof.
  intros Ha. destruct a as [f | d | m | | t]; simpl; try (split; reflexivity).
  - destruct (window_defined w); [destruct (listening w) eqn:El |];
      simpl; rewrite ?El; split; reflexivity.
  - simpl in Ha. rewrite List.filter_app. simpl.
    unfold under_handle, is_kept_on_cleanup. rewrite Ha. simpl.
    rewrite app_nil_r. split; reflexivity.
Qed.

Lemma advance_handle (p : Prog unit) :
  effects_in sets_secondary_only p ->
  forall w,
    List.filter under_handle (timers (snd (advance p w))) =
      List.filter under_handle (timers w) /\
    listening (snd (advance p w)) = listening w /\
    match fst (advance p w) with
    | Some t => task_ok t
    | None => True
    end.
Proof.
  induction p as [a | e | c k IH | a k IH]; simpl; intros Hp w;
    try (repeat split; exact I).
  - repeat split. exact Hp.
  - destruct Hp as [Ha Hk].
    destruct (apply_action_handle a w Ha) as [Ht Hl].
    destruct (IH Hk (apply_action a w)) as (Ht' & Hl' & Hok).
    rewrite Ht', Hl', Ht, Hl. repeat split. exact Hok.
Qed.

Lemma effect_timers_split (s : Sys) :
  effect_timers s = interval_timers s ++ startup_timers s.
Proof. reflexivity. Qed.

Lemma same_props_timers (s s' : Sys) :
  same_props s s' ->
  interval_timers s' = interval_timers s /\ startup_timers s' = startup_timers s.
Proof.
  unfold interval_timers, startup_timers. intros (-> & -> & -> & ->).
  split; reflexivity.
Qed.

Lemma same_props_trans (s1 s2 s3 : Sys) :
  same_props s1 s2 -> same_props s2 s3 -> same_props s1 s3.
Proof.
  unfold same_props. intros (A1 & B1 & C1 & D1) (A2 & B2 & C2 & D2).
  repeat split; congruence.
Qed.

Lemma spawn_inv (p : Prog unit) (s : Sys) :
  effects_in sets_secondary_only p ->
  Forall task_ok (tasks s) ->
  handle_timers (spawn p s) = handle_timers s /\
  listening (world (spawn p s)) = listening (world s) /\
  Forall task_ok (tasks (spawn p s)) /\
  same_props s (spawn p s).
Proof.
  intros Hp Hts.
  destruct (advance_handle p Hp (world s)) as (Ht & Hl & Hok).
  unfold spawn, handle_timers, same_props.
  destruct (advance p (world s)) as [[t |] w']; simpl in *;
    repeat split; try assumption.
  apply Forall_app. split; [assumption |]. constructor; [exact Hok | constructor].
Qed.

Lemma no_timer_is_secondary_only {A : Type} (p : Prog A) :
  effects_in sets_no_timer p -> effects_in sets_secondary_only p.
Proof. apply effects_in_mono. intros []; simpl; tauto. Qed.

Lemma filter_under_handle_kept (l : list Timer) :
  List.filter under_handle (List.filter is_kept_on_cleanup l) = [].
Proof.
  induction l as [| t l IH]; [reflexivity |].
  simpl. destruct (is_kept_on_cleanup t) eqn:E; [| exact IH].
  simpl. unfold under_handle. rewrite E. exact IH.
Qed.

Lemma sublist_filter_bool {A : Type} (f : A -> bool) (l1 l2 : list A) :
  l1 `sublist_of` l2 -> List.filter f l1 `sublist_of` List.filter f l2.
Proof.
  induction 1 as [| x l1 l2 H IH | x l1 l2 H IH]; simpl.
  - constructor.
  - destruct (f x); [constructor |]; exact IH.
  - destruct (f x); [constructor |]; exact IH.
Qed.

Lemma component_inv_mounted (window : bool) (connection : option Connection)
    (autoRefresh : bool) (refreshInterval : Z) :
  component_inv (mounted window connection autoRefresh refreshInterval).
Proof.
  split; [apply sublist_nil_l |]. split; [discriminate | constructor].
Qed.

Lemma auto_refresh_effect_spec (s : Sys) :
  handle_timers (auto_refresh_effect s) = handle_timers s ++ interval_timers s /\
  listening (world (auto_refresh_effect s)) = listening (world s) /\
  tasks (auto_refresh_effect s) = tasks s /\
  same_props s (auto_refresh_effect s).
Proof.
  unfold auto_refresh_effect, interval_timers, same_props.
  destruct (autoRefresh s) eqn:Ea;
    [| rewrite app_nil_r; repeat split; assumption].
  destruct (useWallet_publicKey s) eqn:Ew;
    [| rewrite app_nil_r; repeat split; assumption].
  unfold handle_timers, add_timer. simpl. rewrite List.filter_app.
  repeat split; assumption.
Qed.

Lemma initial_load_effect_spec (cfg : TokenConfig) (s : Sys) :
  Forall task_ok (tasks s) ->
  listening (world s) = false ->
  handle_timers (initial_load_effect cfg s) = handle_timers s ++ startup_timers s /\
  (listening (world (initial_load_effect cfg s)) = true ->
   useWallet_publicKey s <> None /\ useConnection_connection s <> None) /\
  Forall task_ok (tasks (initial_load_effect cfg s)) /\
  same_props s (initial_load_effect cfg s).
Proof.
  intros Hts Hl.
  unfold initial_load_effect, startup_timers.
  destruct (useWallet_publicKey s) as [pk |] eqn:Ew.
  2:{ rewrite app_nil_r. repeat split; try assumption; rewrite Hl in *; discriminate. }
  destruct (useConnection_connection s) as [conn |] eqn:Ec.
  2:{ rewrite app_nil_r. repeat split; try assumption; rewrite Hl in *; discriminate. }
  set (s3 := spawn (getAllTokenBalances cfg (Some pk) (Some conn)) s).
  destruct (spawn_inv (getAllTokenBalances cfg (Some pk) (Some conn)) s
              (no_timer_is_secondary_only _ (getAllTokenBalances_effects cfg _ _)) Hts)
    as (H3 & L3 & T3 & P3).
  fold s3 in H3, L3, T3, P3.
  set (s4 := spawn fetchPriceData s3).
  destruct (spawn_inv fetchPriceData s3
              (no_timer_is_secondary_only _ fetchPriceData_effects) T3)
    as (H4 & L4 & T4 & P4).
  fold s4 in H4, L4, T4, P4.
  pose proof (same_props_trans _ _ _ P3 P4) as P.
  split; [| split; [| split]].
  - unfold handle_timers in *.
    cbn [timers world with_world with_listening add_timer apply_action with_timers].
    rewrite !List.filter_app, H4, H3, <- app_assoc. reflexivity.
  - intros _. split; discriminate.
  - exact T4.
  - exact P.
Qed.

Lemma component_inv_wallet (cfg : TokenConfig) (new : option PublicKey) (s : Sys) :
  Forall task_ok (tasks s) ->
  component_inv
    (initial_load_effect cfg (auto_refresh_effect (with_publicKey new (cleanup s)))).
Proof.
  intros Hts.
  set (s1 := with_publicKey new (cleanup s)).
  assert (H1 : handle_timers s1 = []) by apply filter_under_handle_kept.
  destruct (auto_refresh_effect_spec s1) as (H2 & L2 & T2 & P2).
  set (s2 := auto_refresh_effect s1) in *.
  destruct (initial_load_effect_spec cfg s2) as (H3 & L3 & T3 & P3).
  { rewrite T2. exact Hts. }
  { rewrite L2. reflexivity. }
  set (s3 := initial_load_effect cfg s2) in *.
  destruct (same_props_timers _ _ P3) as [I3 S3].
  destruct (same_props_timers _ _ P2) as [I2 S2].
  split; [| split].
  - rewrite effect_timers_split, H3, H2, H1, I3, S3, I2. reflexivity.
  - intros Hl. destruct (L3 Hl) as [Hw Hc].
    destruct P3 as (Pw & Pc & _). rewrite Pw, Pc. split; assumption.
  - exact T3.
Qed.

Lemma component_inv_spawn (p : Prog unit) (s : Sys) :
  effects_in sets_secondary_only p ->
  component_inv s -> component_inv (spawn p s).
Proof.
  intros Hp (Ht & Hl & Hts).
  destruct (spawn_inv p s Hp Hts) as (H1 & L1 & T1 & P1).
  destruct (same_props_timers _ _ P1) as [I1 S1].
  split; [| split].
  - rewrite effect_timers_split, H1, I1, S1, <- effect_timers_split. exact Ht.
  - rewrite L1. destruct P1 as (-> & -> & _). exact Hl.
  - exact T1.
Qed.

Lemma step_inv (cfg : TokenConfig) (o : Oracle) (ev : Event) (s : Sys) :
  component_inv s -> component_inv (step cfg o ev s).
Proof.
  intros Hinv. pose proof Hinv as (Ht & Hl & Hts).
  destruct ev as [new | | n | n]; unfold step.
  - destruct (decide (new = useWallet_publicKey s)); [exact Hinv |].
    apply component_inv_wallet, Hts.
  - destruct (useWallet_publicKey s) eqn:Ew; [| exact Hinv].
    destruct (isLoading (store (world s))); [exact Hinv |].
    apply component_inv_spawn; [| exact Hinv].
    rewrite <- Ew. apply handleRefresh_effects.
  - destruct (nth_error (timers (world s)) n) as [t |] eqn:En; [| exact Hinv].
    apply component_inv_spawn;
      [apply no_timer_is_secondary_only, callback_effects |].
    destruct (timer_kind t); [| exact Hinv |].
    + split; [| split]; [| exact Hl | exact Hts].
      etransitivity; [| exact Ht].
      unfold handle_timers. cbn [timers world with_world with_timers].
      apply sublist_filter_bool. unfold remove_nth.
      rewrite <- delete_take_drop. apply sublist_delete.
    + split; [| split]; [| exact Hl | exact Hts].
      etransitivity; [| exact Ht].
      unfold handle_timers. cbn [timers world with_world with_timers].
      apply sublist_filter_bool. unfold remove_nth.
      rewrite <- delete_take_drop. apply sublist_delete.
  - destruct (nth_error (tasks s) n) as [t |] eqn:En; [| exact Hinv].
    assert (Hok : task_ok t).
    { apply nth_error_In in En. rewrite Forall_forall in Hts.
      apply Hts, list_elem_of_In, En. }
    set (w0 := with_history (task_call t :: history (world s)) (world s)).
    destruct (advance_handle _ (Hok (o (history (world s)) (task_call t))) w0)
      as (H1 & L1 & T1).
    destruct (advance (task_k t (o (history (world s)) (task_call t))) w0)
      as [[t' |] w'] eqn:Ea; simpl in H1, L1, T1.
    + split; [| split].
      * exact (eq_ind_r (fun l => l `sublist_of` _) Ht H1).
      * cbn [world with_tasks with_world]. rewrite L1. exact Hl.
      * cbn [tasks with_tasks]. apply Forall_app. split; [apply Forall_take, Hts |].
        constructor; [exact T1 | apply Forall_drop, Hts].
    + split; [| split].
      * exact (eq_ind_r (fun l => l `sublist_of` _) Ht H1).
      * cbn [world with_tasks with_world]. rewrite L1. exact Hl.
      * cbn [tasks with_tasks]. unfold remove_nth. apply Forall_app.
        split; [apply Forall_take, Hts | apply Forall_drop, Hts].
Qed.

Lemma steps_inv (cfg : TokenConfig) (o : Oracle) (evs : list Event) :
  forall s, component_inv s -> component_inv (steps cfg o evs s).
Proof.
  induction evs as [| ev evs IH]; intros s H; [exact H |].
  apply IH, step_inv, H.
Qed.

(** X12. Whatever events occur after mounting and whatever the ledger
    replies, the startup timeouts and the refresh interval that are
    pending are among those the two effects created for the current
    wallet, connection and props, in that order: there are never more
    than three of them, and none at all while no wallet is attached. *)
Theorem handle_timers_belong_to_current_wallet (cfg : TokenConfig) (o : Oracle)
    (evs : list Event) (window : bool) (connection : option Connection)
    (autoRefresh0 : bool) (refreshInterval0 : Z) :
  let s := steps cfg o evs (mounted window connection autoRefresh0 refreshInterval0) in
  handle_timers s `sublist_of` effect_timers s /\
  (length (handle_timers s) <= 3)%nat /\
  (useWallet_publicKey s = None -> handle_timers s = []).
Proof.
  intros s.
  destruct (steps_inv cfg o evs _
              (component_inv_mounted window connection autoRefresh0 refreshInterval0))
    as (Ht & _ & _).
  fold s in Ht. split; [exact Ht |]. split.
  - apply sublist_length in Ht. etransitivity; [exact Ht |].
    unfold effect_timers.
    destruct (autoRefresh s), (useWallet_publicKey s), (useConnection_connection s);
      simpl; lia.
  - intros Hw. apply sublist_nil_r.
    replace (effect_timers s) with (@nil Timer) in Ht; [exact Ht |].
    unfold effect_timers. rewrite Hw. destruct (autoRefresh s); reflexivity.
Qed.

(** X13. Whatever events occur after mounting, the component's
    [balanceUpdated] listener is registered only while a wallet is attached
    and a connection is present. *)
Theorem listener_only_while_attached (cfg : TokenConfig) (o : Oracle)
    (evs : list Event) (window : bool) (connection : option Connection)
    (autoRefresh0 : bool) (refreshInterval0 : Z) :
  let s := steps cfg o evs (mounted window connection autoRefresh0 refreshInterval0) in
  listening (world s) = true ->
  useWallet_publicKey s <> None /\ useConnection_connection s <> None.
Proof.
  intros s.
  destruct (steps_inv cfg o evs _
              (component_inv_mounted window connection autoRefresh0 refreshInterval0))
    as (_ & Hl & _).
  exact Hl.
Qed.

(** ** The component's asynchronous functions *)

Lemma run_no_timer {A : Type} (o : Oracle) (p : Prog A) :
  effects_in sets_no_timer p ->
  forall w, timers (snd (run o p w)) = timers w.
Proof.
  induction p as [a | e | c k IH | a k IH]; simpl; intros Hp w; try reflexivity.
  - rewrite IH by apply Hp. reflexivity.
  - destruct Hp as [Ha Hk]. rewrite IH by exact Hk.
    destruct a as [f | d | m | | t]; simpl; try reflexivity; [| contradiction].
    destruct (window_defined w), (listening w); reflexivity.
Qed.

Lemma run_lastUpdated_le {A : Type} (o : Oracle) (p : Prog A) :
  forall w, (lastUpdated w <= lastUpdated (snd (run o p w)))%nat.
Proof.
  induction p as [a | e | c k IH | a k IH]; simpl; intros w; try lia.
  - etransitivity; [| apply IH]. simpl. lia.
  - etransitivity; [| apply IH].
    destruct a as [f | d | m | | t]; simpl; try lia.
    destruct (window_defined w); [destruct (listening w) |]; simpl; lia.
Qed.

Lemma getAllTokenBalances_normal (cfg : TokenConfig) (o : Oracle)
    (publicKey : option PublicKey) (connection : option Connection) (w : World) :
  exists w',
    run o (getAllTokenBalances cfg publicKey connection) w = (Normal tt, w') /\
    isLoading (store w') = false /\
    started is_fetch w' = started is_fetch w.
Proof.
  destruct publicKey as [pk |], connection as [conn |];
    try (eexists; repeat split; reflexivity).
  rewrite run_getAllTokenBalances.
  set (w0 := with_store (set_isLoading true (store w)) w).
  assert (Fs : forall c, sol_calls c = true -> is_fetch c = false)
    by (intros []; simpl; congruence).
  assert (Fg : forall c, gold_calls c = true -> is_fetch c = false)
    by (intros []; simpl; congruence).
  destruct (run o (for_loop 3 0 (sol_body conn pk) 0%Q) w0) as [[v | e] w1] eqn:E1;
    pose proof (adds_calls_started _ _ _ _ Fs
                  (loop_adds_calls cfg o conn pk SOL_loop _ _ _ _ _ _ E1)) as H1;
    change (started is_fetch w0) with (started is_fetch w) in H1.
  - destruct (run o (for_loop 3 0 (gold_body_all cfg conn pk (mint cfg)) 0%Q) w1)
      as [[g | e] w2] eqn:E2;
      pose proof (adds_calls_started _ _ _ _ Fg
                    (loop_adds_calls cfg o conn pk GOLD_loop_all _ _ _ _ _ _ E2)) as H2;
      eexists; (split; [reflexivity |]).
    + rewrite dispatch_store. split; [reflexivity |].
      unfold started in *. rewrite dispatch_history. simpl. congruence.
    + split; [reflexivity |]. unfold started in *. simpl. congruence.
  - eexists. split; [reflexivity |]. split; [reflexivity |].
    unfold started in *. simpl. congruence.
Qed.

(** X14. With a wallet and a connection, [handleRefresh] ends normally
    whatever the ledger replies, with [isLoading] false, and has scheduled
    exactly one timer: the 2000 ms secondary refresh for that wallet and
    connection, also when the refresh itself failed. *)
Theorem handleRefresh_schedules_one_secondary (cfg : TokenConfig) (o : Oracle)
    (pk : PublicKey) (conn : Connection) (w : World) :
  exists w',
    run o (handleRefresh cfg (Some pk) (Some conn)) w = (Normal tt, w') /\
    isLoading (store w') = false /\
    timers w' =
      timers w ++ [ {| timer_kind := SecondaryTimeout; timer_ms := 2000;
                       timer_callback := cb_getAllTokenBalances pk conn |} ].
Proof.
  unfold handleRefresh. unfold_bind. rewrite run_bind.
  destruct (getAllTokenBalances_normal cfg o (Some pk) (Some conn) w)
    as (w1 & E & Hl & _).
  pose proof (run_no_timer o _ (getAllTokenBalances_effects cfg (Some pk) (Some conn)) w)
    as Ht.
  rewrite E in Ht |- *. simpl in Ht.
  eexists. split; [reflexivity |]. simpl. rewrite Ht. split; [exact Hl | reflexivity].
Qed.

Lemma fetchPriceData_one_request (o : Oracle) (w : World) :
  exists w',
    run o fetchPriceData w = (Normal tt, w') /\
    started is_fetch w' = Datatypes.S (started is_fetch w).
Proof.
  unfold fetchPriceData. unfold_bind. simpl.
  destruct (o (history w) (fetch "/api/market/prices")) as [response | e]; simpl.
  - destruct (o (fetch "/api/market/prices" :: history w) (json response))
      as [[[] [[[l |]] |]] | e]; simpl; eexists; split; reflexivity.
  - eexists. split; reflexivity.
Qed.

(** X15. With a wallet attached, [refreshBalances] ends normally whatever
    the ledger and the price service reply, and every run advances
    [lastUpdated] and requests the prices exactly once: also when the
    connection is missing or every balance fetch failed. *)
Theorem refreshBalances_always_stamps (cfg : TokenConfig) (o : Oracle)
    (pk : PublicKey) (connection : option Connection) (w : World) :
  exists w',
    run o (refreshBalances cfg (Some pk) connection) w = (Normal tt, w') /\
    (lastUpdated w < lastUpdated w')%nat /\
    started is_fetch w' = Datatypes.S (started is_fetch w) /\
    timers w' = timers w.
Proof.
  pose proof (run_no_timer o _ (refreshBalances_effects cfg (Some pk) connection) w)
    as Ht.
  unfold refreshBalances in *. unfold_bind. rewrite run_bind in *.
  destruct (getAllTokenBalances_normal cfg o (Some pk) connection w)
    as (w1 & E & _ & Hf).
  pose proof (run_lastUpdated_le o (getAllTokenBalances cfg (Some pk) connection) w)
    as Hl.
  rewrite E in *. simpl in Hl. rewrite run_bind in *. rewrite run_do_ in *.
  set (w2 := apply_action setLastUpdated w1) in *.
  destruct (fetchPriceData_one_request o w2) as (w3 & E3 & Hf3).
  pose proof (run_lastUpdated_le o fetchPriceData w2) as Hl3.
  rewrite E3 in *. simpl in Hl3, Ht.
  exists w3. split; [reflexivity |]. split; [lia |]. split; [| exact Ht].
  rewrite Hf3. change (started is_fetch w2) with (started is_fetch w1).
  rewrite Hf. reflexivity.
Qed.

(** X16. When a wallet is attached (or replaces another) and a connection
    is present, the timers kept are those of manual refreshes, followed by
    the refresh interval (when [autoRefresh] is on) and the 3000 ms and
    10000 ms startup timeouts for the new wallet; a balance refresh and a
    price request are started at once, [isLoading] is set and the listener
    is registered. *)
Theorem connect_startup_burst (cfg : TokenConfig) (o : Oracle) (s : Sys)
    (pk : PublicKey) (conn : Connection) :
  useWallet_publicKey s <> Some pk ->
  useConnection_connection s = Some conn ->
  let s' := step cfg o (WalletChanged (Some pk)) s in
  useWallet_publicKey s' = Some pk /\
  timers (world s') =
    List.filter is_kept_on_cleanup (timers (world s)) ++
    (if autoRefresh s
     then [ {| timer_kind := RefreshInterval; timer_ms := refreshInterval s;
               timer_callback := cb_refreshBalances (Some pk) (Some conn) |} ]
     else []) ++
    [ {| timer_kind := StartupTimeout; timer_ms := 3000;
         timer_callback := cb_getAllTokenBalances pk conn |};
      {| timer_kind := StartupTimeout; timer_ms := 10000;
         timer_callback := cb_getAllTokenBalances pk conn |} ] /\
  List.map task_call (tasks s') =
    List.map task_call (tasks s) ++ [getBalance conn pk; fetch "/api/market/prices"] /\
  isLoading (store (world s')) = true /\
  listening (world s') = true.
Proof.
  intros Hne Hc s'. unfold s', step. clear s'.
  destruct (decide (Some pk = useWallet_publicKey s)) as [e | _];
    [exfalso; apply Hne; symmetry; exact e |].
  unfold initial_load_effect, auto_refresh_effect.
  cbn [useWallet_publicKey with_publicKey cleanup with_world autoRefresh
       useConnection_connection refreshInterval].
  rewrite Hc.
  destruct (autoRefresh s);
    cbn [useWallet_publicKey useConnection_connection add_timer with_world];
    rewrite ?Hc; unfold spawn; simpl; rewrite ?Hc; simpl;
    rewrite ?List.map_app, <- ?app_assoc; repeat split.
Qed.

(** * The wallet context provider, the explorer link and the units *)

(** X17. [onError] answers every wallet error with one notification whose
    type is ['info'] exactly for a [WalletDisconnectedError] and ['error']
    otherwise, and whose message is not empty as long as the error has a
    name. *)
Theorem onError_notification (error : WalletError.t) :
  (Notification.type (onError error) = "info" <->
   WalletError.name error = "WalletDisconnectedError") /\
  (Notification.type (onError error) = "info" \/
   Notification.type (onError error) = "error") /\
  (WalletError.name error <> "" -> Notification.message (onError error) <> "").
Proof.
  unfold onError.
  destruct (String.eqb (WalletError.name error) "WalletNotReadyError") eqn:E1;
    [apply String.eqb_eq in E1; rewrite E1; simpl;
     repeat split; (discriminate || (right; reflexivity)) |].
  destruct (String.eqb (WalletError.name error) "WalletConnectionError") eqn:E2;
    [apply String.eqb_eq in E2; rewrite E2; simpl;
     repeat split; (discriminate || (right; reflexivity)) |].
  destruct (String.eqb (WalletError.name error) "WalletNotFoundError") eqn:E3;
    [apply String.eqb_eq in E3; rewrite E3; simpl;
     repeat split; (discriminate || (right; reflexivity)) |].
  destruct (String.eqb (WalletError.name error) "WalletDisconnectedError") eqn:E4.
  - apply String.eqb_eq in E4. rewrite E4. simpl.
    repeat split; (discriminate || (left; reflexivity)).
  - apply String.eqb_neq in E4. simpl. split; [| split].
    + split; [discriminate | intros H; contradiction].
    + right. reflexivity.
    + intros Hn. destruct (String.eqb (WalletError.message error) ""); [exact Hn |].
      destruct (WalletError.name error); simpl; discriminate.
Qed.

Lemma string_append_inj_l (b x y : string) :
  (b ++ x)%string = (b ++ y)%string -> x = y.
Proof.
  induction b as [| a b IH]; simpl; intros H; [exact H |].
  injection H as H. apply IH, H.
Qed.

(** X18. The explorer link is ['#'] exactly when no wallet is attached,
    and for an attached wallet two different networks never get the same
    link. *)
Theorem getSolscanAccountUrl_distinguishes (baseUrl : string)
    (publicKey : option PublicKey) (network1 network2 : string) :
  (getSolscanAccountUrl baseUrl publicKey network1 = "#" <-> publicKey = None) /\
  (publicKey <> None ->
   getSolscanAccountUrl baseUrl publicKey network1 =
   getSolscanAccountUrl baseUrl publicKey network2 ->
   network1 = network2).
Proof.
  unfold getSolscanAccountUrl. destruct publicKey as [pk |].
  - split.
    + split; [| discriminate]. intros H. exfalso.
      destruct baseUrl as [| a [| a' b]]; simpl in H; discriminate.
    + intros _ H.
      apply string_append_inj_l in H. simpl in H.
      apply (string_append_inj_l "/account/") in H.
      apply string_append_inj_l in H.
      destruct (String.eqb network1 "mainnet-beta") eqn:E1,
               (String.eqb network2 "mainnet-beta") eqn:E2.
      * apply String.eqb_eq in E1, E2. congruence.
      * discriminate.
      * discriminate.
      * apply (string_append_inj_l "?cluster=") in H. exact H.
  - split; [split; reflexivity | intros H; contradiction].
Qed.

(** * Instances of the further properties *)

Lemma getTokenBalance_stores_first_success_witness :
  (2 < 3)%nat /\
  exists w',
    run o_sol_flaky_gold_down (getTokenBalance cfg0 wallet1 conn0 Sym.SOL) w_stale
    = (Normal tt, w') /\
    store w' = {| balances := {| SOL := sol_units 2500000000; GOLD := 1 |};
                  isLoading := false |} /\
    started is_getBalance w' = 3%nat.
Proof.
  split; [lia |].
  apply (getTokenBalance_stores_first_success cfg0 o_sol_flaky_gold_down wallet1
           conn0 Sym.SOL w_stale 2 (sol_units 2500000000)).
  - lia.
  - apply o_sol_flaky_fails_twice. reflexivity.
Defined.

Lemma getAllTokenBalances_publishes_both_witness :
  (1 < 3)%nat /\
  exists w',
    run o_both_flaky (getAllTokenBalances cfg0 (Some wallet1) (Some conn0)) w_stale
    = (Normal tt, w') /\
    store w' = {| balances := {| SOL := sol_units 2500000000;
                                 GOLD := gold_units cfg0 {| amount := 7000000 |} |};
                  isLoading := false |} /\
    dispatched w' = [ {| SOL := sol_units 2500000000;
                         GOLD := gold_units cfg0 {| amount := 7000000 |} |} ] /\
    started is_getBalance w' = 2%nat /\
    started is_getAssociatedTokenAddress w' = 2%nat.
Proof.
  split; [lia |].
  apply (getAllTokenBalances_publishes_both cfg0 o_both_flaky wallet1 conn0 w_stale
           1 1 (sol_units 2500000000) (gold_units cfg0 {| amount := 7000000 |})).
  - lia.
  - lia.
  - apply o_both_flaky_sol. reflexivity.
  - apply o_both_flaky_gold. reflexivity.
Defined.

Lemma getAllTokenBalances_rejects_unvalidated_account_witness :
  passes_validation (Some system_account_info) = false /\
  exists w',
    run o_unvalidated (getAllTokenBalances cfg0 (Some wallet1) (Some conn0)) w_stale
    = (Normal tt, w') /\
    store w' = {| balances := {| SOL := sol_units 2500000000; GOLD := 0 |};
                  isLoading := false |} /\
    started is_getAccount w' = 0%nat /\
    started is_getAssociatedTokenAddress w' = 1%nat.
Proof.
  split; [reflexivity |].
  apply (getAllTokenBalances_rejects_unvalidated_account cfg0 o_unvalidated wallet1
           conn0 w_stale 0 (sol_units 2500000000) ata1 (Some system_account_info)).
  - lia.
  - split; intros w1 H; [simpl in H; lia | eexists; reflexivity].
  - reflexivity.
  - reflexivity.
  - reflexivity.
Defined.

Lemma o_price_sol_only_arrives (w : World) :
  prices_arrive o_price_sol_only w
    [ {| symbol := "SOL"; price := 150 |}; {| symbol := "SOL"; price := 151 |} ].
Proof. eexists. split; reflexivity. Qed.

Lemma fetchPriceData_replaces_prices_witness :
  prices_arrive o_price_sol_only w_priced
    [ {| symbol := "SOL"; price := 150 |}; {| symbol := "SOL"; price := 151 |} ] /\
  priceData w_priced !! "GOLD" = Some 2%Q /\
  exists w',
    run o_price_sol_only fetchPriceData w_priced = (Normal tt, w') /\
    priceData w' !! "SOL" = Some 151%Q /\
    priceData w' !! "GOLD" = None.
Proof.
  split; [exact (o_price_sol_only_arrives w_priced) |].
  split; [reflexivity |].
  destruct (fetchPriceData_replaces_prices o_price_sol_only w_priced _
              (o_price_sol_only_arrives w_priced)) as (w' & E & H).
  exists w'. split; [exact E |]. split.
  - exact (proj1 (H "SOL" (or_introl eq_refl))).
  - apply (proj2 (H "GOLD" (or_intror eq_refl))).
    simpl. intros [H1 | [H1 | []]]; discriminate H1.
Defined.

Lemma portfolio_value_NaN_without_both_prices_witness :
  getTotalPortfolioValue {| SOL := 5; GOLD := 1 |} (priceData w_priced)
  = Some (5 * 150 + 1 * 2)%Q /\
  ~ (In "SOL" (List.map symbol [ {| symbol := "SOL"; price := 150 |};
                                 {| symbol := "SOL"; price := 151 |} ]) /\
     In "GOLD" (List.map symbol [ {| symbol := "SOL"; price := 150 |};
                                  {| symbol := "SOL"; price := 151 |} ])) /\
  getTotalPortfolioValue {| SOL := 5; GOLD := 1 |}
    (priceData (snd (run o_price_sol_only fetchPriceData w_priced)))
  = None.
Proof.
  assert (Hn : ~ (In "SOL" (List.map symbol [ {| symbol := "SOL"; price := 150 |};
                                             {| symbol := "SOL"; price := 151 |} ]) /\
                  In "GOLD" (List.map symbol [ {| symbol := "SOL"; price := 150 |};
                                               {| symbol := "SOL"; price := 151 |} ]))).
  { simpl. intros [_ [H1 | [H1 | []]]]; discriminate H1. }
  split; [reflexivity |]. split; [exact Hn |].
  exact (portfolio_value_NaN_without_both_prices o_price_sol_only w_priced _
           {| SOL := 5; GOLD := 1 |} (o_price_sol_only_arrives w_priced) Hn).
Defined.

Lemma listener_only_while_attached_witness :
  listening (world s_connected) = true /\
  useWallet_publicKey s_connected <> None /\
  useConnection_connection s_connected <> None.
Proof.
  split; [reflexivity |].
  apply (listener_only_while_attached cfg0 o_ok [WalletChanged (Some wallet1)]
           true (Some conn0) true 10000).
  reflexivity.
Defined.

Lemma connect_startup_burst_witness :
  useWallet_publicKey s_mounted <> Some wallet1 /\
  useConnection_connection s_mounted = Some conn0 /\
  timers (world s_connected) =
    [ {| timer_kind := RefreshInterval; timer_ms := 10000;
         timer_callback := cb_refreshBalances (Some wallet1) (Some conn0) |};
      {| timer_kind := StartupTimeout; timer_ms := 3000;
         timer_callback := cb_getAllTokenBalances wallet1 conn0 |};
      {| timer_kind := StartupTimeout; timer_ms := 10000;
         timer_callback := cb_getAllTokenBalances wallet1 conn0 |} ] /\
  List.map task_call (tasks s_connected) =
    [getBalance conn0 wallet1; fetch "/api/market/prices"].
Proof.
  assert (H : useWallet_publicKey s_mounted <> Some wallet1) by discriminate.
  split; [exact H |]. split; [reflexivity |].
  destruct (connect_startup_burst cfg0 o_ok s_mounted wallet1 conn0 H eq_refl)
    as (_ & Ht & Hk & _).
  split; [exact Ht | exact Hk].
Defined.

(** * The loading flag *)

Lemma lp_mono {A : Type} (p : Prog A) :
  forall si st (post post' : Outcome A -> bool -> SegState -> Prop),
    (forall r si' st', post r si' st' -> post' r si' st') ->
    lp p si st post -> lp p si st post'.
Proof.
  induction p as [a | e | c k IH | a k IH]; simpl; intros si st post post' Hm H;
    auto.
  - destruct H as [H1 H2]. split; [exact H1 |]. intros r. eapply IH; eauto.
  - destruct a; try (eapply IH; eauto).
    destruct H as [[Hc H] | H]; [left; split; [exact Hc |] | right]; eapply IH; eauto.
Qed.

Lemma lp_bind {A B : Type} (p : Prog A) (f : A -> Prog B) :
  forall si st (post : Outcome B -> bool -> SegState -> Prop),
    lp p si st (fun r si' st' =>
                  match r with
                  | Normal a => lp (f a) si' st' post
                  | Thrown e => post (Thrown e) si' st'
                  end) ->
    lp (bind p f) si st post.
Proof.
  induction p as [a | e | c k IH | a k IH]; simpl; intros si st post H; auto.
  - destruct H as [H1 H2]. split; [exact H1 |]. intros r. apply IH, H2.
  - destruct a; try (apply IH, H).
    destruct H as [[Hc H] | H]; [left; split; [exact Hc |] | right]; apply IH, H.
Qed.

Lemma lp_try_catch {A : Type} (p : Prog A) (h : Error -> Prog A) :
  forall si st (post : Outcome A -> bool -> SegState -> Prop),
    lp p si st (fun r si' st' =>
                  match r with
                  | Normal a => post (Normal a) si' st'
                  | Thrown e => lp (h e) si' st' post
                  end) ->
    lp (try_catch p h) si st post.
Proof.
  induction p as [a | e | c k IH | a k IH]; simpl; intros si st post H; auto.
  - destruct H as [H1 H2]. split; [exact H1 |]. intros r. apply IH, H2.
  - destruct a; try (apply IH, H).
    destruct H as [[Hc H] | H]; [left; split; [exact Hc |] | right]; apply IH, H.
Qed.

Lemma lp_ledger_only {A : Type} (p : Prog A) :
  ledger_only p ->
  forall si st (post : Outcome A -> bool -> SegState -> Prop),
    (forall r si' st', post r si' st') -> lp p si st post.
Proof.
  induction p as [a | e | c k IH | a k IH]; simpl; intros Hp si st post H; auto.
  - destruct Hp as [Hc Hk]. split; [left; exact Hc |]. intros r. apply IH; auto.
  - contradiction.
Qed.

Lemma ledger_only_bind {A B : Type} (p : Prog A) (f : A -> Prog B) :
  ledger_only p -> (forall a, ledger_only (f a)) -> ledger_only (bind p f).
Proof.
  intros Hp Hf. induction p as [a | e | c k IH | a k IH]; simpl in *; auto.
  destruct Hp as [Hc Hk]. split; auto.
Qed.

Lemma ledger_only_try_catch {A : Type} (p : Prog A) (h : Error -> Prog A) :
  ledger_only p -> (forall e, ledger_only (h e)) -> ledger_only (try_catch p h).
Proof.
  intros Hp Hh. induction p as [a | e | c k IH | a k IH]; simpl in *; auto.
  destruct Hp as [Hc Hk]. split; auto.
Qed.

Lemma ledger_only_for_loop {S : Type} (body : Z -> S -> Prog (Ctl S)) :
  (forall i s, ledger_only (body i s)) ->
  forall n i s, ledger_only (for_loop n i body s).
Proof.
  intros Hb. induction n as [| n IH]; intros i s; simpl; [exact I |].
  apply ledger_only_bind; [apply Hb |].
  intros [s' | s']; simpl; auto.
Qed.

Ltac ledger_step :=
  first
    [ exact I
    | reflexivity
    | apply ledger_only_for_loop
    | apply ledger_only_try_catch
    | apply ledger_only_bind
    | match goal with
      | |- ledger_only (match ?x with _ => _ end) => destruct x
      | |- ledger_only (await _) => split; [reflexivity | intros []; exact I]
      | |- ledger_only (sleep _) => split; [reflexivity | intros ?; exact I]
      | |- forall _, _ => intro
      | |- _ /\ _ => split
      end ].

Lemma loops_ledger_only (cfg : TokenConfig) (conn : Connection) (pk : PublicKey)
    (l : RetryLoop) (n : nat) (i : Z) (s : Q) :
  ledger_only (for_loop n i (loop_body cfg conn pk l) s).
Proof.
  destruct l; unfold loop_body, sol_body, gold_body_one, gold_body_all,
    sol_try, gold_try_one, gold_try_all; unfold_bind; repeat ledger_step.
Qed.

Lemma lp_getAllTokenBalances (cfg : TokenConfig) (publicKey : option PublicKey)
    (connection : option Connection) (si : bool) (st : SegState)
    (post : Outcome unit -> bool -> SegState -> Prop) :
  (forall si', post (Normal tt) si' Cleared) ->
  lp (getAllTokenBalances cfg publicKey connection) si st post.
Proof.
  intros H.
  destruct publicKey as [pk |];
    [| left; split; [intros st0; reflexivity | apply H]].
  destruct connection as [conn |];
    [| left; split; [intros st0; reflexivity | apply H]].
  unfold getAllTokenBalances. unfold_bind.
  apply lp_bind. cbn [lp do_]. right.
  apply lp_try_catch, lp_bind.
  apply (lp_ledger_only _ (loops_ledger_only cfg conn pk SOL_loop 3 0 0%Q)).
  intros [solAmount | e] si1 st1.
  - apply lp_bind.
    apply (lp_ledger_only _ (loops_ledger_only cfg conn pk GOLD_loop_all 3 0 0%Q)).
    intros [goldAmount | e] si2 st2.
    + apply lp_bind. cbn [lp do_]. left. split; [intros st0; reflexivity | apply H].
    + cbn [lp do_]. left. split; [intros st0; reflexivity | apply H].
  - cbn [lp do_]. left. split; [intros st0; reflexivity | apply H].
Qed.

Lemma lp_fetchPriceData (si : bool) (st : SegState) :
  end_ok si st -> lp fetchPriceData si st end_post.
Proof.
  intros H. unfold fetchPriceData. unfold_bind. simpl.
  split; [right; exact H |].
  intros [response | e]; simpl; [| right; split; reflexivity].
  split; [right; right; split; reflexivity |].
  intros [[[] [[[l |]] |]] | e]; simpl; right; split; reflexivity.
Qed.

Lemma lp_refreshBalances (cfg : TokenConfig) (publicKey : option PublicKey)
    (connection : option Connection) :
  lp (refreshBalances cfg publicKey connection) false Untouched end_post.
Proof.
  unfold refreshBalances. unfold_bind.
  destruct publicKey as [pk |]; [| right; split; reflexivity].
  apply lp_bind, lp_getAllTokenBalances. intros si'.
  apply lp_bind. cbn [lp do_]. apply lp_fetchPriceData. left. reflexivity.
Qed.

Lemma lp_handleRefresh (cfg : TokenConfig) (publicKey : option PublicKey)
    (connection : option Connection) :
  lp (handleRefresh cfg publicKey connection) false Untouched end_post.
Proof.
  unfold handleRefresh. unfold_bind.
  destruct publicKey as [pk |]; [| right; split; reflexivity].
  destruct connection as [conn |]; [| right; split; reflexivity].
  apply lp_bind, lp_getAllTokenBalances. intros si'.
  cbn [lp do_]. left. reflexivity.
Qed.

Lemma lp_callback (cfg : TokenConfig) (cb : Callback) :
  lp (callback_prog cfg cb) false Untouched end_post.
Proof.
  destruct cb; unfold callback_prog.
  - apply lp_getAllTokenBalances. intros si'. left. reflexivity.
  - apply lp_refreshBalances.
Qed.

Lemma end_ok_flag (si : bool) (st : SegState) (w0 w : World) :
  end_ok si st -> seg_rel st w0 w -> flag_ok si w0 w.
Proof.
  intros [-> | [-> ->]] H; [left | right; split; [reflexivity |]]; exact H.
Qed.

Lemma advance_lp (p : Prog unit) :
  forall si st w0 w,
    lp p si st end_post ->
    seg_rel st w0 w ->
    match fst (advance p w) with
    | Some t =>
        (in_refresh_cycle t = true \/ flag_ok si w0 (snd (advance p w))) /\ task_lp t
    | None => flag_ok si w0 (snd (advance p w))
    end.
Proof.
  induction p as [a | e | c k IH | a k IH]; simpl; intros si st w0 w Hp Hr.
  - eapply end_ok_flag; eauto.
  - eapply end_ok_flag; eauto.
  - destruct Hp as [Hc Hk]. split.
    + destruct Hc as [Hc | Hc]; [left; exact Hc | right; eapply end_ok_flag; eauto].
    + exact Hk.
  - destruct a as [f | d | m | | t].
    + destruct Hp as [[Hc Hp] | Hp].
      * apply (IH si Cleared w0); [exact Hp | apply Hc].
      * apply (IH si Dirty w0); [exact Hp | exact I].
    + apply (IH si st w0); [exact Hp |].
      destruct st; unfold seg_rel in *; rewrite ?dispatch_store; auto.
    + apply (IH si st w0); [exact Hp |]. destruct st; exact Hr.
    + apply (IH si st w0); [exact Hp |]. destruct st; exact Hr.
    + apply (IH si st w0); [exact Hp |]. destruct st; exact Hr.
Qed.

Lemma cyc_count_app (l1 l2 : list Task) :
  cyc_count (l1 ++ l2) = (cyc_count l1 + cyc_count l2)%nat.
Proof. unfold cyc_count. rewrite List.filter_app, length_app. reflexivity. Qed.

Lemma cyc_count_cons (t : Task) (l : list Task) :
  cyc_count (t :: l) = ((if in_refresh_cycle t then 1 else 0) + cyc_count l)%nat.
Proof. unfold cyc_count. simpl. destruct (in_refresh_cycle t); reflexivity. Qed.

Lemma loading_inv_same (s s' : Sys) :
  store (world s') = store (world s) ->
  tasks s' = tasks s ->
  loading_inv s -> loading_inv s'.
Proof.
  unfold loading_inv, cycles_in_flight. intros -> ->. auto.
Qed.

Lemma loading_inv_spawn (p : Prog unit) (s : Sys) :
  lp p false Untouched end_post ->
  loading_inv s -> loading_inv (spawn p s).
Proof.
  intros Hp [Hl Hts].
  pose proof (advance_lp p false Untouched (world s) (world s) Hp eq_refl) as H.
  unfold spawn. destruct (advance p (world s)) as [[t |] w']; simpl in H.
  - destruct H as [Hc Ht]. split.
    + unfold cycles_in_flight. cbn [tasks with_tasks world with_world].
      fold (cyc_count (tasks s ++ [t])). rewrite cyc_count_app, cyc_count_cons.
      intros Hload. destruct Hc as [-> | [Hc | [_ Hc]]]; [lia | congruence |].
      rewrite Hc in Hload. specialize (Hl Hload).
      unfold cycles_in_flight in Hl. fold (cyc_count (tasks s)) in Hl. lia.
    + cbn [tasks with_tasks]. apply Forall_app. split; [exact Hts |].
      constructor; [exact Ht | constructor].
  - split; [| exact Hts].
    cbn [world with_world]. unfold cycles_in_flight. cbn [tasks with_world].
    intros Hload. destruct H as [H | [_ H]]; [congruence |].
    rewrite H in Hload. exact (Hl Hload).
Qed.

Lemma nth_error_middle {A : Type} (l : list A) :
  forall n x, nth_error l n = Some x -> l = take n l ++ x :: drop (Datatypes.S n) l.
Proof.
  induction l as [| y l IH]; intros [| n] x H; simpl in *; try discriminate.
  - inversion H. reflexivity.
  - f_equal. apply IH, H.
Qed.

Lemma loading_inv_step (cfg : TokenConfig) (o : Oracle) (ev : Event) (s : Sys) :
  loading_inv s -> loading_inv (step cfg o ev s).
Proof.
  intros Hinv. destruct ev as [new | | n | n]; unfold step.
  - destruct (decide (new = useWallet_publicKey s)); [exact Hinv |].
    set (s1 := auto_refresh_effect (with_publicKey new (cleanup s))).
    assert (H1 : loading_inv s1).
    { apply (loading_inv_same s); [| | exact Hinv];
        unfold s1, auto_refresh_effect; simpl;
        destruct (autoRefresh s); try reflexivity; destruct new; reflexivity. }
    unfold initial_load_effect.
    destruct (useWallet_publicKey s1) as [pk |]; [| exact H1].
    destruct (useConnection_connection s1) as [conn |]; [| exact H1].
    set (s2 := spawn (getAllTokenBalances cfg (Some pk) (Some conn)) s1).
    assert (H2 : loading_inv s2).
    { apply loading_inv_spawn; [| exact H1].
      apply lp_getAllTokenBalances. intros si'. left. reflexivity. }
    set (s3 := spawn fetchPriceData s2).
    assert (H3 : loading_inv s3).
    { apply loading_inv_spawn; [| exact H2].
      apply lp_fetchPriceData. right. split; reflexivity. }
    apply (loading_inv_same s3); [reflexivity | reflexivity | exact H3].
  - destruct (useWallet_publicKey s) eqn:Ew; [| exact Hinv].
    destruct (isLoading (store (world s))); [exact Hinv |].
    apply loading_inv_spawn; [apply lp_handleRefresh | exact Hinv].
  - destruct (nth_error (timers (world s)) n) as [t |]; [| exact Hinv].
    apply loading_inv_spawn; [apply lp_callback |].
    destruct (timer_kind t); [| exact Hinv |];
      (apply (loading_inv_same s); [reflexivity | reflexivity | exact Hinv]).
  - destruct (nth_error (tasks s) n) as [t |] eqn:En; [| exact Hinv].
    destruct Hinv as [Hl Hts].
    pose proof (nth_error_middle _ _ _ En) as Hmid.
    assert (Hok : task_lp t).
    { apply nth_error_In in En. rewrite Forall_forall in Hts.
      apply Hts, list_elem_of_In, En. }
    set (w0 := with_history (task_call t :: history (world s)) (world s)).
    pose proof (advance_lp _ (in_refresh_cycle t) Untouched w0 w0
                  (Hok (o (history (world s)) (task_call t))) eq_refl) as H.
    assert (Hcount : cycles_in_flight s =
                     (cyc_count (take n (tasks s)) +
                      ((if in_refresh_cycle t then 1 else 0) +
                       cyc_count (drop (Datatypes.S n) (tasks s))))%nat).
    { unfold cycles_in_flight. fold (cyc_count (tasks s)).
      rewrite Hmid at 1. rewrite cyc_count_app, cyc_count_cons. reflexivity. }
    destruct (advance (task_k t (o (history (world s)) (task_call t))) w0)
      as [[t' |] w'] eqn:Ea; simpl in H.
    + destruct H as [Hc Ht']. split.
      * unfold cycles_in_flight. cbn [tasks with_tasks world with_world].
        fold (cyc_count (take n (tasks s) ++ t' :: drop (Datatypes.S n) (tasks s))).
        rewrite cyc_count_app, cyc_count_cons.
        intros Hload. destruct Hc as [-> | [Hc | [Hsi Hc]]]; [lia | congruence |].
        rewrite Hc in Hload. specialize (Hl Hload).
        rewrite Hcount, Hsi in Hl. lia.
      * cbn [tasks with_tasks]. apply Forall_app. split; [apply Forall_take, Hts |].
        constructor; [exact Ht' | apply Forall_drop, Hts].
    + split.
      * unfold cycles_in_flight, remove_nth. cbn [tasks with_tasks world with_world].
        fold (cyc_count (take n (tasks s) ++ drop (Datatypes.S n) (tasks s))).
        rewrite cyc_count_app.
        intros Hload. destruct H as [H | [Hsi H]]; [congruence |].
        rewrite H in Hload. specialize (Hl Hload).
        rewrite Hcount, Hsi in Hl. lia.
      * cbn [tasks with_tasks]. unfold remove_nth. apply Forall_app.
        split; [apply Forall_take, Hts | apply Forall_drop, Hts].
Qed.

Lemma loading_inv_steps (cfg : TokenConfig) (o : Oracle) (evs : list Event) :
  forall s, loading_inv s -> loading_inv (steps cfg o evs s).
Proof.
  induction evs as [| ev evs IH]; intros s H; [exact H |].
  apply IH, loading_inv_step, H.
Qed.

(** X20. Whatever events occur after mounting and whatever the ledger and
    the price service reply, [isLoading] is true only while at least one
    balance refresh is in flight: when the last refresh has ended, the
    flag is off. *)
Theorem isLoading_only_while_refreshing (cfg : TokenConfig) (o : Oracle)
    (evs : list Event) (window : bool) (connection : option Connection)
    (autoRefresh0 : bool) (refreshInterval0 : Z) :
  let s := steps cfg o evs (mounted window connection autoRefresh0 refreshInterval0) in
  isLoading (store (world s)) = true -> (0 < cycles_in_flight s)%nat.
Proof.
  intros s.
  assert (H0 : loading_inv (mounted window connection autoRefresh0 refreshInterval0)).
  { split; [discriminate | constructor]. }
  exact (proj1 (loading_inv_steps cfg o evs _ H0)).
Qed.

Lemma isLoading_only_while_refreshing_witness :
  isLoading (store (world s_connected)) = true /\
  (0 < cycles_in_flight s_connected)%nat.
Proof.
  split; [reflexivity |].
  apply (isLoading_only_while_refreshing cfg0 o_ok [WalletChanged (Some wallet1)]
           true (Some conn0) true 10000).
  reflexivity.
Defined.

Lemma last_entry_In (k : string) (l : list PriceEntry) (p : PriceEntry) :
  last_entry k l = Some p -> In p l.
Proof.
  unfold last_entry. intros H. apply List.find_some in H as [H _].
  apply in_rev, H.
Qed.

(** X21. After a well-formed price response that lists no negative price,
    the portfolio total of non-negative balances is, whenever it is a
    number, non-negative. *)
Theorem portfolio_value_nonneg (o : Oracle) (w : World) (l : list PriceEntry)
    (st : State) (total : Q) :
  prices_arrive o w l ->
  (forall p, In p l -> (0 <= price p)%Q) ->
  balances_nonneg st ->
  getTotalPortfolioValue (balances st) (priceData (snd (run o fetchPriceData w)))
  = Some total ->
  (0 <= total)%Q.
Proof.
  intros Ha Hp [HS HG].
  destruct (run_fetchPriceData_arrive o w l Ha) as (w' & E & Hm & _).
  rewrite E. unfold snd. rewrite Hm. unfold getTotalPortfolioValue.
  rewrite !build_priceMap_lookup by discriminate.
  destruct (last_entry "SOL" l) as [pS |] eqn:ES; simpl; [| discriminate].
  destruct (last_entry "GOLD" l) as [pG |] eqn:EG; simpl; [| discriminate].
  intros H. inversion H; subst. clear H.
  apply last_entry_In in ES, EG.
  apply (Qle_trans _ (0 + 0)); [apply Qle_refl |].
  apply Qplus_le_compat; apply Qmult_le_0_compat; auto.
Qed.

Lemma o_ok_prices_arrive :
  prices_arrive o_ok w_stale
    [ {| symbol := "SOL"; price := 150 |}; {| symbol := "GOLD"; price := 2 |} ].
Proof. eexists. split; reflexivity. Qed.

Lemma portfolio_value_nonneg_witness :
  getTotalPortfolioValue (balances (store w_stale))
    (priceData (snd (run o_ok fetchPriceData w_stale)))
  = Some (5 * 150 + 1 * 2)%Q /\
  (0 <= 5 * 150 + 1 * 2)%Q.
Proof.
  assert (H : getTotalPortfolioValue (balances (store w_stale))
                (priceData (snd (run o_ok fetchPriceData w_stale)))
              = Some (5 * 150 + 1 * 2)%Q) by reflexivity.
  split; [exact H |].
  apply (portfolio_value_nonneg o_ok w_stale
           [ {| symbol := "SOL"; price := 150 |}; {| symbol := "GOLD"; price := 2 |} ]
           (store w_stale) (5 * 150 + 1 * 2)%Q).
  - exact o_ok_prices_arrive.
  - intros p [<- | [<- | []]]; simpl; unfold Qle; simpl; lia.
  - split; simpl; unfold Qle; simpl; lia.
  - exact H.
Defined.

Lemma getAllTokenBalances_event_matches_store_witness :
  window_defined w_stale = true /\
  balances (store (snd (run o_ok (getAllTokenBalances cfg0 (Some wallet1) (Some conn0))
                            w_stale)))
  <> balances (store w_stale) /\
  dispatched (snd (run o_ok (getAllTokenBalances cfg0 (Some wallet1) (Some conn0))
                       w_stale))
  = balances (store (snd (run o_ok (getAllTokenBalances cfg0 (Some wallet1) (Some conn0))
                              w_stale)))
    :: dispatched w_stale.
Proof.
  assert (H : balances (store (snd (run o_ok (getAllTokenBalances cfg0 (Some wallet1)
                                                (Some conn0)) w_stale)))
              <> balances (store w_stale)).
  { intros H. vm_compute in H. discriminate H. }
  split; [reflexivity |]. split; [exact H |].
  apply (proj2 (getAllTokenBalances_event_matches_store cfg0 o_ok (Some wallet1)
                  (Some conn0) w_stale)); [reflexivity | exact H].
Defined.

Lemma fetchPriceData_absorbs_everything_witness :
  exists w',
    run o_price_sol_only fetchPriceData w_stale = (Normal tt, w') /\
    store w' = store w_stale /\ dispatched w' = dispatched w_stale /\
    timers w' = timers w_stale /\
    (length (history w') <= length (history w_stale) + 2)%nat /\
    (priceData w' <> priceData w_stale ->
     exists l, prices_arrive o_price_sol_only w_stale l /\
               priceData w' = build_priceMap l).
Proof.
  exact (fetchPriceData_absorbs_everything o_price_sol_only w_stale).
Defined.

Lemma handle_timers_belong_to_current_wallet_witness :
  let s := steps cfg0 o_ok [WalletChanged (Some wallet1); WalletChanged None]
             (mounted true (Some conn0) true 10000) in
  useWallet_publicKey s = None /\ handle_timers s = [].
Proof.
  intros s. split; [reflexivity |].
  apply (proj2 (proj2 (handle_timers_belong_to_current_wallet cfg0 o_ok
                         [WalletChanged (Some wallet1); WalletChanged None]
                         true (Some conn0) true 10000))).
  reflexivity.
Defined.

Lemma onError_notification_witness :
  WalletError.name {| WalletError.name := "WalletSignTransactionError";
                      WalletError.message := "User rejected the request." |} <> "" /\
  Notification.message
    (onError {| WalletError.name := "WalletSignTransactionError";
                WalletError.message := "User rejected the request." |}) <> "".
Proof.
  assert (H : WalletError.name
                {| WalletError.name := "WalletSignTransactionError";
                   WalletError.message := "User rejected the request." |} <> "")
    by discriminate.
  split; [exact H |].
  exact (proj2 (proj2 (onError_notification _)) H).
Defined.

Lemma getSolscanAccountUrl_distinguishes_witness :
  Some wallet1 <> None /\
  getSolscanAccountUrl "https://solscan.io" (Some wallet1) "devnet" <>
  getSolscanAccountUrl "https://solscan.io" (Some wallet1) "testnet" /\
  getSolscanAccountUrl "https://solscan.io" (Some wallet1) "devnet" <>
  getSolscanAccountUrl "https://solscan.io" (Some wallet1) "mainnet-beta" /\
  getSolscanAccountUrl "https://solscan.io" (Some wallet1) "mainnet-beta" <> "#" /\
  getSolscanAccountUrl "https://solscan.io" None "mainnet-beta" = "#".
Proof.
  assert (H : Some wallet1 <> None) by discriminate.
  split; [exact H |].
  split.
  { intros E.
    apply (proj2 (getSolscanAccountUrl_distinguishes "https://solscan.io"
                    (Some wallet1) "devnet" "testnet") H) in E.
    discriminate E. }
  split.
  { intros E.
    apply (proj2 (getSolscanAccountUrl_distinguishes "https://solscan.io"
                    (Some wallet1) "devnet" "mainnet-beta") H) in E.
    discriminate E. }
  split.
  { intros E.
    apply (proj1 (proj1 (getSolscanAccountUrl_distinguishes "https://solscan.io"
                           (Some wallet1) "mainnet-beta" "mainnet-beta"))) in E.
    discriminate E. }
  apply (proj2 (proj1 (getSolscanAccountUrl_distinguishes "https://solscan.io"
                         None "mainnet-beta" "mainnet-beta"))).
  reflexivity.
Defined.
